(** * json_to_bin: JSON lines to tensor files

    A shallow embedding of [src/main/python/safetensors/json_to_bin.py] and
    the properties of its [process_file].

    Python values are modelled as follows.
    - [str] is a list of code points ([pystr]); [ord] and [chr] are the
      builtins.
    - The objects [json.loads] returns are the type [json]; a [float] is an
      IEEE-754 binary64 number ([spec_float] of the standard library), an
      [int] is a [Z], a [dict] keeps its insertion order.
    - Exceptions are the type [exn]; a computation that may raise returns a
      [result].
    - The file system, the log and the I/O trace are the record [world],
      passed explicitly.

    The library functions the script calls ([json.loads], [os.path],
    [torch.tensor], [pad_sequence], [save_file]) are modelled after their
    CPython / PyTorch / safetensors behaviour, as far as the script can
    observe it.

    Scope.  [loads] is [json.loads] on texts within the interpreter's
    limits: past the recursion limit or the limit on the digits of an
    integer literal CPython raises [RecursionError] or [ValueError], which
    [loads] does not.  The properties that depend on it say what [loads]
    returned on the lines they speak of.  The log is the sequence of the
    calls to [logging]; the files that its handlers write are not among
    [files].  A file is read entirely or fails at its first read. *)

From Stdlib Require Import ZArith NArith List Bool Ascii String Lia.
From Stdlib Require Import Floats.SpecFloat.
From stdpp Require Import gmap list.

Local Open Scope Z_scope.
Local Set Warnings "-register-all".

(** ** Python strings *)

Definition char := N.
Definition pystr := list char.

(** An ASCII literal as a Python string. *)
Definition py (s : string) : pystr := map N_of_ascii (list_ascii_of_string s).

(** [ord(c)]. *)
Definition ord (c : char) : Z := Z.of_N c.

Inductive exn :=
| FileNotFoundError
| FileExistsError
| IsADirectoryError
| BadGzipFile
| IOError
| ValueError
| JSONDecodeError
| UnicodeDecodeError
| KeyError
| IndexError
| AttributeError
| TypeError
| OverflowError
| RuntimeError
| SafetensorError.

Inductive result (A : Type) :=
| Ok (a : A)
| Raise (e : exn).
Arguments Ok {A} a.
Arguments Raise {A} e.

Definition rbind {A B} (r : result A) (k : A -> result B) : result B :=
  match r with
  | Ok a => k a
  | Raise e => Raise e
  end.

Notation "x <- e ;; k" := (rbind e (fun x => k))
  (at level 100, e at next level, right associativity).

Fixpoint mapM {A B} (f : A -> result B) (l : list A) : result (list B) :=
  match l with
  | [] => Ok []
  | x :: l' => y <- f x ;; ys <- mapM f l' ;; Ok (y :: ys)
  end.

(** [chr(i)]: [ValueError] outside [range(0x110000)]. *)
Definition chr (i : Z) : result char :=
  if (0 <=? i) && (i <? 1114112) then Ok (Z.to_N i) else Raise ValueError.

Definition char_eqb (a b : char) : bool := N.eqb a b.

Fixpoint str_eqb (a b : pystr) : bool :=
  match a, b with
  | [], [] => true
  | x :: a', y :: b' => char_eqb x y && str_eqb a' b'
  | _, _ => false
  end.

(** [s.startswith(p)]. *)
Fixpoint startswith (s p : pystr) : bool :=
  match p, s with
  | [], _ => true
  | x :: p', y :: s' => char_eqb x y && startswith s' p'
  | _ :: _, [] => false
  end.

(** [s.endswith(p)]. *)
Definition endswith (s p : pystr) : bool := startswith (rev s) (rev p).

(** [p in s] for strings. *)
Fixpoint contains (s p : pystr) : bool :=
  match s with
  | [] => startswith [] p
  | _ :: s' => startswith s p || contains s' p
  end.

(** [s.replace(old, new)]: the occurrences of [old] are found from the
    left and do not overlap.  [skip] counts the characters of a matched
    occurrence that are still to be dropped. *)
Fixpoint replace_go (old new : pystr) (skip : nat) (s : pystr) : pystr :=
  match s with
  | [] => []
  | c :: s' =>
      match skip with
      | S k => replace_go old new k s'
      | O =>
          if startswith s old
          then new ++ replace_go old new (Nat.pred (length old)) s'
          else c :: replace_go old new O s'
      end
  end.

Definition replace (s old new : pystr) : pystr :=
  match old with
  | [] => new ++ flat_map (fun c => c :: new) s
  | _ :: _ => replace_go old new O s
  end.

(** ** os.path (posixpath) *)

Definition sep : char := 47%N.

(** [os.path.basename(p)]: what follows the last [/]. *)
Fixpoint basename (p : pystr) : pystr :=
  match p with
  | [] => []
  | c :: p' => if existsb (char_eqb sep) p then basename p' else p
  end.

(** [os.path.join(a, b)]. *)
Definition path_join (a b : pystr) : pystr :=
  if startswith b [sep] then b
  else if str_eqb a [] || endswith a [sep] then a ++ b
  else a ++ sep :: b.

(** Lines 21-29 of [process_file]. *)
Definition base_name (input_file_path : pystr) : pystr :=
  replace (replace (replace (basename input_file_path)
    (py ".jsonl") []) (py ".gz") []) (py ".json") [].

Definition vectors_path (output_directory input_file_path : pystr) : pystr :=
  path_join output_directory
    (base_name input_file_path ++ py "_vectors.safetensors").

Definition docids_path (output_directory input_file_path : pystr) : pystr :=
  path_join output_directory
    (base_name input_file_path ++ py "_docids.safetensors").

(** Lines 42-48: which opener reads the input. *)
Inductive opener := gzip_open | builtin_open.

Definition file_opener (input_file_path : pystr) : option opener :=
  if endswith input_file_path (py ".gz") then Some gzip_open
  else if endswith input_file_path (py ".jsonl")
          || endswith input_file_path (py ".json") then Some builtin_open
  else None.

(** ** Python objects, as [json.loads] builds them *)

Inductive json :=
| JNull
| JBool (b : bool)
| JInt (z : Z)
| JFloat (f : spec_float)
| JStr (s : pystr)
| JArr (items : list json)
| JObj (pairs : list (pystr * json)).

(** A [dict] keeps the position of a key's first insertion and the value of
    its last. *)
Fixpoint dict_set (d : list (pystr * json)) (k : pystr) (v : json)
  : list (pystr * json) :=
  match d with
  | [] => [(k, v)]
  | (k', v') :: d' =>
      if str_eqb k' k then (k', v) :: d' else (k', v') :: dict_set d' k v
  end.

Fixpoint dict_lookup (d : list (pystr * json)) (k : pystr) : option json :=
  match d with
  | [] => None
  | (k', v) :: d' => if str_eqb k' k then Some v else dict_lookup d' k
  end.

Definition dict_of_pairs (pairs : list (pystr * json)) : list (pystr * json) :=
  fold_left (fun d kv => dict_set d (fst kv) (snd kv)) pairs [].

(** ** binary64 *)

Definition prec64 : Z := 53.
Definition emax64 : Z := 1024.

(** [float("<digits>e<e>")], correctly rounded: the value is [m * 10^e]
    with [0 <= m]. *)
Definition float_of_decimal (neg : bool) (m e : Z) : spec_float :=
  if m =? 0 then S754_zero neg
  else if 0 <=? e then
    binary_normalize prec64 emax64 (if neg then - (m * 10 ^ e) else m * 10 ^ e)
      0 false
  else
    let '(q, e', l) := SFdiv_core_binary prec64 emax64 m 0 (10 ^ (- e)) 0 in
    binary_round_aux prec64 emax64 neg q e' l.

(** [float(i)] for an [int]: [OverflowError] when out of range. *)
Definition float_of_int (z : Z) : result spec_float :=
  match binary_normalize prec64 emax64 z 0 false with
  | S754_infinity _ => Raise OverflowError
  | f => Ok f
  end.

(** ** json.loads

    The decoder of CPython's [json] module with its defaults: strict
    strings, [NaN], [Infinity] and [-Infinity] accepted.  Every way a text
    can fail to parse raises [JSONDecodeError]; the position and the message
    are not kept.  The limits of the interpreter (the recursion limit, the
    largest number of digits of an [int] literal) are not modelled. *)

Definition ch (a : ascii) : char := N_of_ascii a.
Arguments ch a%_char.

Definition quote : char := 34%N.

Inductive scan (A : Type) :=
| Scanned (a : A) (rest : pystr)
| NoParse
| NoFuel.
Arguments Scanned {A} a rest.
Arguments NoParse {A}.
Arguments NoFuel {A}.

Definition scan_map {A B} (f : A -> B) (r : scan A) : scan B :=
  match r with
  | Scanned a rest => Scanned (f a) rest
  | NoParse => NoParse
  | NoFuel => NoFuel
  end.

Definition is_ws (c : char) : bool :=
  char_eqb c 32%N || char_eqb c 9%N || char_eqb c 10%N || char_eqb c 13%N.

Fixpoint skip_ws (s : pystr) : pystr :=
  match s with
  | c :: s' => if is_ws c then skip_ws s' else s
  | [] => []
  end.

Definition is_digit (c : char) : bool := (48 <=? c)%N && (c <=? 57)%N.

Definition hex_digit (c : char) : option Z :=
  if is_digit c then Some (Z.of_N c - 48)
  else if (97 <=? c)%N && (c <=? 102)%N then Some (Z.of_N c - 87)
  else if (65 <=? c)%N && (c <=? 70)%N then Some (Z.of_N c - 55)
  else None.

Definition hex4 (a b c d : char) : option Z :=
  match hex_digit a, hex_digit b, hex_digit c, hex_digit d with
  | Some x, Some y, Some z, Some w => Some (((x * 16 + y) * 16 + z) * 16 + w)
  | _, _, _, _ => None
  end.

Definition is_high_surrogate (u : Z) : bool := (55296 <=? u) && (u <=? 56319).
Definition is_low_surrogate (u : Z) : bool := (56320 <=? u) && (u <=? 57343).

Definition join_surrogates (hi lo : Z) : Z :=
  65536 + Z.lor (Z.shiftl (hi - 55296) 10) (lo - 56320).

(** The one-character escapes. *)
Definition backslash (esc : char) : option char :=
  if char_eqb esc quote then Some quote
  else if char_eqb esc (ch "\") then Some (ch "\")
  else if char_eqb esc (ch "/") then Some (ch "/")
  else if char_eqb esc (ch "b") then Some 8%N
  else if char_eqb esc (ch "f") then Some 12%N
  else if char_eqb esc (ch "n") then Some 10%N
  else if char_eqb esc (ch "r") then Some 13%N
  else if char_eqb esc (ch "t") then Some 9%N
  else None.

(** [scanstring]: [s] starts just after the opening quote. *)
Fixpoint scanstring (s : pystr) : scan pystr :=
  match s with
  | [] => NoParse
  | c :: s1 =>
      if char_eqb c quote then Scanned [] s1
      else if char_eqb c (ch "\") then
        match s1 with
        | [] => NoParse
        | esc :: s2 =>
            if char_eqb esc (ch "u") then
              match s2 with
              | a :: b :: c' :: d :: s3 =>
                  match hex4 a b c' d with
                  | None => NoParse
                  | Some uni =>
                      let single := scan_map (cons (Z.to_N uni)) (scanstring s3) in
                      if is_high_surrogate uni then
                        match s3 with
                        | bs :: u :: a2 :: b2 :: c2 :: d2 :: s4 =>
                            if char_eqb bs (ch "\") && char_eqb u (ch "u") then
                              match hex4 a2 b2 c2 d2 with
                              | None => NoParse
                              | Some uni2 =>
                                  if is_low_surrogate uni2 then
                                    scan_map
                                      (cons (Z.to_N (join_surrogates uni uni2)))
                                      (scanstring s4)
                                  else single
                              end
                            else single
                        | _ => single
                        end
                      else single
                  end
              | _ => NoParse
              end
            else
              match backslash esc with
              | None => NoParse
              | Some x => scan_map (cons x) (scanstring s2)
              end
        end
      else if (c <? 32)%N then NoParse
      else scan_map (cons c) (scanstring s1)
  end.

(** Numbers: an optional minus sign; [0], or a digit from 1 to 9 and any
    digits; optionally a dot and at least one digit; optionally [e] or [E],
    an optional sign and at least one digit.  A fraction or an exponent
    that does not match is left in the rest. *)
Fixpoint span_digits (s : pystr) : pystr * pystr :=
  match s with
  | c :: s' =>
      if is_digit c then let '(ds, r) := span_digits s' in (c :: ds, r)
      else ([], s)
  | [] => ([], [])
  end.

Definition digits_value (ds : pystr) : Z :=
  fold_left (fun acc d => 10 * acc + (Z.of_N d - 48)) ds 0.

Definition match_integer (s : pystr) : option (bool * pystr * pystr) :=
  let '(neg, s1) :=
    match s with
    | c :: s' => if char_eqb c (ch "-") then (true, s') else (false, s)
    | [] => (false, s)
    end in
  match s1 with
  | c :: s2 =>
      if char_eqb c (ch "0") then Some (neg, [c], s2)
      else if is_digit c then
        let '(ds, r) := span_digits s2 in Some (neg, c :: ds, r)
      else None
  | [] => None
  end.

Definition match_frac (s : pystr) : option (pystr * pystr) :=
  match s with
  | c :: s' =>
      if char_eqb c (ch ".") then
        match span_digits s' with
        | ([], _) => None
        | (ds, r) => Some (ds, r)
        end
      else None
  | [] => None
  end.

Definition match_exp (s : pystr) : option (Z * pystr) :=
  match s with
  | c :: s' =>
      if char_eqb c (ch "e") || char_eqb c (ch "E") then
        let '(neg, s1) :=
          match s' with
          | d :: s'' =>
              if char_eqb d (ch "-") then (true, s'')
              else if char_eqb d (ch "+") then (false, s'')
              else (false, s')
          | [] => (false, s')
          end in
        match span_digits s1 with
        | ([], _) => None
        | (ds, r) =>
            Some ((if neg then - digits_value ds else digits_value ds), r)
        end
      else None
  | [] => None
  end.

(** A matched number: an [int] when it has neither fraction nor exponent,
    else a [float]. *)
Definition scan_number (s : pystr) : scan json :=
  match match_integer s with
  | None => NoParse
  | Some (neg, ds, r) =>
      let '(frac, r1) :=
        match match_frac r with
        | Some (fds, r1) => (Some fds, r1)
        | None => (None, r)
        end in
      let '(exp, r2) :=
        match match_exp r1 with
        | Some (e, r2) => (Some e, r2)
        | None => (None, r1)
        end in
      match frac, exp with
      | None, None =>
          Scanned (JInt (if neg then - digits_value ds else digits_value ds)) r2
      | _, _ =>
          let fds := match frac with Some fds => fds | None => [] end in
          let e := match exp with Some e => e | None => 0 end in
          Scanned
            (JFloat (float_of_decimal neg (digits_value (ds ++ fds))
                       (e - Z.of_nat (length fds)))) r2
      end
  end.

(** The literals that are tried after a number did not match. *)
Definition scan_constant (s : pystr) : scan json :=
  if startswith s (py "NaN") then Scanned (JFloat S754_nan) (drop 3 s)
  else if startswith s (py "Infinity")
  then Scanned (JFloat (S754_infinity false)) (drop 8 s)
  else if startswith s (py "-Infinity")
  then Scanned (JFloat (S754_infinity true)) (drop 9 s)
  else NoParse.

Definition scan_atom (s : pystr) : scan json :=
  if startswith s (py "null") then Scanned JNull (drop 4 s)
  else if startswith s (py "true") then Scanned (JBool true) (drop 4 s)
  else if startswith s (py "false") then Scanned (JBool false) (drop 5 s)
  else
    match scan_number s with
    | Scanned v r => Scanned v r
    | _ => scan_constant s
    end.

(** [scan_once], [JSONArray] and [JSONObject].  [array_items] starts at the
    first character of an element, [object_items] just after the opening
    quote of a key. *)
Fixpoint scan_once (fuel : nat) (s : pystr) {struct fuel} : scan json :=
  match fuel with
  | O => NoFuel
  | S fuel' =>
      match s with
      | [] => NoParse
      | c :: s1 =>
          if char_eqb c quote then scan_map JStr (scanstring s1)
          else if char_eqb c (ch "{") then
            match skip_ws s1 with
            | c1 :: s2 =>
                if char_eqb c1 (ch "}") then Scanned (JObj []) s2
                else if char_eqb c1 quote then
                  scan_map (fun ps => JObj (dict_of_pairs ps))
                    (object_items fuel' s2)
                else NoParse
            | [] => NoParse
            end
          else if char_eqb c (ch "[") then
            match skip_ws s1 with
            | c1 :: s2 =>
                if char_eqb c1 (ch "]") then Scanned (JArr []) s2
                else scan_map JArr (array_items fuel' (c1 :: s2))
            | [] => NoParse
            end
          else scan_atom s
      end
  end
with array_items (fuel : nat) (s : pystr) {struct fuel} : scan (list json) :=
  match fuel with
  | O => NoFuel
  | S fuel' =>
      match scan_once fuel' s with
      | Scanned v r =>
          match skip_ws r with
          | c :: r1 =>
              if char_eqb c (ch "]") then Scanned [v] r1
              else if char_eqb c (ch ",")
              then scan_map (cons v) (array_items fuel' (skip_ws r1))
              else NoParse
          | [] => NoParse
          end
      | NoParse => NoParse
      | NoFuel => NoFuel
      end
  end
with object_items (fuel : nat) (s : pystr) {struct fuel}
  : scan (list (pystr * json)) :=
  match fuel with
  | O => NoFuel
  | S fuel' =>
      match scanstring s with
      | Scanned key r =>
          match skip_ws r with
          | c :: r1 =>
              if char_eqb c (ch ":") then
                match scan_once fuel' (skip_ws r1) with
                | Scanned v r2 =>
                    match skip_ws r2 with
                    | c2 :: r3 =>
                        if char_eqb c2 (ch "}") then Scanned [(key, v)] r3
                        else if char_eqb c2 (ch ",") then
                          match skip_ws r3 with
                          | q :: r4 =>
                              if char_eqb q quote
                              then scan_map (cons (key, v))
                                     (object_items fuel' r4)
                              else NoParse
                          | [] => NoParse
                          end
                        else NoParse
                    | [] => NoParse
                    end
                | NoParse => NoParse
                | NoFuel => NoFuel
                end
              else NoParse
          | [] => NoParse
          end
      | NoParse => NoParse
      | NoFuel => NoFuel
      end
  end.

(** Fuel that every text has enough of (see [loads_total]). *)
Definition loads_fuel (s : pystr) : nat := S (2 * length s).

Definition bom : char := 65279%N.

(** [json.loads(s)] for a [str]. *)
Definition loads (s : pystr) : result json :=
  if startswith s [bom] then Raise JSONDecodeError
  else
    match scan_once (loads_fuel s) (skip_ws s) with
    | Scanned v r =>
        match skip_ws r with
        | [] => Ok v
        | _ :: _ => Raise JSONDecodeError
        end
    | NoParse => Raise JSONDecodeError
    | NoFuel => Raise RuntimeError
    end.

(** ** The operations of lines 68-72 on Python objects *)

(** [obj.get(key, default)]: only a [dict] has the method. *)
Definition dict_get (obj : json) (key : pystr) (default : json) : result json :=
  match obj with
  | JObj d =>
      match dict_lookup d key with
      | Some v => Ok v
      | None => Ok default
      end
  | _ => Raise AttributeError
  end.

(** [obj[0]]. *)
Definition getitem0 (obj : json) : result json :=
  match obj with
  | JArr (x :: _) => Ok x
  | JArr [] => Raise IndexError
  | JStr (c :: _) => Ok (JStr [c])
  | JStr [] => Raise IndexError
  | JObj _ => Raise KeyError
  | _ => Raise TypeError
  end.

(** [obj[key]] for a string [key]. *)
Definition getitem (obj : json) (key : pystr) : result json :=
  match obj with
  | JObj d =>
      match dict_lookup d key with
      | Some v => Ok v
      | None => Raise KeyError
      end
  | _ => Raise TypeError
  end.

(** [isinstance(obj, float)]. *)
Definition isinstance_float (obj : json) : bool :=
  match obj with
  | JFloat _ => true
  | _ => false
  end.

(** What [for char in obj] yields. *)
Definition iterate (obj : json) : result (list json) :=
  match obj with
  | JStr s => Ok (map (fun c => JStr [c]) s)
  | JArr l => Ok l
  | JObj d => Ok (map (fun kv => JStr (fst kv)) d)
  | _ => Raise TypeError
  end.

(** [ord(obj)]: a string of length one. *)
Definition py_ord (obj : json) : result Z :=
  match obj with
  | JStr [c] => Ok (ord c)
  | _ => Raise TypeError
  end.

(** [[ord(char) for char in docid]]. *)
Definition docid_ascii (docid : json) : result (list Z) :=
  chars <- iterate docid ;; mapM py_ord chars.

(** ** Tensors and log messages *)

Inductive level := DEBUG | INFO | WARNING | ERROR.

Record tensor (A : Type) := Tensor { shape : list nat; data : list A }.
Arguments Tensor {A} shape data.
Arguments shape {A} t.
Arguments data {A} t.

Inductive tensor_data :=
| F64 (t : tensor spec_float)
| I64 (t : tensor Z).

Inductive message :=
| InputNotFound (path : pystr)
| OutputExists (vpath dpath : pystr)
| BadExtension
| SkippedVector (docid : json)
| SkippedJSON (e : exn)
| ReadFailed (path : pystr) (e : exn)
| SaveFailed (path : pystr) (e : exn)
| SavedVectors (path : pystr)
| SavedDocids (path : pystr)
| LoadedVectors (path : pystr)
| LoadedDocids (path : pystr)
| LoadedVectorsAre (t : tensor_data)
| LoadedDocidsAre (t : tensor_data)
| LoadFailed (e : exn).

Definition log_entry : Type := level * message.

(** ** The loop over the lines (lines 65-81) *)

(** The lists [vectors] and [docids], the warnings logged so far and the
    count of the progress bar. *)
Record batch := Batch {
  vectors : list json;
  docids : list (list Z);
  warnings : list log_entry;
  pbar : nat
}.

Definition empty_batch : batch := Batch [] [] [] O.

Definition append_vector (b : batch) (v : json) : batch :=
  Batch (vectors b ++ [v]) (docids b) (warnings b) (pbar b).

Definition append_docid (b : batch) (d : list Z) : batch :=
  Batch (vectors b) (docids b ++ [d]) (warnings b) (pbar b).

Definition warn (b : batch) (m : message) : batch :=
  Batch (vectors b) (docids b) (warnings b ++ [(WARNING, m)]) (pbar b).

Definition pbar_update (b : batch) : batch :=
  Batch (vectors b) (docids b) (warnings b) (S (pbar b)).

(** Lines 67-77: the body of the inner [try].  What was appended before an
    exception stays appended. *)
Definition line_body (line : pystr) (b : batch) : batch * result unit :=
  match
    entry <- loads line ;;
    v <- dict_get entry (py "vector") (JArr [JNull]) ;;
    x <- getitem0 v ;;
    Ok (entry, x)
  with
  | Raise e => (b, Raise e)
  | Ok (entry, x) =>
      if isinstance_float x then
        match getitem entry (py "vector") with
        | Raise e => (b, Raise e)
        | Ok vec =>
            let b1 := append_vector b vec in
            match docid <- getitem entry (py "docid") ;; docid_ascii docid with
            | Raise e => (b1, Raise e)
            | Ok codes => (append_docid b1 codes, Ok tt)
            end
        end
      else
        match dict_get entry (py "docid") (JStr (py "N/A")) with
        | Raise e => (b, Raise e)
        | Ok d => (warn b (SkippedVector d), Ok tt)
        end
  end.

(** [except (json.JSONDecodeError, KeyError)]. *)
Definition skipped (e : exn) : bool :=
  match e with
  | JSONDecodeError | KeyError => true
  | _ => false
  end.

(** Lines 66-81: one iteration, with its [except] and [finally]. *)
Definition process_line (line : pystr) (b : batch) : batch * result unit :=
  let '(b1, r) := line_body line b in
  let '(b2, r2) :=
    match r with
    | Ok _ => (b1, Ok tt)
    | Raise e =>
        if skipped e then (warn b1 (SkippedJSON e), Ok tt) else (b1, Raise e)
    end in
  (pbar_update b2, r2).

(** [for line in file]: the first exception that is not caught ends the
    loop. *)
Fixpoint process_lines (lines : list pystr) (b : batch) : batch * result unit :=
  match lines with
  | [] => (b, Ok tt)
  | line :: rest =>
      match process_line line b with
      | (b1, Ok _) => process_lines rest b1
      | (b1, Raise e) => (b1, Raise e)
      end
  end.

(** ** Building the tensors (lines 88-91) *)

(** [PySequence_Check] and the items: lists and strings are sequences,
    a [dict] is not. *)
Definition sequence_items (obj : json) : option (list json) :=
  match obj with
  | JArr l => Some l
  | JStr s => Some (map (fun c => JStr [c]) s)
  | _ => None
  end.

Definition MAX_DIMS : nat := 128.

(** [compute_sizes]: the shape is read off the first elements. *)
Fixpoint compute_sizes (fuel : nat) (seq : json) : result (list nat) :=
  match sequence_items seq with
  | None => Ok []
  | Some items =>
      match fuel with
      | O => Raise ValueError
      | S fuel' =>
          match items with
          | [] => Ok [O]
          | x :: _ =>
              sizes <- compute_sizes fuel' x ;; Ok (length items :: sizes)
          end
      end
  end.

(** The conversion of one element to [float64]. *)
Definition store_scalar (obj : json) : result spec_float :=
  match obj with
  | JFloat f => Ok f
  | JInt z => float_of_int z
  | JBool b => float_of_int (if b then 1 else 0)
  | _ => Raise TypeError
  end.

(** [recursive_store]: every sequence must have the length the shape
    says. *)
Fixpoint recursive_store (sizes : list nat) (obj : json) : result (list spec_float) :=
  match sizes with
  | [] => f <- store_scalar obj ;; Ok [f]
  | n :: sizes' =>
      match iterate obj with
      | Raise e => Raise e
      | Ok items =>
          if Nat.eqb (length items) n
          then rows <- mapM (recursive_store sizes') items ;; Ok (concat rows)
          else Raise ValueError
      end
  end.

(** [torch.tensor(values, dtype=torch.float64)] for a Python list. *)
Definition torch_tensor_float64 (values : list json) : result (tensor spec_float) :=
  sizes <- compute_sizes MAX_DIMS (JArr values) ;;
  d <- recursive_store sizes (JArr values) ;;
  Ok (Tensor sizes d).

Definition int64_ok (z : Z) : bool :=
  (- 9223372036854775808 <=? z) && (z <=? 9223372036854775807).

(** [torch.tensor(d, dtype=torch.int64)] for a list of [int]. *)
Definition torch_tensor_int64 (d : list Z) : result (tensor Z) :=
  if forallb int64_ok d then Ok (Tensor [length d] d) else Raise RuntimeError.

(** The longest first dimension. *)
Definition max_len (sequences : list (tensor Z)) : nat :=
  fold_right Nat.max O (map (fun t => length (data t)) sequences).

Definition pad_row (width : nat) (t : tensor Z) : list Z :=
  data t ++ repeat 0 (width - length (data t)).

(** [pad_sequence(sequences, batch_first=True)] for one-dimensional
    tensors: an empty list of sequences is refused. *)
Definition pad_sequence (sequences : list (tensor Z)) : result (tensor Z) :=
  match sequences with
  | [] => Raise RuntimeError
  | _ :: _ =>
      Ok (Tensor [length sequences; max_len sequences]
            (flat_map (pad_row (max_len sequences)) sequences))
  end.

(** Row [i] of a two-dimensional tensor. *)
Definition row {A} (t : tensor A) (i : nat) : list A :=
  match shape t with
  | [_; width] => take width (drop (i * width) (data t))
  | _ => []
  end.

Definition nrows {A} (t : tensor A) : nat := hd O (shape t).

(** Lines 88-91. *)
Definition build_tensors (b : batch) : result (tensor spec_float * tensor Z) :=
  vectors_tensor <- torch_tensor_float64 (vectors b) ;;
  ts <- mapM torch_tensor_int64 (docids b) ;;
  docids_tensor <- pad_sequence ts ;;
  Ok (vectors_tensor, docids_tensor).

(** ** The file system, the log and the I/O trace *)

(** What a path holds.  A text file is given by the lines that iterating
    over it yields; a gzip file by the lines of its decompressed text.  A
    tensor file read as text is taken to be undecodable. *)
Inductive file :=
| TextFile (lines : list pystr)
| GzFile (lines : list pystr)
| SafeTensors (key : pystr) (t : tensor_data)
| Directory.

Inductive io_event :=
| IoOpen (o : opener) (path : pystr)
| IoReadLine (path : pystr) (line : pystr)
| IoSave (path : pystr)
| IoLoad (path : pystr).

Record world := World {
  files : gmap pystr file;
  writable : pystr -> bool;
  log : list log_entry;
  io : list io_event
}.

Definition logging (l : level) (m : message) (w : world) : world :=
  World (files w) (writable w) (log w ++ [(l, m)]) (io w).

Definition logging_all (entries : list log_entry) (w : world) : world :=
  World (files w) (writable w) (log w ++ entries) (io w).

Definition trace (evs : list io_event) (w : world) : world :=
  World (files w) (writable w) (log w) (io w ++ evs).

(** [os.path.exists(path)]. *)
Definition os_path_exists (w : world) (path : pystr) : bool :=
  match files w !! path with
  | Some _ => true
  | None => false
  end.

(** The lines that reading [f] through [o] in text mode yields, or the
    exception of the first read.  An empty file read through gzip yields no
    line; any other text is not a gzip stream. *)
Definition read_lines (o : opener) (f : file) : result (list pystr) :=
  match f with
  | Directory => Raise IsADirectoryError
  | TextFile ls =>
      match o with
      | builtin_open => Ok ls
      | gzip_open =>
          match ls with
          | [] => Ok []
          | _ :: _ => Raise BadGzipFile
          end
      end
  | GzFile ls =>
      match o with
      | gzip_open => Ok ls
      | builtin_open => Raise UnicodeDecodeError
      end
  | SafeTensors _ _ =>
      match o with
      | gzip_open => Raise BadGzipFile
      | builtin_open => Raise UnicodeDecodeError
      end
  end.

Definition open_and_read (w : world) (o : opener) (path : pystr)
  : result (list pystr) :=
  match files w !! path with
  | None => Raise FileNotFoundError
  | Some f => read_lines o f
  end.

(** [except IOError]: [IOError] is [OSError], with its subclasses. *)
Definition is_IOError (e : exn) : bool :=
  match e with
  | IOError | FileNotFoundError | FileExistsError | IsADirectoryError
  | BadGzipFile => true
  | _ => false
  end.

(** Lines 51-54: the first pass, which only counts the lines. *)
Definition count_lines (w : world) (o : opener) (path : pystr)
  : world * option nat :=
  match open_and_read w o path with
  | Ok ls => (trace (IoOpen o path :: map (IoReadLine path) ls) w,
              Some (length ls))
  | Raise _ => (trace [IoOpen o path] w, None)
  end.

(** [save_file({key: t}, path)]: a write that fails raises the library's
    own [SafetensorError], which is not an [IOError]. *)
Definition save_file (key : pystr) (t : tensor_data) (path : pystr) (w : world)
  : world * result unit :=
  let w1 := trace [IoSave path] w in
  match files w !! path with
  | Some Directory => (w1, Raise SafetensorError)
  | _ =>
      if writable w path
      then (World (<[path := SafeTensors key t]> (files w1)) (writable w1)
              (log w1) (io w1), Ok tt)
      else (w1, Raise SafetensorError)
  end.

(** [load_file(path)[key]]. *)
Definition load_file (path key : pystr) (w : world) : world * result tensor_data :=
  let w1 := trace [IoLoad path] w in
  match files w !! path with
  | None => (w1, Raise FileNotFoundError)
  | Some (SafeTensors k t) =>
      if str_eqb k key then (w1, Ok t) else (w1, Raise KeyError)
  | Some _ => (w1, Raise SafetensorError)
  end.

(** ** process_file *)

(** Lines 94-102. *)
Definition save_tensors (vectors_tensor : tensor spec_float)
    (docids_tensor : tensor Z) (vpath dpath ipath : pystr) (w : world)
  : world * result unit :=
  let failed (w' : world) (e : exn) :=
    if is_IOError e
    then (logging ERROR (SaveFailed ipath e) w', Raise IOError)
    else (w', Raise e) in
  match save_file (py "vectors") (F64 vectors_tensor) vpath w with
  | (w1, Raise e) => failed w1 e
  | (w1, Ok _) =>
      match save_file (py "docids") (I64 docids_tensor) dpath w1 with
      | (w2, Raise e) => failed w2 e
      | (w2, Ok _) =>
          (logging INFO (SavedDocids dpath)
             (logging INFO (SavedVectors vpath) w2), Ok tt)
      end
  end.

(** Lines 105-117. *)
Definition verify_tensors (vpath dpath : pystr) (w : world)
  : world * result unit :=
  let failed (w' : world) (e : exn) :=
    if is_IOError e
    then (logging ERROR (LoadFailed e) w', Raise IOError)
    else (w', Raise e) in
  match load_file vpath (py "vectors") w with
  | (w1, Raise e) => failed w1 e
  | (w1, Ok loaded_vectors) =>
      match load_file dpath (py "docids") w1 with
      | (w2, Raise e) => failed w2 e
      | (w2, Ok loaded_docids) =>
          (logging_all
             [(INFO, LoadedVectors vpath); (INFO, LoadedDocids dpath);
              (DEBUG, LoadedVectorsAre loaded_vectors);
              (DEBUG, LoadedDocidsAre loaded_docids)] w2, Ok tt)
      end
  end.

(** Lines 57-85: the second pass.  The lines that were iterated over are
    traced, the warnings of the loop are logged.  The progress bar is the
    counter [pbar]; where a pool worker draws it is not modelled. *)
Definition read_batch (o : opener) (path : pystr) (w : world)
  : world * result batch :=
  let w0 := trace [IoOpen o path] w in
  match open_and_read w o path with
  | Raise e =>
      if is_IOError e
      then (logging ERROR (ReadFailed path e) w0, Raise IOError)
      else (w0, Raise e)
  | Ok ls =>
      let '(b, r) := process_lines ls empty_batch in
      let w1 :=
        logging_all (warnings b)
          (trace (map (IoReadLine path) (take (pbar b) ls)) w0) in
      match r with
      | Ok _ => (w1, Ok b)
      | Raise e =>
          if is_IOError e
          then (logging ERROR (ReadFailed path e) w1, Raise IOError)
          else (w1, Raise e)
      end
  end.

Definition process_file (input_file_path output_directory : pystr)
    (overwrite : bool) (w : world) : world * result unit :=
  if negb (os_path_exists w input_file_path) then
    (logging ERROR (InputNotFound input_file_path) w, Raise FileNotFoundError)
  else
    let vpath := vectors_path output_directory input_file_path in
    let dpath := docids_path output_directory input_file_path in
    if negb overwrite && (os_path_exists w vpath || os_path_exists w dpath) then
      (logging ERROR (OutputExists vpath dpath) w, Raise FileExistsError)
    else
      match file_opener input_file_path with
      | None => (logging ERROR BadExtension w, Raise ValueError)
      | Some o =>
          let '(w1, total_lines) := count_lines w o input_file_path in
          match read_batch o input_file_path w1 with
          | (w2, Raise e) => (w2, Raise e)
          | (w2, Ok b) =>
              match build_tensors b with
              | Raise e => (w2, Raise e)
              | Ok (vectors_tensor, docids_tensor) =>
                  match save_tensors vectors_tensor docids_tensor vpath dpath
                          input_file_path w2 with
                  | (w3, Raise e) => (w3, Raise e)
                  | (w3, Ok _) => verify_tensors vpath dpath w3
                  end
              end
          end
      end.

(** ** The notions the properties are stated with *)

(** A JSON text written with ['] for the double quote. *)
Definition dq (s : string) : pystr :=
  map (fun c => if char_eqb c (ch "'") then quote else c) (py s).

(** Decoding a code sequence back to characters, by the table of [chr]. *)
Definition decode (codes : list Z) : result pystr := mapM chr codes.

Definition is_ascii (s : pystr) : Prop := Forall (fun c => (c < 128)%N) s.

(** The base name as the specification words it: the file's name without
    its trailing [.gz], [.json] and [.jsonl] suffixes, the rest of the name
    unchanged. *)
Definition strip_suffix (s suffix : pystr) : option pystr :=
  if endswith s suffix then Some (take (length s - length suffix)%nat s)
  else None.

Definition strip_one (s : pystr) : option pystr :=
  match strip_suffix s (py ".gz") with
  | Some r => Some r
  | None =>
      match strip_suffix s (py ".jsonl") with
      | Some r => Some r
      | None => strip_suffix s (py ".json")
      end
  end.

Fixpoint strip_suffixes (fuel : nat) (s : pystr) : pystr :=
  match fuel with
  | O => s
  | S fuel' =>
      match strip_one s with
      | Some r => strip_suffixes fuel' r
      | None => s
      end
  end.

Definition spec_base_name (input_file_path : pystr) : pystr :=
  let name := basename input_file_path in
  strip_suffixes (length name) name.

(** The suffixes of an input file's name. *)
Definition input_suffixes : list pystr :=
  [py ".json"; py ".jsonl"; py ".gz"; py ".json.gz"; py ".jsonl.gz"].

(** A line that parses as a JSON object whose [vector] field is a
    non-empty array starting with a float. *)
Definition valid_record (line : pystr) : bool :=
  match loads line with
  | Ok (JObj d) =>
      match dict_lookup d (py "vector") with
      | Some (JArr (JFloat _ :: _)) => true
      | _ => false
      end
  | _ => false
  end.

Definition count_valid (lines : list pystr) : nat :=
  length (List.filter valid_record lines).

(** The docid codes of a valid record that has a [docid]. *)
Definition record_docid (line : pystr) : option (list Z) :=
  if valid_record line then
    match
      entry <- loads line ;;
      docid <- getitem entry (py "docid") ;;
      docid_ascii docid
    with
    | Ok codes => Some codes
    | Raise _ => None
    end
  else None.

Definition docid_rows (lines : list pystr) : list (list Z) :=
  omap record_docid lines.

Definition longest (rows : list (list Z)) : nat :=
  fold_right Nat.max O (map length rows).

(** The lines [process_file] iterates over. *)
Definition input_lines (w : world) (input_file_path : pystr) : list pystr :=
  match file_opener input_file_path with
  | Some o =>
      match open_and_read w o input_file_path with
      | Ok ls => ls
      | Raise _ => []
      end
  | None => []
  end.

Definition is_save (ev : io_event) : bool :=
  match ev with
  | IoSave _ => true
  | _ => false
  end.

(** What lines 94-117 do once the tensors are built, and the files they
    leave. *)
Definition save_and_verify (vt : tensor spec_float) (dt : tensor Z)
    (vpath dpath ipath : pystr) (w : world) : world * result unit :=
  match save_tensors vt dt vpath dpath ipath w with
  | (w3, Raise e) => (w3, Raise e)
  | (w3, Ok _) => verify_tensors vpath dpath w3
  end.

Definition saved_files (vt : tensor spec_float) (dt : tensor Z)
    (vpath dpath : pystr) (fs : gmap pystr file) : gmap pystr file :=
  <[dpath := SafeTensors (py "docids") (I64 dt)]>
    (<[vpath := SafeTensors (py "vectors") (F64 vt)]> fs).

(** ** Example inputs *)

Definition example_input : pystr := py "in/a.jsonl".
Definition example_output : pystr := py "out".

Definition example_lines : list pystr :=
  [dq "{'vector': [0.1, 0.2], 'docid': 'ab'}";
   dq "{'vector': [0.5, 1], 'docid': 'abc'}";
   dq "not json";
   dq "{'docid': 'u'}"].

(** A world whose only file is [path], everything writable. *)
Definition world_at (path : pystr) (f : file) : world :=
  World {[path := f]} (fun _ => true) [] [].

Definition world_of (lines : list pystr) : world :=
  world_at example_input (TextFile lines).

Definition world_with_output : world :=
  World (<[vectors_path example_output example_input :=
             SafeTensors (py "vectors") (F64 (Tensor [O] []))]>
           {[example_input := TextFile example_lines]})
    (fun _ => true) [] [].

Definition invalid_lines : list pystr :=
  [dq "not json"; dq "{'docid': 'u'}"; dq "{'vector': 'abc', 'docid': 'v'}"].

Definition empty_vector_lines : list pystr :=
  [dq "{'vector': [], 'docid': 'x'}";
   dq "{'vector': [0.1, 0.2], 'docid': 'ab'}"].

Definition missing_docid_lines : list pystr :=
  [dq "{'vector': [0.5]}"; dq "{'vector': [1.5], 'docid': 'b'}"].

(** ** Further notions: the records of a file and the dispatcher *)

(** The vector of a valid record. *)
Definition record_vector (line : pystr) : option json :=
  match loads line with
  | Ok (JObj d) =>
      match dict_lookup d (py "vector") with
      | Some (JArr (JFloat f :: items)) => Some (JArr (JFloat f :: items))
      | _ => None
      end
  | _ => None
  end.

(** The elements of one vector as [float64] numbers. *)
Definition vector_row (v : json) : result (list spec_float) :=
  items <- iterate v ;; mapM store_scalar items.

(** The length of a vector. *)
Definition vector_length (v : json) : option nat :=
  match v with
  | JArr items => Some (length items)
  | _ => None
  end.

(** The lines of a file that are valid records, in their order. *)
Definition valid_lines (lines : list pystr) : list pystr :=
  List.filter valid_record lines.

(** What [entry.get('docid', 'N/A')] gives for a parsed object. *)
Definition docid_or_na (d : list (pystr * json)) : json :=
  match dict_lookup d (py "docid") with
  | Some v => v
  | None => JStr (py "N/A")
  end.

(** A [vector] field that the test of line 68 reads without an exception
    and finds not to start with a float. *)
Definition vector_rejected (d : list (pystr * json)) : bool :=
  match dict_lookup d (py "vector") with
  | None => true
  | Some (JArr (JFloat _ :: _)) => false
  | Some (JArr (_ :: _)) => true
  | Some (JStr (_ :: _)) => true
  | _ => false
  end.

Definition is_object (v : json) : bool :=
  match v with
  | JObj _ => true
  | _ => false
  end.

Definition is_warning (entry : log_entry) : bool :=
  match entry with
  | (WARNING, _) => true
  | _ => false
  end.

(** Lines 169-172: the size of the pool, and the check [Pool] makes on
    it. *)
Definition num_processes (cpu_count : nat) (input_file_paths : list pystr) : nat :=
  Nat.min cpu_count (length input_file_paths).

Definition Pool (processes : nat) : result nat :=
  if (processes <? 1)%nat then Raise ValueError else Ok processes.

(** More example inputs. *)
Definition unwritable_docids_world : world :=
  World {[example_input := TextFile example_lines]}
    (fun path =>
       negb (str_eqb path (docids_path example_output example_input)))
    [] [].

Definition ragged_lines : list pystr :=
  [dq "{'vector': [0.1, 0.2], 'docid': 'a'}";
   dq "{'vector': [0.5], 'docid': 'b'}"].

Definition aligned_lines : list pystr :=
  [dq "{'vector': [0.5, 2], 'docid': 'ab'}";
   dq "skip me";
   dq "{'vector': [1.5, true], 'docid': 'c'}"].

(** The world after the two reading passes of lines 51-85, when the loop
    over the lines [ls] has left the batch [b]. *)
Definition after_reading (o : opener) (path : pystr) (ls : list pystr)
    (b : batch) (w : world) : world :=
  logging_all (warnings b)
    (trace (map (IoReadLine path) (take (pbar b) ls))
       (trace [IoOpen o path]
          (trace (IoOpen o path :: map (IoReadLine path) ls) w))).

(** What lines 97-113 log after the two files were saved and loaded. *)
Definition confirmations (vpath dpath : pystr) (vt : tensor spec_float)
    (dt : tensor Z) : list log_entry :=
  [(INFO, SavedVectors vpath); (INFO, SavedDocids dpath);
   (INFO, LoadedVectors vpath); (INFO, LoadedDocids dpath);
   (DEBUG, LoadedVectorsAre (F64 vt)); (DEBUG, LoadedDocidsAre (I64 dt))].

(** A path that [save_file] cannot write. *)
Definition unwritable (w : world) (path : pystr) : Prop :=
  files w !! path = Some Directory \/ writable w path = false.

(** The exceptions that are not swallowed by the loop or wrapped as
    [IOError] by the handler of lines 82-85. *)
Definition surfaced (e : exn) : bool :=
  match e with
  | JSONDecodeError | KeyError | BadGzipFile | IsADirectoryError => false
  | _ => true
  end.

Definition two_suffix_world : world :=
  World (<[py "in/a.json" := TextFile example_lines]>
           {[py "in/a.jsonl" := TextFile example_lines]})
    (fun _ => true) [] [].

(** An element that converts to [float64]. *)
Definition element_ok (x : json) : bool :=
  match store_scalar x with
  | Ok _ => true
  | Raise _ => false
  end.

(** A vector of [m] elements that starts with a float and whose elements
    all convert. *)
Definition clean_vector (m : nat) (v : json) : bool :=
  match v with
  | JArr (JFloat f :: items) =>
      Nat.eqb (S (length items)) m && forallb element_ok items
  | _ => false
  end.

(** A parsed record with a clean vector and a string of code points as
    docid. *)
Definition clean_entry (m : nat) (d : list (pystr * json)) : bool :=
  match dict_lookup d (py "vector"), dict_lookup d (py "docid") with
  | Some v, Some (JStr s) =>
      clean_vector m v && forallb (fun c => (c <? 1114112)%N) s
  | _, _ => false
  end.

Definition mixed_lines : list pystr :=
  [dq "{'vector': [0.5, 2], 'docid': 'ab'}";
   dq "oops";
   dq "{'vector': [7, 8], 'docid': 'n'}";
   dq "{'vector': [1.5, true], 'docid': 'c'}"].

(** A parsed value that is neither a string nor a container. *)
Definition is_scalar (v : json) : bool :=
  match v with
  | JNull | JBool _ | JInt _ | JFloat _ => true
  | _ => false
  end.

(** The directory part that [os.path.join] puts before a relative name. *)
Definition directory_prefix (output_directory : pystr) : pystr :=
  if str_eqb output_directory [] || endswith output_directory [sep]
  then output_directory
  else output_directory ++ [sep].

(** The opens of a trace, and the lines it read. *)
Definition opens (evs : list io_event) : list (opener * pystr) :=
  flat_map (fun ev => match ev with IoOpen o q => [(o, q)] | _ => [] end) evs.

Definition lines_read (evs : list io_event) : list pystr :=
  flat_map (fun ev => match ev with IoReadLine _ l => [l] | _ => [] end) evs.

(** An operation of a run on one of its own paths: an open or a read of
    the input, a save or a load of an output. *)
Definition on_own_paths (input vpath dpath : pystr) (ev : io_event) : Prop :=
  match ev with
  | IoOpen _ q | IoReadLine q _ => q = input
  | IoSave q | IoLoad q => q = vpath \/ q = dpath
  end.

(** The saves and loads that follow the two reading passes. *)
Definition output_events (vpath dpath : pystr) : list (list io_event) :=
  [[]; [IoSave vpath]; [IoSave vpath; IoSave dpath];
   [IoSave vpath; IoSave dpath; IoLoad vpath; IoLoad dpath]].

Definition gz_world : world :=
  world_at (py "in/a.json.gz") (GzFile example_lines).

Definition text_as_gz_world : world :=
  world_at (py "in/a.json.gz") (TextFile example_lines).

(** * Properties *)

(** ** Strings and paths *)

Lemma char_eqb_eq (a b : char) : char_eqb a b = true <-> a = b.
Proof. unfold char_eqb. apply N.eqb_eq. Qed.

Lemma startswith_nil (s : pystr) : startswith s [] = true.
Proof. destruct s; reflexivity. Qed.

Lemma startswith_cons_inv (s p : pystr) (c : char) :
  startswith s (c :: p) = true -> exists s', s = c :: s' /\ startswith s' p = true.
Proof.
  destruct s as [|y s']; simpl; [discriminate|].
  intros H. apply andb_true_iff in H as [H1 H2].
  apply char_eqb_eq in H1. subst y. eauto.
Qed.

Lemma endswith_last (s p : pystr) (c : char) :
  endswith s (p ++ [c]) = true -> exists s', s = s' ++ [c].
Proof.
  unfold endswith. rewrite rev_app_distr. simpl. intros H.
  apply startswith_cons_inv in H as (r & Hr & _).
  exists (rev r). rewrite <- (rev_involutive s), Hr. reflexivity.
Qed.

(** An occurrence of a pattern without dots cannot run into a rest that
    starts with a dot. *)
Lemma startswith_app_nodot (tail t rest : pystr) :
  forallb (fun x => negb (char_eqb x (ch "."))) tail = true ->
  (rest = [] \/ exists r, rest = ch "." :: r) ->
  startswith (t ++ rest) tail = true -> startswith t tail = true.
Proof.
  intros Hnd Hrest. revert t.
  induction tail as [|x tl IH]; intros t; [intros _; apply startswith_nil|].
  simpl in Hnd. apply andb_true_iff in Hnd as [Hx Htl].
  destruct t as [|y t']; simpl.
  - destruct Hrest as [-> | [r ->]]; simpl; [discriminate|].
    intros H. apply andb_true_iff in H as [H _].
    rewrite H in Hx. discriminate.
  - intros H. apply andb_true_iff in H as [H1 H2].
    rewrite H1. simpl. apply IH; assumption.
Qed.

Lemma replace_stem (tail stem rest : pystr) :
  forallb (fun x => negb (char_eqb x (ch "."))) tail = true ->
  (rest = [] \/ exists r, rest = ch "." :: r) ->
  contains stem (ch "." :: tail) = false ->
  replace (stem ++ rest) (ch "." :: tail) [] =
  stem ++ replace rest (ch "." :: tail) [].
Proof.
  intros Hnd Hrest. unfold replace.
  induction stem as [|c st IH]; intros Hc; [reflexivity|].
  cbn [contains] in Hc. apply orb_false_iff in Hc as [Hh Ht].
  cbn [app replace_go].
  destruct (startswith (c :: st ++ rest) (ch "." :: tail)) eqn:E.
  - exfalso.
    change (c :: st ++ rest) with ((c :: st) ++ rest) in E.
    cbn [startswith] in E, Hh.
    destruct ((c :: st) ++ rest) as [|y l] eqn:El; [discriminate|].
    cbn [app] in El. injection El as <- <-.
    apply andb_true_iff in E as [E1 E2].
    rewrite E1 in Hh. cbn [andb] in Hh.
    rewrite (startswith_app_nodot tail st rest Hnd Hrest E2) in Hh.
    discriminate.
  - f_equal. apply IH, Ht.
Qed.

Lemma path_join_length (a x y : pystr) (c : char) :
  length x <> length y ->
  path_join a (c :: x) <> path_join a (c :: y).
Proof.
  intros Hl Heq. apply (f_equal (@length _)) in Heq.
  unfold path_join in Heq. cbn [startswith] in Heq.
  rewrite !startswith_nil in Heq.
  destruct (char_eqb sep c && true);
    [|destruct (str_eqb a [] || endswith a [sep])];
    repeat (rewrite ?length_app in Heq; cbn [length] in Heq); lia.
Qed.

Lemma path_join_last (a b : pystr) (c : char) :
  exists p, path_join a (b ++ [c]) = p ++ [c].
Proof.
  unfold path_join.
  destruct (startswith (b ++ [c]) [sep]); [exists b; reflexivity|].
  destruct (str_eqb a [] || endswith a [sep]).
  - exists (a ++ b). rewrite <- app_assoc. reflexivity.
  - exists (a ++ sep :: b). rewrite <- app_assoc. reflexivity.
Qed.

Ltac strip_step :=
  rewrite replace_stem;
  [ | reflexivity | first [left; reflexivity | right; eexists; reflexivity]
    | assumption ];
  match goal with
  | |- context [?s ++ replace ?r (ch "." :: ?t) []] =>
      let v := eval vm_compute in (replace r (ch "." :: t) []) in
      change (replace r (ch "." :: t) []) with v
  end.

Lemma base_name_of_suffixed (p stem suffix : pystr) :
  basename p = stem ++ suffix ->
  contains stem (py ".jsonl") = false ->
  contains stem (py ".gz") = false ->
  contains stem (py ".json") = false ->
  In suffix input_suffixes ->
  base_name p = stem.
Proof.
  intros Hb H1 H2 H3 Hin. unfold base_name. rewrite Hb.
  change (py ".jsonl") with (ch "." :: py "jsonl") in *.
  change (py ".gz") with (ch "." :: py "gz") in *.
  change (py ".json") with (ch "." :: py "json") in *.
  unfold input_suffixes in Hin. cbn [In] in Hin.
  destruct Hin as [<-|[<-|[<-|[<-|[<-|[]]]]]];
    do 3 strip_step; apply app_nil_r.
Qed.

(** ** The docid transform *)

Lemma mapM_py_ord_chars (s : pystr) :
  mapM py_ord (map (fun c => JStr [c]) s) = Ok (map ord s).
Proof.
  induction s as [|c s IH]; [reflexivity|].
  cbn [map mapM py_ord rbind]. rewrite IH. reflexivity.
Qed.

Lemma chr_ord (c : char) : (c < 1114112)%N -> chr (ord c) = Ok c.
Proof.
  intros Hc. unfold chr, ord.
  replace (0 <=? Z.of_N c) with true by (symmetry; apply Z.leb_le; lia).
  replace (Z.of_N c <? 1114112) with true by (symmetry; apply Z.ltb_lt; lia).
  cbn [andb]. rewrite N2Z.id. reflexivity.
Qed.

(** C5. The docid transform maps every character of a docid string to its
    code point, one integer per character; for an ASCII docid, decoding the
    codes gives the string back. *)
Theorem docid_transform_invertible (s : pystr) :
  docid_ascii (JStr s) = Ok (map ord s) /\
  length (map ord s) = length s /\
  (is_ascii s -> decode (map ord s) = Ok s).
Proof.
  split; [|split].
  - unfold docid_ascii. cbn [iterate rbind]. apply mapM_py_ord_chars.
  - apply length_map.
  - unfold decode, is_ascii. induction 1 as [|c s' Hc Hs IH]; [reflexivity|].
    cbn [map mapM]. rewrite chr_ord by lia. cbn [rbind].
    rewrite IH. reflexivity.
Qed.

Lemma docid_transform_invertible_witness :
  is_ascii (py "ab") /\
  docid_ascii (JStr (py "ab")) = Ok [97; 98] /\
  decode [97; 98] = Ok (py "ab").
Proof.
  assert (Ha : is_ascii (py "ab")).
  { unfold is_ascii. vm_compute. repeat constructor. }
  destruct (docid_transform_invertible (py "ab")) as (H1 & _ & H3).
  split; [exact Ha|]. split; [exact H1 | exact (H3 Ha)].
Defined.

(** ** The choice of the reader *)

Lemma endswith_gz_not_json (p : pystr) :
  endswith p (py ".gz") = true ->
  endswith p (py ".jsonl") = false /\ endswith p (py ".json") = false.
Proof.
  unfold endswith. destruct (rev p) as [|c r]; [discriminate|].
  change (rev (py ".gz")) with (ch "z" :: py "g.").
  change (rev (py ".jsonl")) with (ch "l" :: py "nosj.").
  change (rev (py ".json")) with (ch "n" :: py "osj.").
  cbn [startswith]. intros H. apply andb_true_iff in H as [H _].
  apply char_eqb_eq in H. subst c. split; reflexivity.
Qed.

Lemma process_file_no_opener (p out : pystr) (overwrite : bool) (w : world) :
  file_opener p = None ->
  exists m e,
    process_file p out overwrite w =
      (World (files w) (writable w) (log w ++ [(ERROR, m)]) (io w), Raise e) /\
    (e = FileNotFoundError \/ e = FileExistsError \/ e = ValueError) /\
    (os_path_exists w p = true -> overwrite = true -> e = ValueError).
Proof.
  intros Ho. unfold process_file. rewrite Ho.
  destruct (os_path_exists w p); cbn [negb].
  2:{ exists (InputNotFound p), FileNotFoundError.
      split; [reflexivity|]. split; [tauto | discriminate]. }
  destruct overwrite; cbn [negb andb].
  { exists BadExtension, ValueError. split; [reflexivity|]. split; tauto. }
  destruct (_ || _).
  { eexists (OutputExists _ _), FileExistsError.
    split; [reflexivity|]. split; [tauto | discriminate]. }
  exists BadExtension, ValueError. split; [reflexivity|]. split; tauto.
Qed.

(** ** json.loads always has enough fuel *)

Lemma skip_ws_length (s : pystr) : (length (skip_ws s) <= length s)%nat.
Proof.
  induction s as [|c s IH]; simpl; [lia|].
  destruct (is_ws c); simpl; lia.
Qed.

Lemma scan_map_scanned {A B} (f : A -> B) (r : scan A) (b : B) (rest : pystr) :
  scan_map f r = Scanned b rest -> exists a, r = Scanned a rest /\ b = f a.
Proof. destruct r; simpl; intros H; inversion H; eauto. Qed.

Lemma scan_map_fuel {A B} (f : A -> B) (r : scan A) :
  scan_map f r = NoFuel -> r = NoFuel.
Proof. destruct r; simpl; intros H; congruence. Qed.

Lemma scanstring_fuel (s : pystr) : scanstring s <> NoFuel.
Proof.
  induction s as [s IH] using (induction_ltof1 _ (@length char)).
  unfold ltof in IH.
  destruct s as [|c s1]; cbn [scanstring]; [discriminate|].
  repeat
    (match goal with
     | |- Scanned _ _ <> NoFuel => discriminate
     | |- NoParse <> NoFuel => discriminate
     | |- scan_map _ _ <> NoFuel =>
         let H := fresh in
         intros H; apply scan_map_fuel in H; revert H; apply IH; simpl; lia
     | |- (let _ := _ in _) <> NoFuel => cbv zeta
     | |- (if ?b then _ else _) <> NoFuel => destruct b
     | |- (match ?x with _ => _ end) <> NoFuel => destruct x
     end).
Qed.

Lemma scanstring_shorter (s r v : pystr) :
  scanstring s = Scanned v r -> (length r < length s)%nat.
Proof.
  revert v r.
  induction s as [s IH] using (induction_ltof1 _ (@length char)).
  unfold ltof in IH. intros v r.
  destruct s as [|c s1]; cbn [scanstring]; [discriminate|].
  repeat
    (match goal with
     | |- Scanned _ _ = Scanned _ _ -> _ =>
         let H := fresh in intros H; inversion H; subst; simpl; lia
     | |- NoParse = _ -> _ => discriminate
     | |- scan_map _ _ = Scanned _ _ -> _ =>
         let H := fresh in
         intros H; apply scan_map_scanned in H as (? & H & _);
         apply IH in H; simpl in *; lia
     | |- (let _ := _ in _) = _ -> _ => cbv zeta
     | |- (if ?b then _ else _) = _ -> _ => destruct b
     | |- (match ?x with _ => _ end) = _ -> _ => destruct x
     end).
Qed.

Lemma span_digits_length (s : pystr) :
  (length (span_digits s).2 <= length s)%nat.
Proof.
  induction s as [|c s IH]; simpl; [lia|].
  destruct (is_digit c); simpl; [|lia].
  destruct (span_digits s); simpl in *. lia.
Qed.

Lemma match_integer_shorter (s ds r : pystr) (neg : bool) :
  match_integer s = Some (neg, ds, r) -> (length r < length s)%nat.
Proof.
  unfold match_integer.
  destruct s as [|c s']; [discriminate|].
  destruct (char_eqb c (ch "-")).
  - destruct s' as [|c' s2]; [discriminate|].
    destruct (char_eqb c' (ch "0")); [intros H; inversion H; simpl; lia|].
    destruct (is_digit c'); [|discriminate].
    pose proof (span_digits_length s2) as Hl.
    destruct (span_digits s2). intros H; inversion H; subst; simpl in *; lia.
  - destruct (char_eqb c (ch "0")); [intros H; inversion H; simpl; lia|].
    destruct (is_digit c); [|discriminate].
    pose proof (span_digits_length s') as Hl.
    destruct (span_digits s'). intros H; inversion H; subst; simpl in *; lia.
Qed.

Lemma match_frac_shorter (s ds r : pystr) :
  match_frac s = Some (ds, r) -> (length r < length s)%nat.
Proof.
  unfold match_frac. destruct s as [|c s']; [discriminate|].
  destruct (char_eqb c (ch ".")); [|discriminate].
  pose proof (span_digits_length s') as Hl.
  destruct (span_digits s') as [[|d ds'] r']; [discriminate|].
  intros H; inversion H; subst; simpl in *; lia.
Qed.

Lemma match_exp_shorter (s r : pystr) (e : Z) :
  match_exp s = Some (e, r) -> (length r < length s)%nat.
Proof.
  unfold match_exp. destruct s as [|c s']; [discriminate|].
  destruct (char_eqb c (ch "e") || char_eqb c (ch "E")); [|discriminate].
  destruct s' as [|d s2].
  - simpl. discriminate.
  - destruct (char_eqb d (ch "-")); [|destruct (char_eqb d (ch "+"))].
    + pose proof (span_digits_length s2) as Hl.
      destruct (span_digits s2) as [[|x ds'] r']; [discriminate|].
      intros H; inversion H; subst; simpl in *; lia.
    + pose proof (span_digits_length s2) as Hl.
      destruct (span_digits s2) as [[|x ds'] r']; [discriminate|].
      intros H; inversion H; subst; simpl in *; lia.
    + pose proof (span_digits_length (d :: s2)) as Hl.
      destruct (span_digits (d :: s2)) as [[|x ds'] r']; [discriminate|].
      intros H; inversion H; subst; simpl in *; lia.
Qed.

Lemma scan_number_shorter (s r : pystr) (v : json) :
  scan_number s = Scanned v r -> (length r < length s)%nat.
Proof.
  unfold scan_number.
  destruct (match_integer s) as [[[neg ds] r0]|] eqn:Hi; [|discriminate].
  apply match_integer_shorter in Hi.
  destruct (match_frac r0) as [[fds r1]|] eqn:Hf.
  - apply match_frac_shorter in Hf.
    destruct (match_exp r1) as [[e r2]|] eqn:He.
    + apply match_exp_shorter in He. intros H; inversion H; subst; lia.
    + intros H; inversion H; subst; lia.
  - destruct (match_exp r0) as [[e r2]|] eqn:He.
    + apply match_exp_shorter in He. intros H; inversion H; subst; lia.
    + intros H; inversion H; subst; lia.
Qed.

Lemma scan_number_fuel (s : pystr) : scan_number s <> NoFuel.
Proof.
  unfold scan_number.
  destruct (match_integer s) as [[[neg ds] r0]|]; [|discriminate].
  destruct (match_frac r0) as [[fds r1]|];
    [destruct (match_exp r1) as [[e r2]|] | destruct (match_exp r0) as [[e r2]|]];
    discriminate.
Qed.

Lemma drop_shorter (n : nat) (s p : pystr) :
  (0 < n)%nat -> p <> [] -> startswith s p = true ->
  (length (drop n s) < length s)%nat.
Proof.
  intros Hn Hp Hs. destruct s as [|c s'].
  - destruct p; [congruence | discriminate].
  - rewrite length_drop. simpl. lia.
Qed.

Lemma scan_constant_shorter (s r : pystr) (v : json) :
  scan_constant s = Scanned v r -> (length r < length s)%nat.
Proof.
  unfold scan_constant.
  repeat
    (match goal with
     | |- (if startswith s ?p then _ else _) = _ -> _ =>
         let E := fresh in
         destruct (startswith s p) eqn:E;
         [ let H := fresh in
           intros H; inversion H; subst;
           apply (drop_shorter _ s p); [lia | vm_compute; discriminate | exact E]
         | ]
     end).
  discriminate.
Qed.

Lemma scan_atom_shorter (s r : pystr) (v : json) :
  scan_atom s = Scanned v r -> (length r < length s)%nat.
Proof.
  unfold scan_atom.
  repeat
    (match goal with
     | |- (if startswith s ?p then _ else _) = _ -> _ =>
         let E := fresh in
         destruct (startswith s p) eqn:E;
         [ let H := fresh in
           intros H; inversion H; subst;
           apply (drop_shorter _ s p); [lia | vm_compute; discriminate | exact E]
         | ]
     end).
  destruct (scan_number s) eqn:En.
  - intros Hv; inversion Hv; subst. eapply scan_number_shorter, En.
  - apply scan_constant_shorter.
  - apply scan_constant_shorter.
Qed.

Lemma scan_atom_fuel (s : pystr) : scan_atom s <> NoFuel.
Proof.
  unfold scan_atom, scan_constant.
  repeat
    (match goal with
     | |- (if ?b then _ else _) <> _ => destruct b; [discriminate|]
     end).
  destruct (scan_number s) eqn:En; [discriminate| |];
    repeat
      (match goal with
       | |- (if ?b then _ else _) <> _ => destruct b; [discriminate|]
       end); discriminate.
Qed.

Lemma scan_shorter (fuel : nat) :
  (forall s v r, scan_once fuel s = Scanned v r -> (length r < length s)%nat) /\
  (forall s v r, array_items fuel s = Scanned v r -> (length r < length s)%nat) /\
  (forall s v r, object_items fuel s = Scanned v r -> (length r < length s)%nat).
Proof.
  induction fuel as [|f (IHs & IHa & IHo)];
    [repeat split; intros; discriminate|].
  repeat split; intros s v r.
  - cbn [scan_once]. destruct s as [|c s1]; [discriminate|].
    destruct (char_eqb c quote).
    { intros H. apply scan_map_scanned in H as (x & H & _).
      apply scanstring_shorter in H. simpl. lia. }
    destruct (char_eqb c (ch "{")).
    { pose proof (skip_ws_length s1) as Hw.
      destruct (skip_ws s1) as [|c1 s2]; [discriminate|].
      destruct (char_eqb c1 (ch "}")).
      { intros H; inversion H; subst; simpl in *; lia. }
      destruct (char_eqb c1 quote); [|discriminate].
      intros H. apply scan_map_scanned in H as (x & H & _).
      apply IHo in H. simpl in *. lia. }
    destruct (char_eqb c (ch "[")).
    { pose proof (skip_ws_length s1) as Hw.
      destruct (skip_ws s1) as [|c1 s2]; [discriminate|].
      destruct (char_eqb c1 (ch "]")).
      { intros H; inversion H; subst; simpl in *; lia. }
      intros H. apply scan_map_scanned in H as (x & H & _).
      apply IHa in H. simpl in *. lia. }
    apply scan_atom_shorter.
  - cbn [array_items].
    destruct (scan_once f s) as [x r0| |] eqn:E; try discriminate.
    apply IHs in E. pose proof (skip_ws_length r0) as Hw.
    destruct (skip_ws r0) as [|c r1]; [discriminate|].
    destruct (char_eqb c (ch "]")).
    { intros H; inversion H; subst; simpl in *; lia. }
    destruct (char_eqb c (ch ",")); [|discriminate].
    intros H. apply scan_map_scanned in H as (y & H & _).
    apply IHa in H. pose proof (skip_ws_length r1). simpl in *. lia.
  - cbn [object_items].
    destruct (scanstring s) as [key r0| |] eqn:E; try discriminate.
    apply scanstring_shorter in E. pose proof (skip_ws_length r0) as Hw.
    destruct (skip_ws r0) as [|c r1]; [discriminate|].
    destruct (char_eqb c (ch ":")); [|discriminate].
    destruct (scan_once f (skip_ws r1)) as [x r2| |] eqn:E2; try discriminate.
    apply IHs in E2. pose proof (skip_ws_length r1) as Hw1.
    pose proof (skip_ws_length r2) as Hw2.
    destruct (skip_ws r2) as [|c2 r3]; [discriminate|].
    destruct (char_eqb c2 (ch "}")).
    { intros H; inversion H; subst; simpl in *; lia. }
    destruct (char_eqb c2 (ch ",")); [|discriminate].
    pose proof (skip_ws_length r3) as Hw3.
    destruct (skip_ws r3) as [|q r4]; [discriminate|].
    destruct (char_eqb q quote); [|discriminate].
    intros H. apply scan_map_scanned in H as (y & H & _).
    apply IHo in H. simpl in *. lia.
Qed.

Lemma scan_fuel (fuel : nat) :
  (forall s, (2 * length s < fuel)%nat -> scan_once fuel s <> NoFuel) /\
  (forall s, (2 * length s + 1 < fuel)%nat -> array_items fuel s <> NoFuel) /\
  (forall s, (2 * length s + 1 < fuel)%nat -> object_items fuel s <> NoFuel).
Proof.
  induction fuel as [|f (IHs & IHa & IHo)]; [repeat split; intros; lia|].
  repeat split; intros s Hf.
  - cbn [scan_once]. destruct s as [|c s1]; [discriminate|].
    cbn [length] in Hf.
    destruct (char_eqb c quote).
    { intros H. apply scan_map_fuel in H. revert H. apply scanstring_fuel. }
    destruct (char_eqb c (ch "{")).
    { pose proof (skip_ws_length s1) as Hw.
      destruct (skip_ws s1) as [|c1 s2]; [discriminate|].
      destruct (char_eqb c1 (ch "}")); [discriminate|].
      destruct (char_eqb c1 quote); [|discriminate].
      intros H. apply scan_map_fuel in H. revert H.
      apply IHo. simpl in *. lia. }
    destruct (char_eqb c (ch "[")).
    { pose proof (skip_ws_length s1) as Hw.
      destruct (skip_ws s1) as [|c1 s2]; [discriminate|].
      destruct (char_eqb c1 (ch "]")); [discriminate|].
      intros H. apply scan_map_fuel in H. revert H.
      apply IHa. simpl in *. lia. }
    apply scan_atom_fuel.
  - cbn [array_items].
    destruct (scan_once f s) as [x r0| |] eqn:E; [|discriminate|].
    + apply (proj1 (scan_shorter f)) in E.
      pose proof (skip_ws_length r0) as Hw.
      destruct (skip_ws r0) as [|c r1]; [discriminate|].
      destruct (char_eqb c (ch "]")); [discriminate|].
      destruct (char_eqb c (ch ",")); [|discriminate].
      intros H. apply scan_map_fuel in H. revert H.
      apply IHa. pose proof (skip_ws_length r1). simpl in *. lia.
    + exfalso. revert E. apply IHs. lia.
  - cbn [object_items].
    destruct (scanstring s) as [key r0| |] eqn:E; [|discriminate|].
    + apply scanstring_shorter in E. pose proof (skip_ws_length r0) as Hw.
      destruct (skip_ws r0) as [|c r1]; [discriminate|].
      destruct (char_eqb c (ch ":")); [|discriminate].
      pose proof (skip_ws_length r1) as Hw1.
      destruct (scan_once f (skip_ws r1)) as [x r2| |] eqn:E2; [|discriminate|].
      * apply (proj1 (scan_shorter f)) in E2.
        pose proof (skip_ws_length r2) as Hw2.
        destruct (skip_ws r2) as [|c2 r3]; [discriminate|].
        destruct (char_eqb c2 (ch "}")); [discriminate|].
        destruct (char_eqb c2 (ch ",")); [|discriminate].
        pose proof (skip_ws_length r3) as Hw3.
        destruct (skip_ws r3) as [|q r4]; [discriminate|].
        destruct (char_eqb q quote); [|discriminate].
        intros H. apply scan_map_fuel in H. revert H.
        apply IHo. simpl in *. lia.
      * exfalso. revert E2. apply IHs. simpl in *. lia.
    + exfalso. revert E. apply scanstring_fuel.
Qed.

(** [json.loads] returns an object or raises [JSONDecodeError]: the fuel of
    the model never runs out. *)
Lemma loads_total (s : pystr) :
  (exists v, loads s = Ok v) \/ loads s = Raise JSONDecodeError.
Proof.
  unfold loads. destruct (startswith s [bom]); [right; reflexivity|].
  destruct (scan_once (loads_fuel s) (skip_ws s)) as [v r| |] eqn:E.
  - destruct (skip_ws r); [left; eauto | right; reflexivity].
  - right; reflexivity.
  - exfalso. revert E. apply (proj1 (scan_fuel _)).
    unfold loads_fuel. pose proof (skip_ws_length s). lia.
Qed.

(** ** The loop over the lines *)

Lemma process_line_vectors (line : pystr) (b : batch) :
  length (vectors (process_line line b).1) =
  (length (vectors b) + (if valid_record line then 1 else 0))%nat.
Proof.
  unfold process_line, line_body, valid_record, dict_get, getitem0, getitem,
    isinstance_float.
  destruct (loads line) as [entry|e]; cbn [rbind].
  - repeat (case_match; simplify_eq/=); rewrite ?length_app; simpl; lia.
  - destruct (skipped e); simpl; lia.
Qed.

Lemma process_line_docids (line : pystr) (b : batch) :
  docids (process_line line b).1 =
  docids b ++ match record_docid line with Some c => [c] | None => [] end.
Proof.
  unfold record_docid, process_line, line_body, valid_record, dict_get,
    getitem0, getitem, isinstance_float.
  destruct (loads line) as [entry|e]; cbn [rbind].
  - repeat (case_match; simplify_eq/=); rewrite ?app_nil_r; congruence.
  - destruct (skipped e); simpl; rewrite app_nil_r; reflexivity.
Qed.

Lemma process_lines_ok (lines : list pystr) (b b' : batch) :
  process_lines lines b = (b', Ok tt) ->
  length (vectors b') = (length (vectors b) + count_valid lines)%nat /\
  docids b' = docids b ++ docid_rows lines.
Proof.
  revert b. induction lines as [|line rest IH]; intros b; cbn [process_lines].
  - intros H; inversion H; subst. unfold count_valid. simpl.
    rewrite app_nil_r. split; [lia | reflexivity].
  - pose proof (process_line_vectors line b) as Hv.
    pose proof (process_line_docids line b) as Hd.
    destruct (process_line line b) as [b1 [[]|e]]; [|discriminate].
    intros H. apply IH in H as [H1 H2]. cbn [fst] in Hv, Hd.
    unfold count_valid, docid_rows in *. cbn [List.filter omap list_omap].
    rewrite H1, H2, Hv, Hd, <- app_assoc.
    split.
    + destruct (valid_record line); simpl; lia.
    + destruct (record_docid line); reflexivity.
Qed.

(** A record whose [vector] is an empty array ends the loop: the
    [IndexError] of [[][0]] is not caught, nothing is logged. *)
Lemma empty_vector_raises (line : pystr) (d : list (pystr * json))
    (rest : list pystr) (b : batch) :
  loads line = Ok (JObj d) ->
  dict_lookup d (py "vector") = Some (JArr []) ->
  process_line line b = (pbar_update b, Raise IndexError) /\
  process_lines (line :: rest) b = (pbar_update b, Raise IndexError).
Proof.
  intros Hl Hv.
  assert (H : process_line line b = (pbar_update b, Raise IndexError)).
  { unfold process_line, line_body. rewrite Hl. cbn [rbind dict_get].
    rewrite Hv. reflexivity. }
  split; [exact H|]. cbn [process_lines]. rewrite H. reflexivity.
Qed.

(** A record with a valid [vector] and no [docid] is logged as skipped, but
    its vector stays in [vectors]. *)
Lemma missing_docid_keeps_vector (line : pystr) (d : list (pystr * json))
    (f : spec_float) (items : list json) (b : batch) :
  loads line = Ok (JObj d) ->
  dict_lookup d (py "vector") = Some (JArr (JFloat f :: items)) ->
  dict_lookup d (py "docid") = None ->
  process_line line b =
    (pbar_update
       (warn (append_vector b (JArr (JFloat f :: items))) (SkippedJSON KeyError)),
     Ok tt).
Proof.
  intros Hl Hv Hd. unfold process_line, line_body.
  rewrite Hl. cbn [rbind dict_get]. rewrite Hv.
  cbn [rbind getitem0 isinstance_float getitem]. rewrite Hv, Hd. reflexivity.
Qed.

(** When every valid record has a docid that converts, the two lists have
    the same length. *)
Lemma process_lines_aligned (lines : list pystr) (b : batch) :
  process_lines lines empty_batch = (b, Ok tt) ->
  (forall line, In line lines -> valid_record line = true ->
     record_docid line <> None) ->
  length (vectors b) = length (docids b).
Proof.
  intros Hloop Hall. apply process_lines_ok in Hloop as [Hv Hd].
  rewrite Hv, Hd. cbn [vectors docids empty_batch length app].
  clear Hv Hd. unfold count_valid, docid_rows.
  induction lines as [|l ls IH]; [reflexivity|].
  cbn [List.filter omap list_omap].
  assert (IH' : length (List.filter valid_record ls) = length (omap record_docid ls))
    by (apply IH; intros x Hx; apply Hall; right; exact Hx).
  pose proof (Hall l (or_introl eq_refl)) as Hl.
  destruct (valid_record l) eqn:Hvalid.
  - destruct (record_docid l); [cbn [length]; lia|].
    exfalso. apply Hl; reflexivity.
  - replace (record_docid l) with (@None (list Z))
      by (unfold record_docid; rewrite Hvalid; reflexivity).
    lia.
Qed.

(** ** The tensors *)

Lemma torch_tensor_float64_rows (values : list json) (t : tensor spec_float) :
  torch_tensor_float64 values = Ok t -> nrows t = length values.
Proof.
  unfold torch_tensor_float64, nrows.
  change (compute_sizes MAX_DIMS (JArr values)) with
    (match values with
     | [] => Ok [O]
     | x :: _ =>
         rbind (compute_sizes (Nat.pred MAX_DIMS) x) (fun sizes =>
         Ok (length values :: sizes))
     end).
  destruct values as [|x l]; cbn [rbind].
  - destruct (recursive_store [O] (JArr [])); cbn [rbind]; [|discriminate].
    intros H; inversion H; reflexivity.
  - destruct (compute_sizes (Nat.pred MAX_DIMS) x); cbn [rbind]; [|discriminate].
    destruct (recursive_store _ _); cbn [rbind]; [|discriminate].
    intros H; inversion H; reflexivity.
Qed.

Lemma mapM_torch_tensor_int64 (ds : list (list Z)) (ts : list (tensor Z)) :
  mapM torch_tensor_int64 ds = Ok ts -> map data ts = ds.
Proof.
  revert ts. induction ds as [|d ds IH]; intros ts; cbn [mapM].
  - intros H; inversion H; reflexivity.
  - unfold torch_tensor_int64 at 1.
    destruct (forallb int64_ok d); cbn [rbind]; [|discriminate].
    destruct (mapM torch_tensor_int64 ds) as [ts'|]; cbn [rbind]; [|discriminate].
    intros H; inversion H; subst. cbn [map data]. f_equal. apply IH. reflexivity.
Qed.

Lemma max_len_longest (ts : list (tensor Z)) :
  max_len ts = longest (map data ts).
Proof. unfold max_len, longest. rewrite map_map. reflexivity. Qed.

Lemma longest_ge (rows : list (list Z)) (r : list Z) :
  In r rows -> (length r <= longest rows)%nat.
Proof.
  unfold longest. induction rows as [|x rows IH]; [intros []|].
  cbn [map fold_right In]. intros [->|H]; [lia|]. apply IH in H. lia.
Qed.

Lemma pad_row_length (width : nat) (t : tensor Z) :
  (length (data t) <= width)%nat -> length (pad_row width t) = width.
Proof. intros H. unfold pad_row. rewrite length_app, repeat_length. lia. Qed.

(** Row [i] of a stack of rows that all have the width [width]. *)
Lemma row_of_stack {A} (width : nat) (f : A -> list Z) (l : list A) (i : nat) (x : A) :
  (forall y, In y l -> length (f y) = width) ->
  l !! i = Some x ->
  take width (drop (i * width) (flat_map f l)) = f x.
Proof.
  revert i. induction l as [|y l IH]; intros i Hw Hi; [discriminate|].
  cbn [flat_map]. destruct i as [|i].
  - cbn in Hi. injection Hi as ->. rewrite Nat.mul_0_l, drop_0.
    rewrite take_app_length'; [reflexivity | symmetry; apply Hw; left; reflexivity].
  - cbn in Hi. rewrite Nat.mul_succ_l, Nat.add_comm, <- drop_drop.
    replace (drop width (f y ++ flat_map f l)) with (flat_map f l)
      by (rewrite <- (Hw y (or_introl eq_refl)), drop_app_length; reflexivity).
    apply IH; [|exact Hi]. intros z Hz. apply Hw. right. exact Hz.
Qed.

Lemma pad_sequence_rows (ts : list (tensor Z)) (t : tensor Z) :
  pad_sequence ts = Ok t ->
  shape t = [length ts; longest (map data ts)] /\
  forall i x, ts !! i = Some x ->
    row t i = data x ++ repeat 0 (longest (map data ts) - length (data x)).
Proof.
  unfold pad_sequence. destruct ts as [|t0 ts']; [discriminate|].
  set (l := t0 :: ts'). intros H; inversion H; subst; clear H.
  rewrite max_len_longest. split; [reflexivity|].
  intros i x Hi. unfold row. cbn [shape data].
  apply (row_of_stack _ (pad_row (longest (map data l))) l i x); [|exact Hi].
  intros y Hy. apply pad_row_length, longest_ge, in_map, Hy.
Qed.

(** ** Paths that differ *)

Lemma vectors_docids_path_ne (out p : pystr) :
  vectors_path out p <> docids_path out p.
Proof.
  unfold vectors_path, docids_path.
  destruct (base_name p) as [|c b].
  - apply (path_join_length out (py "vectors.safetensors")
             (py "docids.safetensors") (ch "_")).
    vm_compute. discriminate.
  - cbn [app]. apply path_join_length. rewrite !length_app.
    change (length (py "_vectors.safetensors")) with 20%nat.
    change (length (py "_docids.safetensors")) with 19%nat. lia.
Qed.

Lemma file_opener_last (p : pystr) (o : opener) :
  file_opener p = Some o ->
  exists s c, p = s ++ [c] /\ c <> ch "s".
Proof.
  unfold file_opener.
  destruct (endswith p (py ".gz")) eqn:E1.
  { intros _. apply (endswith_last p (py ".g") (ch "z")) in E1 as [s ->].
    exists s, (ch "z"). split; [reflexivity | discriminate]. }
  destruct (endswith p (py ".jsonl")) eqn:E2.
  { intros _. apply (endswith_last p (py ".json") (ch "l")) in E2 as [s ->].
    exists s, (ch "l"). split; [reflexivity | discriminate]. }
  destruct (endswith p (py ".json")) eqn:E3; [|discriminate].
  intros _. apply (endswith_last p (py ".jso") (ch "n")) in E3 as [s ->].
  exists s, (ch "n"). split; [reflexivity | discriminate].
Qed.

Lemma input_not_output (out p name : pystr) (o : opener) :
  file_opener p = Some o ->
  p <> path_join out (base_name p ++ name ++ [ch "s"]).
Proof.
  intros Ho Heq. apply file_opener_last in Ho as (s & c & Hp & Hc).
  destruct (path_join_last out (base_name p ++ name) (ch "s")) as [q Hq].
  rewrite <- app_assoc in Hq. rewrite Hq in Heq. rewrite Hp in Heq.
  apply app_inj_tail in Heq as [_ ->]. congruence.
Qed.

Lemma input_not_vectors_path (out p : pystr) (o : opener) :
  file_opener p = Some o -> p <> vectors_path out p.
Proof. apply (input_not_output out p (py "_vectors.safetensor")). Qed.

Lemma input_not_docids_path (out p : pystr) (o : opener) :
  file_opener p = Some o -> p <> docids_path out p.
Proof. apply (input_not_output out p (py "_docids.safetensor")). Qed.

(** ** Saving and loading *)

Lemma save_file_cases (key : pystr) (t : tensor_data) (path : pystr) (w : world) :
  (files w !! path <> Some Directory /\ writable w path = true /\
   save_file key t path w =
     (World (<[path := SafeTensors key t]> (files w)) (writable w) (log w)
        (io w ++ [IoSave path]), Ok tt)) \/
  ((files w !! path = Some Directory \/ writable w path = false) /\
   save_file key t path w = (trace [IoSave path] w, Raise SafetensorError)).
Proof.
  unfold save_file.
  destruct (files w !! path) as [[]|] eqn:E; try (right; split; [left|]; reflexivity);
    (destruct (writable w path); [left | right; split; [right|]; reflexivity]);
    split; try discriminate; split; reflexivity.
Qed.

Lemma str_eqb_refl (s : pystr) : str_eqb s s = true.
Proof.
  induction s as [|c s IH]; [reflexivity|]. simpl.
  unfold char_eqb. rewrite N.eqb_refl. exact IH.
Qed.

Lemma save_and_verify_cases (vt : tensor spec_float) (dt : tensor Z)
    (vpath dpath ipath : pystr) (w : world) :
  vpath <> dpath ->
  (files w !! vpath <> Some Directory /\ writable w vpath = true /\
   files w !! dpath <> Some Directory /\ writable w dpath = true /\
   exists w',
     save_and_verify vt dt vpath dpath ipath w = (w', Ok tt) /\
     files w' = saved_files vt dt vpath dpath (files w) /\
     writable w' = writable w) \/
  ((files w !! vpath = Some Directory \/ writable w vpath = false \/
    files w !! dpath = Some Directory \/ writable w dpath = false) /\
   exists w' e,
     save_and_verify vt dt vpath dpath ipath w = (w', Raise e) /\
     (files w' = files w \/
      files w' = <[vpath := SafeTensors (py "vectors") (F64 vt)]> (files w))).
Proof.
  intros Hne. unfold save_and_verify, save_tensors.
  destruct (save_file_cases (py "vectors") (F64 vt) vpath w)
    as [(Hd1 & Hw1 & ->) | [Hc ->]].
  2:{ right. cbn [is_IOError]. split; [tauto|].
      eexists _, _. split; [reflexivity | left; reflexivity]. }
  set (w1 := World _ _ _ _).
  destruct (save_file_cases (py "docids") (I64 dt) dpath w1)
    as [(Hd2 & Hw2 & ->) | [Hc ->]].
  2:{ right. cbn [is_IOError]. subst w1. cbn [files writable] in Hc.
      rewrite lookup_insert_ne in Hc by exact Hne. split; [tauto|].
      eexists _, _. split; [reflexivity | right; reflexivity]. }
  left. subst w1. cbn [files writable] in Hd2, Hw2.
  rewrite lookup_insert_ne in Hd2 by exact Hne.
  repeat (split; [assumption|]).
  unfold verify_tensors, load_file, logging. cbn [files writable log io trace].
  rewrite lookup_insert_ne by congruence. rewrite lookup_insert_eq.
  rewrite str_eqb_refl. cbn [files writable log io trace].
  rewrite lookup_insert_eq. rewrite str_eqb_refl.
  eexists. split; [reflexivity|]. split; reflexivity.
Qed.

(** ** The stages of process_file *)

Lemma filter_is_save_reads (path : pystr) (ls : list pystr) :
  List.filter is_save (map (IoReadLine path) ls) = [].
Proof. induction ls as [|l ls IH]; [reflexivity | exact IH]. Qed.

Lemma read_batch_cases (o : opener) (p : pystr) (w : world) :
  exists w2,
    files w2 = files w /\ writable w2 = writable w /\
    List.filter is_save (io w2) = List.filter is_save (io w) /\
    ((exists e, read_batch o p w = (w2, Raise e)) \/
     (exists ls b,
        open_and_read w o p = Ok ls /\
        process_lines ls empty_batch = (b, Ok tt) /\
        read_batch o p w = (w2, Ok b))).
Proof.
  unfold read_batch.
  destruct (open_and_read w o p) as [ls|e] eqn:E.
  - destruct (process_lines ls empty_batch) as [b [[]|e]] eqn:El.
    + eexists. split; [|split; [|split; [|right; eauto]]]; try reflexivity.
      cbn [io logging_all trace]. rewrite !List.filter_app.
      rewrite filter_is_save_reads, !app_nil_r. reflexivity.
    + destruct (is_IOError e);
        (eexists; split; [|split; [|split; [|left; eauto]]]; try reflexivity;
         cbn [io logging logging_all trace]; rewrite !List.filter_app;
         rewrite filter_is_save_reads, !app_nil_r; reflexivity).
  - destruct (is_IOError e);
      (eexists; split; [|split; [|split; [|left; eauto]]]; try reflexivity;
       cbn [io logging trace]; rewrite !List.filter_app;
       rewrite !app_nil_r; reflexivity).
Qed.

Lemma count_lines_world (w : world) (o : opener) (p : pystr) :
  files (count_lines w o p).1 = files w /\
  writable (count_lines w o p).1 = writable w /\
  List.filter is_save (io (count_lines w o p).1) = List.filter is_save (io w).
Proof.
  unfold count_lines. destruct (open_and_read w o p) as [ls|e];
    (split; [reflexivity|]; split; [reflexivity|]);
    cbn [fst io trace]; rewrite List.filter_app; cbn [List.filter is_save];
    rewrite ?filter_is_save_reads, app_nil_r; reflexivity.
Qed.

Lemma open_and_read_files (w w' : world) (o : opener) (p : pystr) :
  files w' = files w -> open_and_read w' o p = open_and_read w o p.
Proof. unfold open_and_read. intros ->. reflexivity. Qed.

(** Either [process_file] fails without having written anything, or it has
    read the lines, built the two tensors and goes on to save them. *)
Lemma process_file_stages (p out : pystr) (overwrite : bool) (w : world) :
  (exists w' e,
     process_file p out overwrite w = (w', Raise e) /\
     files w' = files w /\
     List.filter is_save (io w') = List.filter is_save (io w)) \/
  (exists o ls b vt dt w2,
     os_path_exists w p = true /\
     (overwrite = true \/
      os_path_exists w (vectors_path out p) = false /\
      os_path_exists w (docids_path out p) = false) /\
     file_opener p = Some o /\
     open_and_read w o p = Ok ls /\
     process_lines ls empty_batch = (b, Ok tt) /\
     build_tensors b = Ok (vt, dt) /\
     files w2 = files w /\ writable w2 = writable w /\
     process_file p out overwrite w =
       save_and_verify vt dt (vectors_path out p) (docids_path out p) p w2).
Proof.
  unfold process_file.
  destruct (os_path_exists w p) eqn:Hex; cbn [negb].
  2:{ left. eexists _, _. split; [reflexivity|]. split; reflexivity. }
  destruct (negb overwrite && _) eqn:Hov.
  { left. eexists _, _. split; [reflexivity|]. split; reflexivity. }
  destruct (file_opener p) as [o|] eqn:Ho.
  2:{ left. eexists _, _. split; [reflexivity|]. split; reflexivity. }
  pose proof (count_lines_world w o p) as (Hf1 & Hw1 & Hs1).
  destruct (count_lines w o p) as [w1 total_lines]. cbn [fst] in Hf1, Hw1, Hs1.
  destruct (read_batch_cases o p w1) as (w2 & Hf2 & Hw2 & Hs2 & Hr).
  destruct Hr as [[e ->] | (ls & b & Hread & Hloop & ->)].
  { left. exists w2, e. split; [reflexivity|]. split; congruence. }
  destruct (build_tensors b) as [[vt dt]|e] eqn:Hb.
  2:{ left. exists w2, e. split; [reflexivity|]. split; congruence. }
  right. exists o, ls, b, vt, dt, w2.
  rewrite (open_and_read_files w w1) in Hread by exact Hf1.
  split_and!; try first [reflexivity | assumption | congruence].
  destruct overwrite; [left; reflexivity | right].
  cbn [negb andb] in Hov. apply orb_false_iff in Hov. exact Hov.
Qed.

Lemma process_file_run (p out : pystr) (overwrite : bool) (w : world)
    (o : opener) (ls : list pystr) (b : batch)
    (vt : tensor spec_float) (dt : tensor Z) :
  os_path_exists w p = true ->
  (overwrite = true \/
   os_path_exists w (vectors_path out p) = false /\
   os_path_exists w (docids_path out p) = false) ->
  file_opener p = Some o ->
  open_and_read w o p = Ok ls ->
  process_lines ls empty_batch = (b, Ok tt) ->
  build_tensors b = Ok (vt, dt) ->
  exists w2,
    files w2 = files w /\ writable w2 = writable w /\
    process_file p out overwrite w =
      save_and_verify vt dt (vectors_path out p) (docids_path out p) p w2.
Proof.
  intros Hex Hov Ho Hread Hloop Hb.
  unfold process_file. rewrite Hex. cbn [negb].
  replace (negb overwrite && _) with false
    by (destruct Hov as [-> | [-> ->]]; [reflexivity|];
        destruct overwrite; reflexivity).
  rewrite Ho.
  pose proof (count_lines_world w o p) as (Hf1 & Hw1 & _).
  destruct (count_lines w o p) as [w1 total_lines]. cbn [fst] in Hf1, Hw1.
  unfold read_batch. rewrite (open_and_read_files w w1) by exact Hf1.
  rewrite Hread, Hloop, Hb.
  eexists. split_and!; [| |reflexivity]; cbn [files writable logging_all trace];
    assumption.
Qed.

(** A run that returns has written the two tensors that were built from the
    lines of the input, and nothing else. *)
Lemma process_file_ok_inv (p out : pystr) (overwrite : bool) (w w' : world) :
  process_file p out overwrite w = (w', Ok tt) ->
  exists o ls b vt dt,
    os_path_exists w p = true /\
    file_opener p = Some o /\
    open_and_read w o p = Ok ls /\
    process_lines ls empty_batch = (b, Ok tt) /\
    build_tensors b = Ok (vt, dt) /\
    files w' = saved_files vt dt (vectors_path out p) (docids_path out p) (files w) /\
    writable w' = writable w /\
    writable w (vectors_path out p) = true /\
    writable w (docids_path out p) = true.
Proof.
  intros Hp.
  destruct (process_file_stages p out overwrite w)
    as [(w1 & e & Hp1 & _) | (o & ls & b & vt & dt & w2 & H)];
    [congruence|].
  destruct H as (Hex & _ & Ho & Hread & Hloop & Hb & Hf & Hw & Hp2).
  exists o, ls, b, vt, dt.
  destruct (save_and_verify_cases vt dt (vectors_path out p) (docids_path out p)
              p w2 (vectors_docids_path_ne out p))
    as [(_ & Hw1 & _ & Hw2 & w3 & Hs & Hf3 & Hw3) | (_ & w3 & e & Hs & _)];
    [|congruence].
  assert (w3 = w') as -> by congruence.
  split_and!; try assumption; congruence.
Qed.

Lemma input_lines_read (w : world) (p : pystr) (o : opener) (ls : list pystr) :
  file_opener p = Some o -> open_and_read w o p = Ok ls -> input_lines w p = ls.
Proof. unfold input_lines. intros -> ->. reflexivity. Qed.

Lemma build_tensors_inv (b : batch) (vt : tensor spec_float) (dt : tensor Z) :
  build_tensors b = Ok (vt, dt) ->
  torch_tensor_float64 (vectors b) = Ok vt /\
  exists ts, mapM torch_tensor_int64 (docids b) = Ok ts /\ pad_sequence ts = Ok dt.
Proof.
  unfold build_tensors.
  destruct (torch_tensor_float64 (vectors b)) as [vt'|]; cbn [rbind]; [|discriminate].
  destruct (mapM torch_tensor_int64 (docids b)) as [ts|]; cbn [rbind]; [|discriminate].
  destruct (pad_sequence ts) as [dt'|] eqn:E; cbn [rbind]; [|discriminate].
  intros H; inversion H; subst. split; [reflexivity|]. exists ts. split; [reflexivity|exact E].
Qed.

Lemma saved_files_vectors (vt : tensor spec_float) (dt : tensor Z)
    (out p : pystr) (fs : gmap pystr file) :
  saved_files vt dt (vectors_path out p) (docids_path out p) fs
    !! vectors_path out p = Some (SafeTensors (py "vectors") (F64 vt)).
Proof.
  unfold saved_files. rewrite lookup_insert_ne
    by (intros E; symmetry in E; revert E; apply vectors_docids_path_ne).
  apply lookup_insert_eq.
Qed.

Lemma saved_files_docids (vt : tensor spec_float) (dt : tensor Z)
    (vpath dpath : pystr) (fs : gmap pystr file) :
  saved_files vt dt vpath dpath fs !! dpath = Some (SafeTensors (py "docids") (I64 dt)).
Proof. unfold saved_files. apply lookup_insert_eq. Qed.

(** ** The rows of the vector tensor *)

(** C1. The vector tensor that a run writes has one row for every input
    line that parses as a JSON object whose [vector] field is a non-empty
    array starting with a float, and no other row.  This holds for every run
    that returns, and for every run that has changed a file at all. *)
Theorem vector_rows_count (p out : pystr) (overwrite : bool) (w w' : world)
    (r : result unit) :
  process_file p out overwrite w = (w', r) ->
  r = Ok tt \/ files w' <> files w ->
  exists t,
    files w' !! vectors_path out p = Some (SafeTensors (py "vectors") (F64 t)) /\
    nrows t = count_valid (input_lines w p).
Proof.
  intros Hp Hr.
  destruct (process_file_stages p out overwrite w)
    as [(w1 & e & Hp1 & Hf1 & _) | (o & ls & b & vt & dt & w2 & H)].
  { exfalso. rewrite Hp in Hp1. injection Hp1 as -> ->.
    destruct Hr as [Hr | Hr]; [discriminate | contradiction]. }
  destruct H as (_ & _ & Ho & Hread & Hloop & Hb & Hf & _ & Hp2).
  assert (Hrows : nrows vt = count_valid (input_lines w p)).
  { apply build_tensors_inv in Hb as [Hv _].
    rewrite (torch_tensor_float64_rows _ _ Hv).
    apply process_lines_ok in Hloop as [Hl _].
    rewrite (input_lines_read w p o ls Ho Hread). exact Hl. }
  exists vt. split; [|exact Hrows].
  rewrite Hp in Hp2.
  destruct (save_and_verify_cases vt dt (vectors_path out p) (docids_path out p)
              p w2 (vectors_docids_path_ne out p))
    as [(_ & _ & _ & _ & w3 & Hs & Hf3 & _) | (_ & w3 & e & Hs & Hf3)];
    rewrite Hs in Hp2; injection Hp2 as -> ->.
  - rewrite Hf3, Hf. apply saved_files_vectors.
  - destruct Hf3 as [Hf3 | Hf3].
    + exfalso. destruct Hr as [Hr | Hr]; [discriminate|].
      apply Hr. congruence.
    + rewrite Hf3, Hf. apply lookup_insert_eq.
Qed.

Lemma vector_rows_count_witness :
  process_file example_input example_output false (world_of example_lines) =
    ((process_file example_input example_output false
        (world_of example_lines)).1, Ok tt) /\
  exists t,
    files (process_file example_input example_output false
             (world_of example_lines)).1
      !! vectors_path example_output example_input =
      Some (SafeTensors (py "vectors") (F64 t)) /\
    nrows t = 2%nat.
Proof.
  assert (H : process_file example_input example_output false
                (world_of example_lines) =
              ((process_file example_input example_output false
                  (world_of example_lines)).1, Ok tt))
    by (vm_compute; reflexivity).
  split; [exact H|].
  destruct (vector_rows_count _ _ _ _ _ _ H (or_introl eq_refl))
    as (t & H1 & H2).
  exists t. split; [exact H1|]. rewrite H2. vm_compute. reflexivity.
Defined.

(** ** The rows of the identifier tensor *)

(** C4. In the identifier tensor that a run writes, every row has the
    length of the longest docid among the file's valid records, row [i]
    holds the codes of the [i]-th such record followed by zeros, and the
    rows are in the order of the lines. *)
Theorem docid_rows_padded (p out : pystr) (overwrite : bool) (w w' : world) :
  process_file p out overwrite w = (w', Ok tt) ->
  exists t,
    files w' !! docids_path out p = Some (SafeTensors (py "docids") (I64 t)) /\
    shape t = [length (docid_rows (input_lines w p));
               longest (docid_rows (input_lines w p))] /\
    forall i codes,
      docid_rows (input_lines w p) !! i = Some codes ->
      row t i =
        codes ++ repeat 0 (longest (docid_rows (input_lines w p)) - length codes) /\
      length (row t i) = longest (docid_rows (input_lines w p)).
Proof.
  intros Hp. apply process_file_ok_inv in Hp
    as (o & ls & b & vt & dt & _ & Ho & Hread & Hloop & Hb & Hf & _).
  exists dt. rewrite Hf. split; [apply saved_files_docids|].
  apply build_tensors_inv in Hb as (_ & ts & Hts & Hpad).
  apply mapM_torch_tensor_int64 in Hts.
  apply process_lines_ok in Hloop as [_ Hd]. cbn [docids empty_batch app] in Hd.
  rewrite (input_lines_read w p o ls Ho Hread), <- Hd, <- Hts.
  apply pad_sequence_rows in Hpad as [Hshape Hrows].
  rewrite length_map. split; [exact Hshape|].
  intros i codes Hi. rewrite list_lookup_fmap in Hi.
  destruct (ts !! i) as [x|] eqn:Hx; [|discriminate].
  cbn in Hi. injection Hi as <-.
  rewrite (Hrows i x Hx). split; [reflexivity|].
  rewrite length_app, repeat_length.
  assert (length (data x) <= longest (map data ts))%nat; [|lia].
  apply longest_ge, in_map. apply list_elem_of_In, list_elem_of_lookup. eauto.
Qed.

Lemma docid_rows_padded_witness :
  process_file example_input example_output false (world_of example_lines) =
    ((process_file example_input example_output false
        (world_of example_lines)).1, Ok tt) /\
  exists t,
    files (process_file example_input example_output false
             (world_of example_lines)).1
      !! docids_path example_output example_input =
      Some (SafeTensors (py "docids") (I64 t)) /\
    shape t = [2%nat; 3%nat] /\
    row t 0 = [97; 98; 0] /\ row t 1 = [97; 98; 99].
Proof.
  assert (H : process_file example_input example_output false
                (world_of example_lines) =
              ((process_file example_input example_output false
                  (world_of example_lines)).1, Ok tt))
    by (vm_compute; reflexivity).
  split; [exact H|].
  destruct (docid_rows_padded _ _ _ _ _ H) as (t & H1 & H2 & H3).
  exists t. split; [exact H1|]. split; [rewrite H2; vm_compute; reflexivity|].
  split.
  - destruct (H3 0%nat [97; 98]) as [-> _]; vm_compute; reflexivity.
  - destruct (H3 1%nat [97; 98; 99]) as [-> _]; vm_compute; reflexivity.
Defined.

(** ** Existing output files *)

(** C6. Without the overwrite flag, when one of the two output paths
    exists, the run fails before anything is read or written; for an input
    file that exists the exception is [FileExistsError]. *)
Theorem no_overwrite_fails_first (p out : pystr) (w : world) :
  os_path_exists w (vectors_path out p) = true \/
  os_path_exists w (docids_path out p) = true ->
  exists w' e,
    process_file p out false w = (w', Raise e) /\
    files w' = files w /\ io w' = io w /\
    (os_path_exists w p = true -> e = FileExistsError).
Proof.
  intros Hout. unfold process_file.
  destruct (os_path_exists w p); cbn [negb andb].
  - replace (os_path_exists w (vectors_path out p)
             || os_path_exists w (docids_path out p)) with true
      by (destruct Hout as [-> | ->];
          [reflexivity | rewrite orb_true_r; reflexivity]).
    eexists _, _. split_and!; reflexivity.
  - eexists _, _. split_and!; try reflexivity. discriminate.
Qed.

Lemma no_overwrite_fails_first_witness :
  os_path_exists world_with_output
    (vectors_path example_output example_input) = true /\
  exists w',
    process_file example_input example_output false world_with_output =
      (w', Raise FileExistsError) /\
    files w' = files world_with_output /\ io w' = [].
Proof.
  assert (H : os_path_exists world_with_output
                (vectors_path example_output example_input) = true)
    by (vm_compute; reflexivity).
  split; [exact H|].
  destruct (no_overwrite_fails_first example_input example_output
              world_with_output (or_introl H)) as (w' & e & Hp & Hf & Hio & He).
  rewrite He in Hp by (vm_compute; reflexivity).
  exists w'. split; [exact Hp|]. split; [exact Hf | exact Hio].
Defined.

(** ** Running twice *)

Lemma saved_files_idem (vt : tensor spec_float) (dt : tensor Z)
    (vpath dpath : pystr) (fs : gmap pystr file) :
  saved_files vt dt vpath dpath (saved_files vt dt vpath dpath fs) =
  saved_files vt dt vpath dpath fs.
Proof.
  unfold saved_files. apply map_eq. intros k.
  rewrite !lookup_insert. repeat case_decide; congruence.
Qed.

Lemma saved_files_other (vt : tensor spec_float) (dt : tensor Z)
    (vpath dpath k : pystr) (fs : gmap pystr file) :
  k <> vpath -> k <> dpath -> saved_files vt dt vpath dpath fs !! k = fs !! k.
Proof.
  intros H1 H2. unfold saved_files.
  rewrite !lookup_insert_ne by congruence. reflexivity.
Qed.

(** The tensors a run writes are a function of the lines of the input. *)
Lemma written_tensors_function (p out : pystr) (ov1 ov2 : bool)
    (wa wa' wb wb' : world) :
  files wa !! p = files wb !! p ->
  process_file p out ov1 wa = (wa', Ok tt) ->
  process_file p out ov2 wb = (wb', Ok tt) ->
  files wa' !! vectors_path out p = files wb' !! vectors_path out p /\
  files wa' !! docids_path out p = files wb' !! docids_path out p.
Proof.
  intros Hin Ha Hb.
  apply process_file_ok_inv in Ha
    as (o & ls & b & vt & dt & _ & Ho & Hread & Hloop & Hbuild & Hf & _).
  apply process_file_ok_inv in Hb
    as (o' & ls' & b' & vt' & dt' & _ & Ho' & Hread' & Hloop' & Hbuild' & Hf' & _).
  assert (o' = o) as -> by congruence.
  unfold open_and_read in Hread, Hread'. rewrite Hin in Hread.
  assert (ls' = ls) as -> by congruence.
  assert (b' = b) as -> by congruence.
  assert (vt' = vt /\ dt' = dt) as [-> ->] by (split; congruence).
  rewrite Hf, Hf', !saved_files_vectors, !saved_files_docids.
  split; reflexivity.
Qed.

(** C9. With the overwrite flag, a second run on the same input succeeds
    and leaves the files as the first run wrote them; the two tensors that
    a run writes depend on the input file alone. *)
Theorem overwrite_idempotent (p out : pystr) (w w1 : world) :
  process_file p out true w = (w1, Ok tt) ->
  (exists w2,
     process_file p out true w1 = (w2, Ok tt) /\ files w2 = files w1) /\
  (forall wb wb1,
     files wb !! p = files w !! p ->
     process_file p out true wb = (wb1, Ok tt) ->
     files wb1 !! vectors_path out p = files w1 !! vectors_path out p /\
     files wb1 !! docids_path out p = files w1 !! docids_path out p).
Proof.
  intros Hp. split.
  2:{ intros wb wb1 Hin Hb.
      apply (written_tensors_function p out true true wb wb1 w w1 Hin Hb Hp). }
  apply process_file_ok_inv in Hp
    as (o & ls & b & vt & dt & Hex & Ho & Hread & Hloop & Hb & Hf & Hw & Hwv & Hwd).
  assert (Hin : files w1 !! p = files w !! p).
  { rewrite Hf. apply saved_files_other.
    - apply (input_not_vectors_path out p o Ho).
    - apply (input_not_docids_path out p o Ho). }
  destruct (process_file_run p out true w1 o ls b vt dt)
    as (w2 & Hf2 & Hw2 & Hrun); try assumption.
  - unfold os_path_exists in *. rewrite Hin. exact Hex.
  - left. reflexivity.
  - unfold open_and_read in *. rewrite Hin. exact Hread.
  - destruct (save_and_verify_cases vt dt (vectors_path out p)
                (docids_path out p) p w2 (vectors_docids_path_ne out p))
      as [(_ & _ & _ & _ & w3 & Hs & Hf3 & _) | (Hc & _)].
    + exists w3. split; [congruence|].
      rewrite Hf3, Hf2, Hf. apply saved_files_idem.
    + exfalso. rewrite Hf2, Hw2, Hf, Hw in Hc.
      rewrite saved_files_vectors, saved_files_docids in Hc.
      destruct Hc as [Hc | [Hc | [Hc | Hc]]]; congruence.
Qed.

Lemma overwrite_idempotent_witness :
  process_file example_input example_output true (world_of example_lines) =
    ((process_file example_input example_output true
        (world_of example_lines)).1, Ok tt) /\
  exists w2,
    process_file example_input example_output true
      (process_file example_input example_output true
         (world_of example_lines)).1 = (w2, Ok tt) /\
    files w2 =
    files (process_file example_input example_output true
             (world_of example_lines)).1.
Proof.
  assert (H : process_file example_input example_output true
                (world_of example_lines) =
              ((process_file example_input example_output true
                  (world_of example_lines)).1, Ok tt))
    by (vm_compute; reflexivity).
  split; [exact H|].
  exact (proj1 (overwrite_idempotent _ _ _ _ H)).
Defined.

(** ** Files without a valid record *)

Lemma count_valid_zero_rows (ls : list pystr) :
  count_valid ls = O -> docid_rows ls = [].
Proof.
  unfold count_valid, docid_rows.
  induction ls as [|l ls IH]; [reflexivity|].
  cbn [List.filter omap list_omap]. unfold record_docid at 1.
  destruct (valid_record l); [discriminate|]. exact IH.
Qed.

Lemma build_tensors_empty (b : batch) :
  vectors b = [] -> docids b = [] -> build_tensors b = Raise RuntimeError.
Proof.
  destruct b as [vs ds ws n]. cbn [vectors docids]. intros -> ->. reflexivity.
Qed.

Lemma docid_rows_le_valid (ls : list pystr) :
  (length (docid_rows ls) <= count_valid ls)%nat.
Proof.
  unfold count_valid, docid_rows.
  induction ls as [|l ls IH]; [reflexivity|].
  cbn [List.filter omap list_omap]. unfold record_docid at 1.
  destruct (valid_record l); [|exact IH].
  destruct (rbind _ _); cbn [length]; lia.
Qed.

(** The tensors that are built have rows, the vectors at least as many as
    the identifiers. *)
Lemma built_tensors_have_rows (ls : list pystr) (b : batch)
    (vt : tensor spec_float) (dt : tensor Z) :
  process_lines ls empty_batch = (b, Ok tt) ->
  build_tensors b = Ok (vt, dt) ->
  (1 <= nrows dt)%nat /\ (nrows dt <= nrows vt)%nat.
Proof.
  intros Hloop Hb. apply build_tensors_inv in Hb as (Hv & ts & Hts & Hpad).
  rewrite (torch_tensor_float64_rows _ _ Hv).
  apply process_lines_ok in Hloop as [Hl Hd].
  cbn [vectors docids empty_batch length app] in Hl, Hd.
  apply mapM_torch_tensor_int64 in Hts.
  pose proof (pad_sequence_rows ts dt Hpad) as [Hshape _].
  unfold nrows at 1 2. rewrite Hshape. cbn [hd].
  assert (Hlen : length ts = length (docid_rows ls))
    by (rewrite <- Hd, <- Hts, length_map; reflexivity).
  split.
  - destruct ts; [discriminate | simpl; lia].
  - rewrite Hlen, Hl. apply docid_rows_le_valid.
Qed.

(** C10. When no line of the input is a valid record, building the tensors
    fails and the run ends with an exception, without having written a
    file; the tensors of a run that returns have at least one row each. *)
Theorem no_valid_record_no_output (p out : pystr) (overwrite : bool) (w : world) :
  (count_valid (input_lines w p) = O ->
   (forall b,
      process_lines (input_lines w p) empty_batch = (b, Ok tt) ->
      build_tensors b = Raise RuntimeError) /\
   exists w' e,
     process_file p out overwrite w = (w', Raise e) /\
     files w' = files w /\
     List.filter is_save (io w') = List.filter is_save (io w)) /\
  (forall w',
     process_file p out overwrite w = (w', Ok tt) ->
     exists vt dt,
       files w' !! vectors_path out p =
         Some (SafeTensors (py "vectors") (F64 vt)) /\
       files w' !! docids_path out p =
         Some (SafeTensors (py "docids") (I64 dt)) /\
       (1 <= nrows vt)%nat /\ (1 <= nrows dt)%nat).
Proof.
  split.
  - intros Hc.
    assert (Hbuild : forall b,
              process_lines (input_lines w p) empty_batch = (b, Ok tt) ->
              build_tensors b = Raise RuntimeError).
    { intros b Hloop. apply process_lines_ok in Hloop as [Hv Hd].
      rewrite Hc in Hv. rewrite (count_valid_zero_rows _ Hc) in Hd.
      cbn [vectors docids empty_batch length app] in Hv, Hd.
      apply build_tensors_empty; [|exact Hd].
      destruct (vectors b); [reflexivity | discriminate]. }
    split; [exact Hbuild|].
    destruct (process_file_stages p out overwrite w)
      as [H | (o & ls & b & vt & dt & w2 & H)]; [exact H|].
    destruct H as (_ & _ & Ho & Hread & Hloop & Hb & _).
    rewrite <- (input_lines_read w p o ls Ho Hread) in Hloop.
    rewrite (Hbuild b Hloop) in Hb. discriminate.
  - intros w' Hp. apply process_file_ok_inv in Hp
      as (o & ls & b & vt & dt & _ & _ & _ & Hloop & Hb & Hf & _).
    exists vt, dt. rewrite Hf.
    split; [apply saved_files_vectors|]. split; [apply saved_files_docids|].
    destruct (built_tensors_have_rows ls b vt dt Hloop Hb). lia.
Qed.

Lemma no_valid_record_no_output_witness :
  count_valid (input_lines (world_of invalid_lines) example_input) = O /\
  exists w' e,
    process_file example_input example_output true (world_of invalid_lines) =
      (w', Raise e) /\
    files w' = files (world_of invalid_lines).
Proof.
  assert (H : count_valid (input_lines (world_of invalid_lines) example_input) = O)
    by (vm_compute; reflexivity).
  split; [exact H|].
  destruct (proj1 (no_valid_record_no_output example_input example_output
                     true (world_of invalid_lines)) H)
    as (_ & w' & e & Hp & Hf & _).
  exists w', e. split; [exact Hp | exact Hf].
Defined.

(** ** Records the loop mishandles *)

(** C2. A record with an empty [vector] is not skipped: [[][0]] raises
    [IndexError], which the [except] clause of the loop does not catch.  No
    warning is logged, the lines that follow are not processed and the run
    ends with the exception. *)
Theorem empty_vector_aborts :
  loads (dq "{'vector': [], 'docid': 'x'}") =
    Ok (JObj [(py "vector", JArr []); (py "docid", JStr (py "x"))]) /\
  process_line (dq "{'vector': [], 'docid': 'x'}") empty_batch =
    (Batch [] [] [] 1, Raise IndexError) /\
  process_lines empty_vector_lines empty_batch =
    (Batch [] [] [] 1, Raise IndexError) /\
  (process_file example_input example_output true
     (world_of empty_vector_lines)).2 = Raise IndexError /\
  log (process_file example_input example_output true
         (world_of empty_vector_lines)).1 = [] /\
  files (process_file example_input example_output true
           (world_of empty_vector_lines)).1 =
  files (world_of empty_vector_lines).
Proof. repeat split; vm_compute; reflexivity. Qed.

(** C3. A record with a valid [vector] and no [docid] leaves its vector in
    [vectors]: the [KeyError] is caught after the vector was appended.  The
    two lists, and the two tensors written, then differ in length, and row
    0 of the identifiers belongs to the record of row 1 of the vectors. *)
Theorem missing_docid_misaligns :
  process_lines missing_docid_lines empty_batch =
    (Batch
       [JArr [JFloat (S754_finite false 4503599627370496 (-53))];
        JArr [JFloat (S754_finite false 6755399441055744 (-52))]]
       [[98]] [(WARNING, SkippedJSON KeyError)] 2, Ok tt) /\
  (process_file example_input example_output true
     (world_of missing_docid_lines)).2 = Ok tt /\
  files (process_file example_input example_output true
           (world_of missing_docid_lines)).1
    !! vectors_path example_output example_input =
    Some (SafeTensors (py "vectors")
            (F64 (Tensor [2%nat; 1%nat]
                    [S754_finite false 4503599627370496 (-53);
                     S754_finite false 6755399441055744 (-52)]))) /\
  files (process_file example_input example_output true
           (world_of missing_docid_lines)).1
    !! docids_path example_output example_input =
    Some (SafeTensors (py "docids") (I64 (Tensor [1%nat; 1%nat] [98]))).
Proof. repeat split; vm_compute; reflexivity. Qed.

(** ** The names of the output files *)

(** C7. The base name is the input file's name with its trailing suffix
    stripped, the rest of the name unchanged.  The code breaks it: [replace]
    removes the three strings wherever they occur, so that
    [my.gzip.notes.json] gives [myip.notes] and not [my.gzip.notes], and
    the run writes [out/myip.notes_vectors.safetensors]. *)
Lemma base_name_not_suffix_stripping :
  base_name (py "in/my.gzip.notes.json") = py "myip.notes" /\
  spec_base_name (py "in/my.gzip.notes.json") = py "my.gzip.notes" /\
  base_name (py "in/my.gzip.notes.json")
    <> spec_base_name (py "in/my.gzip.notes.json") /\
  (process_file (py "in/my.gzip.notes.json") example_output false
     (world_at (py "in/my.gzip.notes.json") (TextFile example_lines))).2 = Ok tt /\
  os_path_exists
    (process_file (py "in/my.gzip.notes.json") example_output false
       (world_at (py "in/my.gzip.notes.json") (TextFile example_lines))).1
    (py "out/myip.notes_vectors.safetensors") = true /\
  os_path_exists
    (process_file (py "in/my.gzip.notes.json") example_output false
       (world_at (py "in/my.gzip.notes.json") (TextFile example_lines))).1
    (py "out/my.gzip.notes_vectors.safetensors") = false.
Proof.
  split_and!; try (vm_compute; reflexivity). vm_compute. discriminate.
Qed.

(** The names a run writes: [<base>_vectors.safetensors] and
    [<base>_docids.safetensors] in the output directory, where [base] is
    what the three [replace] calls leave of the input file's name; when
    the name is a stem followed by one of the suffixes [.json], [.jsonl],
    [.gz], [.json.gz], [.jsonl.gz] and the stem contains none of the three
    strings, [base] is the stem. *)
Theorem output_names (p out : pystr) (overwrite : bool) (w w' : world) :
  process_file p out overwrite w = (w', Ok tt) ->
  let base :=
    replace (replace (replace (basename p) (py ".jsonl") []) (py ".gz") [])
      (py ".json") [] in
  (exists vt dt,
     files w' =
       <[path_join out (base ++ py "_docids.safetensors") :=
           SafeTensors (py "docids") (I64 dt)]>
         (<[path_join out (base ++ py "_vectors.safetensors") :=
              SafeTensors (py "vectors") (F64 vt)]> (files w))) /\
  (forall stem suffix,
     basename p = stem ++ suffix ->
     contains stem (py ".jsonl") = false ->
     contains stem (py ".gz") = false ->
     contains stem (py ".json") = false ->
     In suffix input_suffixes ->
     base = stem).
Proof.
  intros Hp base. split.
  - apply process_file_ok_inv in Hp
      as (o & ls & b & vt & dt & _ & _ & _ & _ & _ & Hf & _).
    exists vt, dt. exact Hf.
  - intros stem suffix. apply base_name_of_suffixed.
Qed.

Lemma output_names_witness :
  exists vt dt,
    files (process_file (py "in/part.00.jsonl.gz") example_output false
             (world_at (py "in/part.00.jsonl.gz") (GzFile example_lines))).1 =
      <[py "out/part.00_docids.safetensors" :=
          SafeTensors (py "docids") (I64 dt)]>
        (<[py "out/part.00_vectors.safetensors" :=
             SafeTensors (py "vectors") (F64 vt)]>
           {[py "in/part.00.jsonl.gz" := GzFile example_lines]}).
Proof.
  assert (H : process_file (py "in/part.00.jsonl.gz") example_output false
                (world_at (py "in/part.00.jsonl.gz") (GzFile example_lines)) =
              ((process_file (py "in/part.00.jsonl.gz") example_output false
                  (world_at (py "in/part.00.jsonl.gz")
                     (GzFile example_lines))).1, Ok tt))
    by (vm_compute; reflexivity).
  destruct (output_names _ _ _ _ _ H) as [(vt & dt & Hf) Hb].
  rewrite (Hb (py "part.00") (py ".jsonl.gz")) in Hf;
    try reflexivity; [|unfold input_suffixes; cbn [In]; tauto].
  exists vt, dt. exact Hf.
Defined.

(** * Further properties *)

(** ** What one line does to the lists *)

Lemma process_line_pbar (line : pystr) (b : batch) :
  pbar (process_line line b).1 = S (pbar b).
Proof.
  unfold process_line, line_body, dict_get, getitem0, getitem, isinstance_float.
  destruct (loads line) as [entry|e]; cbn [rbind].
  - repeat (case_match; simplify_eq/=); reflexivity.
  - destruct (skipped e); reflexivity.
Qed.

Lemma process_line_vectors_content (line : pystr) (b : batch) :
  vectors (process_line line b).1 =
  vectors b ++ match record_vector line with Some v => [v] | None => [] end.
Proof.
  unfold record_vector, process_line, line_body, dict_get, getitem0, getitem,
    isinstance_float.
  destruct (loads line) as [entry|e]; cbn [rbind].
  - repeat (case_match; simplify_eq/=); rewrite ?app_nil_r; congruence.
  - destruct (skipped e); simpl; rewrite app_nil_r; reflexivity.
Qed.

(** When the iteration ends normally, the line has added one docid row or
    one warning, never both and never neither. *)
Lemma process_line_accounted (line : pystr) (b b' : batch) :
  process_line line b = (b', Ok tt) ->
  (length (warnings b') + length (docids b') =
   S (length (warnings b) + length (docids b)))%nat.
Proof.
  unfold process_line, line_body, dict_get, getitem0, getitem, isinstance_float.
  destruct (loads line) as [entry|e]; cbn [rbind].
  - repeat (case_match; simplify_eq/=); intros; simplify_eq/=;
      rewrite ?length_app; simpl; lia.
  - destruct (skipped e); intros; simplify_eq/=. rewrite length_app. simpl. lia.
Qed.

Lemma mapM_py_ord_raises (l : list json) (e : exn) :
  mapM py_ord l = Raise e -> e = TypeError.
Proof.
  induction l as [|x l IH]; cbn [mapM]; [discriminate|].
  destruct (py_ord x) as [z|e'] eqn:Ex; cbn [rbind].
  - destruct (mapM py_ord l); cbn [rbind]; [discriminate|].
    intros H; inversion H; subst. apply IH. reflexivity.
  - intros H; inversion H; subst.
    unfold py_ord in Ex. repeat case_match; congruence.
Qed.

Lemma docid_ascii_raises (v : json) (e : exn) :
  docid_ascii v = Raise e -> e = TypeError.
Proof.
  unfold docid_ascii. destruct v; cbn [iterate rbind];
    try (intros H; inversion H; reflexivity); apply mapM_py_ord_raises.
Qed.

Lemma process_line_raises (line : pystr) (b b' : batch) (e : exn) :
  process_line line b = (b', Raise e) ->
  e = AttributeError \/ e = IndexError \/ e = TypeError.
Proof.
  unfold process_line, line_body, dict_get, getitem0, getitem,
    isinstance_float.
  destruct (loads_total line) as [[v ->] | ->]; cbn [rbind skipped].
  2:{ discriminate. }
  intros H.
  repeat (case_match; simplify_eq/=); auto;
    match goal with
    | H : docid_ascii _ = Raise _ |- _ => apply docid_ascii_raises in H; auto
    end.
Qed.

(** ** Lines that are skipped and lines that end the loop *)

(** X1. A line on which [json.loads] raises [JSONDecodeError] never ends
    the loop: it is logged as skipped, adds no row, and the next lines are
    processed. *)
Theorem unparsable_line_skipped (line : pystr) (rest : list pystr) (b : batch) :
  loads line = Raise JSONDecodeError ->
  process_line line b =
    (pbar_update (warn b (SkippedJSON JSONDecodeError)), Ok tt) /\
  process_lines (line :: rest) b =
    process_lines rest (pbar_update (warn b (SkippedJSON JSONDecodeError))).
Proof.
  intros Hl.
  assert (H : process_line line b =
              (pbar_update (warn b (SkippedJSON JSONDecodeError)), Ok tt)).
  { unfold process_line, line_body. rewrite Hl. reflexivity. }
  split; [exact H|]. cbn [process_lines]. rewrite H. reflexivity.
Qed.

Lemma unparsable_line_skipped_witness :
  process_lines [dq "{'vector': [0.5"; dq "{'vector': [1.5], 'docid': 'b'}"]
    empty_batch =
  process_lines [dq "{'vector': [1.5], 'docid': 'b'}"]
    (pbar_update (warn empty_batch (SkippedJSON JSONDecodeError))).
Proof.
  apply (unparsable_line_skipped (dq "{'vector': [0.5")).
  vm_compute. reflexivity.
Defined.

(** X2. A record without [vector], or whose [vector] is a non-empty array
    or string that does not start with a float (an integer first element
    included), is skipped with a warning that carries its docid, or [N/A]
    when it has none. *)
Theorem invalid_vector_skipped (line : pystr) (d : list (pystr * json))
    (rest : list pystr) (b : batch) :
  loads line = Ok (JObj d) ->
  vector_rejected d = true ->
  process_line line b =
    (pbar_update (warn b (SkippedVector (docid_or_na d))), Ok tt) /\
  process_lines (line :: rest) b =
    process_lines rest (pbar_update (warn b (SkippedVector (docid_or_na d)))).
Proof.
  intros Hl Hv.
  assert (H : process_line line b =
              (pbar_update (warn b (SkippedVector (docid_or_na d))), Ok tt)).
  { unfold process_line, line_body, vector_rejected, docid_or_na in *.
    rewrite Hl. cbn [rbind dict_get].
    destruct (dict_lookup d (py "vector")) as [[]|]; try discriminate;
      repeat (case_match; simplify_eq/=); reflexivity. }
  split; [exact H|]. cbn [process_lines]. rewrite H. reflexivity.
Qed.

Lemma invalid_vector_skipped_witness :
  process_line (dq "{'vector': [1, 0.5], 'docid': 'x'}") empty_batch =
    (pbar_update (warn empty_batch (SkippedVector (JStr (py "x")))), Ok tt) /\
  process_line (dq "{'id': 7}") empty_batch =
    (pbar_update (warn empty_batch (SkippedVector (JStr (py "N/A")))), Ok tt).
Proof.
  split.
  - apply (invalid_vector_skipped (dq "{'vector': [1, 0.5], 'docid': 'x'}")
             [(py "vector", JArr [JInt 1;
                 JFloat (S754_finite false 4503599627370496 (-53))]);
              (py "docid", JStr (py "x"))] []);
      vm_compute; reflexivity.
  - apply (invalid_vector_skipped (dq "{'id': 7}") [(py "id", JInt 7)] []);
      vm_compute; reflexivity.
Defined.

(** X3. A line that parses to anything but an object (an array, a number,
    a string, [true], [null]) ends the loop with [AttributeError]: the
    lines after it are not processed. *)
Theorem non_object_line_aborts (line : pystr) (v : json) (rest : list pystr)
    (b : batch) :
  loads line = Ok v ->
  is_object v = false ->
  process_line line b = (pbar_update b, Raise AttributeError) /\
  process_lines (line :: rest) b = (pbar_update b, Raise AttributeError).
Proof.
  intros Hl Hv.
  assert (H : process_line line b = (pbar_update b, Raise AttributeError)).
  { unfold process_line, line_body. rewrite Hl.
    destruct v; try discriminate; reflexivity. }
  split; [exact H|]. cbn [process_lines]. rewrite H. reflexivity.
Qed.

Lemma non_object_line_aborts_witness :
  process_lines [dq "[0.1, 0.2]"; dq "{'vector': [1.5], 'docid': 'b'}"]
    empty_batch = (pbar_update empty_batch, Raise AttributeError).
Proof.
  apply (non_object_line_aborts (dq "[0.1, 0.2]")
           (JArr [JFloat (S754_finite false 7205759403792794 (-56));
                  JFloat (S754_finite false 7205759403792794 (-55))]));
    vm_compute; reflexivity.
Defined.

(** X4. The docid transform accepts whatever iterates over one-character
    strings (a string, a list of such strings, an object with such keys)
    and gives their code points; on anything else it raises [TypeError]. *)
Theorem docid_ascii_cases (docid : json) :
  (forall codes,
     docid_ascii docid = Ok codes ->
     exists chars,
       iterate docid = Ok (map (fun c => JStr [c]) chars) /\
       codes = map ord chars) /\
  (forall chars,
     iterate docid = Ok (map (fun c => JStr [c]) chars) ->
     docid_ascii docid = Ok (map ord chars)) /\
  (forall e, docid_ascii docid = Raise e -> e = TypeError) /\
  (sequence_items docid = None -> is_object docid = false ->
   docid_ascii docid = Raise TypeError).
Proof.
  split_and!.
  - intros codes. unfold docid_ascii.
    destruct (iterate docid) as [items|]; cbn [rbind]; [|discriminate].
    revert codes. induction items as [|x items IH]; intros codes; cbn [mapM].
    + intros H; inversion H. exists []. split; reflexivity.
    + destruct (py_ord x) as [z|] eqn:Ex; cbn [rbind]; [|discriminate].
      destruct (mapM py_ord items) as [zs|]; cbn [rbind]; [|discriminate].
      intros H; inversion H; subst.
      destruct (IH zs eq_refl) as (chars & Hi & ->).
      unfold py_ord in Ex. destruct x as [| | | |[|c [|]]| |]; try discriminate.
      inversion Ex; subst. exists (c :: chars). inversion Hi; subst.
      split; reflexivity.
  - intros chars Hi. unfold docid_ascii. rewrite Hi. cbn [rbind].
    apply mapM_py_ord_chars.
  - apply docid_ascii_raises.
  - destruct docid; try discriminate; reflexivity.
Qed.

Lemma docid_ascii_cases_witness :
  docid_ascii (JArr [JStr (py "a"); JStr (py "b")]) = Ok [97; 98] /\
  docid_ascii (JObj [(py "a", JNull); (py "b", JInt 3)]) = Ok [97; 98] /\
  docid_ascii (JInt 12) = Raise TypeError /\
  docid_ascii (JArr [JStr (py "ab")]) = Raise TypeError.
Proof.
  split_and!.
  - apply (proj1 (proj2 (docid_ascii_cases _)) (py "ab")). reflexivity.
  - apply (proj1 (proj2 (docid_ascii_cases _)) (py "ab")). reflexivity.
  - apply (proj2 (proj2 (proj2 (docid_ascii_cases (JInt 12))))); reflexivity.
  - destruct (docid_ascii (JArr [JStr (py "ab")])) as [codes|e] eqn:E.
    + vm_compute in E. discriminate.
    + f_equal. apply (proj1 (proj2 (proj2 (docid_ascii_cases _))) e E).
Defined.

(** X5. A valid vector with a docid that the transform refuses (a number,
    [null], a list of longer strings) ends the loop with [TypeError], the
    vector already appended. *)
Theorem unusable_docid_aborts (line : pystr) (d : list (pystr * json))
    (f : spec_float) (items : list json) (docid : json) (e : exn)
    (rest : list pystr) (b : batch) :
  loads line = Ok (JObj d) ->
  dict_lookup d (py "vector") = Some (JArr (JFloat f :: items)) ->
  dict_lookup d (py "docid") = Some docid ->
  docid_ascii docid = Raise e ->
  process_lines (line :: rest) b =
    (pbar_update (append_vector b (JArr (JFloat f :: items))), Raise TypeError).
Proof.
  intros Hl Hv Hd He.
  pose proof (docid_ascii_raises _ _ He) as ->.
  cbn [process_lines]. unfold process_line, line_body.
  rewrite Hl. cbn [rbind dict_get]. rewrite Hv.
  cbn [rbind getitem0 isinstance_float getitem]. rewrite Hv, Hd.
  cbn [rbind]. rewrite He. reflexivity.
Qed.

Lemma unusable_docid_aborts_witness :
  process_lines [dq "{'vector': [0.5], 'docid': 17}"; dq "{'docid': 'u'}"]
    empty_batch =
  (pbar_update
     (append_vector empty_batch
        (JArr [JFloat (S754_finite false 4503599627370496 (-53))])),
   Raise TypeError).
Proof.
  apply (unusable_docid_aborts (dq "{'vector': [0.5], 'docid': 17}")
           [(py "vector", JArr [JFloat (S754_finite false 4503599627370496 (-53))]);
            (py "docid", JInt 17)] _ [] (JInt 17) TypeError);
    vm_compute; reflexivity.
Defined.

(** ** Invariants of the loop *)

Lemma process_lines_raises (lines : list pystr) (b b' : batch) (e : exn) :
  process_lines lines b = (b', Raise e) ->
  e = AttributeError \/ e = IndexError \/ e = TypeError.
Proof.
  revert b. induction lines as [|line rest IH]; intros b; cbn [process_lines];
    [discriminate|].
  destruct (process_line line b) as [b1 [[]|e1]] eqn:E.
  - apply IH.
  - intros H; inversion H; subst. apply (process_line_raises _ _ _ _ E).
Qed.

(** What the body of the loop raises on a line that [json.loads] parsed
    or refused with [JSONDecodeError]. *)
Lemma decoded_line_raises (line : pystr) (b b' : batch) (e : exn) :
  (loads line = Raise JSONDecodeError \/ exists v, loads line = Ok v) ->
  process_line line b = (b', Raise e) ->
  e = AttributeError \/ e = IndexError \/ e = TypeError.
Proof.
  unfold process_line, line_body, dict_get, getitem0, getitem,
    isinstance_float.
  intros [-> | [v ->]]; cbn [rbind skipped]; [discriminate|].
  intros H.
  repeat (case_match; simplify_eq/=); auto;
    match goal with
    | H : docid_ascii _ = Raise _ |- _ => apply docid_ascii_raises in H; auto
    end.
Qed.

(** X6. On lines that [json.loads] parses or refuses with
    [JSONDecodeError], the only exceptions that the body of the loop lets
    through are [AttributeError], [IndexError] and [TypeError]: a parse
    error or a missing key never ends the loop, and the body raises nothing
    that the [except IOError] around the loop would catch. *)
Theorem loop_escaping_exceptions (lines : list pystr) (b b' : batch) (e : exn) :
  Forall (fun line =>
            loads line = Raise JSONDecodeError \/ exists v, loads line = Ok v)
    lines ->
  process_lines lines b = (b', Raise e) ->
  (e = AttributeError \/ e = IndexError \/ e = TypeError) /\
  is_IOError e = false /\ skipped e = false.
Proof.
  intros Hall H.
  assert (Hk : e = AttributeError \/ e = IndexError \/ e = TypeError).
  { revert b H. induction Hall as [|line rest Hline _ IH]; intros b;
      cbn [process_lines]; [discriminate|].
    destruct (process_line line b) as [b1 [[]|e1]] eqn:E.
    - apply IH.
    - intros H; inversion H; subst.
      apply (decoded_line_raises _ _ _ _ Hline E). }
  split; [exact Hk|]. destruct Hk as [-> | [-> | ->]]; split; reflexivity.
Qed.

Lemma loop_escaping_exceptions_witness :
  (IndexError = AttributeError \/ IndexError = IndexError \/
   IndexError = TypeError) /\
  is_IOError IndexError = false /\ skipped IndexError = false.
Proof.
  apply (loop_escaping_exceptions empty_vector_lines empty_batch
           (Batch [] [] [] 1)).
  - unfold empty_vector_lines.
    repeat (apply List.Forall_cons;
            [right; eexists; vm_compute; reflexivity|]).
    apply List.Forall_nil.
  - vm_compute. reflexivity.
Defined.

Lemma process_lines_pbar (lines : list pystr) (b b' : batch)
    (r : result unit) :
  process_lines lines b = (b', r) ->
  (pbar b' <= pbar b + length lines)%nat /\
  (r = Ok tt -> pbar b' = (pbar b + length lines)%nat) /\
  (forall e, r = Raise e -> (pbar b < pbar b')%nat).
Proof.
  revert b. induction lines as [|line rest IH]; intros b; cbn [process_lines].
  - intros H; inversion H; subst. cbn [length].
    split_and!; [lia | intros; lia | discriminate].
  - pose proof (process_line_pbar line b) as Hp.
    destruct (process_line line b) as [b1 [[]|e1]]; cbn [fst] in Hp.
    + intros H. apply IH in H as (H1 & H2 & H3). cbn [length].
      split_and!; [lia | intros Hr; specialize (H2 Hr); lia |].
      intros e He. specialize (H3 e He). lia.
    + intros H; inversion H; subst. cbn [length].
      split_and!; [lia | discriminate | intros; lia].
Qed.

(** X7. The progress counter advances by one for every line the loop
    reaches, whatever the line's outcome: by the number of lines when the
    loop ends normally, and past the offending line when it is left by an
    exception. *)
Theorem progress_counts_lines (lines : list pystr) (b b' : batch)
    (r : result unit) :
  process_lines lines b = (b', r) ->
  (pbar b' <= pbar b + length lines)%nat /\
  (r = Ok tt -> pbar b' = (pbar b + length lines)%nat) /\
  (forall e, r = Raise e -> (pbar b < pbar b')%nat).
Proof. apply process_lines_pbar. Qed.

Lemma progress_counts_lines_witness :
  pbar (process_lines example_lines empty_batch).1 = 4%nat /\
  (0 < pbar (process_lines empty_vector_lines empty_batch).1)%nat.
Proof.
  split.
  - apply (proj1 (proj2 (progress_counts_lines example_lines empty_batch
             (process_lines example_lines empty_batch).1 (Ok tt)
             ltac:(vm_compute; reflexivity)))).
    reflexivity.
  - apply (proj2 (proj2 (progress_counts_lines empty_vector_lines empty_batch
             (process_lines empty_vector_lines empty_batch).1 (Raise IndexError)
             ltac:(vm_compute; reflexivity))) IndexError).
    reflexivity.
Defined.

Lemma process_lines_accounted (lines : list pystr) (b b' : batch) :
  process_lines lines b = (b', Ok tt) ->
  (length (warnings b') + length (docids b') =
   length (warnings b) + length (docids b) + length lines)%nat.
Proof.
  revert b. induction lines as [|line rest IH]; intros b; cbn [process_lines].
  - intros H; inversion H; subst. cbn [length]. lia.
  - destruct (process_line line b) as [b1 [[]|e1]] eqn:E; [|discriminate].
    apply process_line_accounted in E.
    intros H. apply IH in H. cbn [length]. lia.
Qed.

(** X8. When the loop ends normally every line is accounted for once: it
    has either added a row to [docids] or logged one warning. *)
Theorem lines_accounted (lines : list pystr) (b b' : batch) :
  process_lines lines b = (b', Ok tt) ->
  (length (warnings b') + length (docids b') =
   length (warnings b) + length (docids b) + length lines)%nat.
Proof. apply process_lines_accounted. Qed.

Lemma lines_accounted_witness :
  (length (warnings (process_lines example_lines empty_batch).1) +
   length (docids (process_lines example_lines empty_batch).1) = 0 + 0 + 4)%nat.
Proof.
  apply (lines_accounted example_lines empty_batch). vm_compute. reflexivity.
Defined.

Lemma process_lines_vectors_content (lines : list pystr) (b b' : batch) :
  process_lines lines b = (b', Ok tt) ->
  vectors b' = vectors b ++ omap record_vector lines.
Proof.
  revert b. induction lines as [|line rest IH]; intros b; cbn [process_lines].
  - intros H; inversion H; subst. cbn [omap list_omap]. rewrite app_nil_r.
    reflexivity.
  - pose proof (process_line_vectors_content line b) as Hv.
    destruct (process_line line b) as [b1 [[]|e]]; [|discriminate].
    intros H. apply IH in H. cbn [fst] in Hv. rewrite H, Hv.
    cbn [omap list_omap]. rewrite <- app_assoc.
    destruct (record_vector line); reflexivity.
Qed.

Lemma process_lines_lengths (lines : list pystr) (b b' : batch)
    (r : result unit) :
  process_lines lines b = (b', r) ->
  (length (docids b') + length (vectors b) <=
   length (vectors b') + length (docids b))%nat.
Proof.
  revert b. induction lines as [|line rest IH]; intros b; cbn [process_lines].
  - intros H; inversion H; subst. lia.
  - pose proof (process_line_vectors line b) as Hv.
    pose proof (process_line_docids line b) as Hd.
    assert (Hle : (length (docids (process_line line b).1) + length (vectors b)
                   <= length (vectors (process_line line b).1)
                      + length (docids b))%nat).
    { rewrite Hv, Hd, length_app. unfold record_docid.
      destruct (valid_record line); [|simpl; lia].
      destruct (rbind _ _); simpl; lia. }
    destruct (process_line line b) as [b1 [[]|e]]; cbn [fst] in Hle.
    + intros H. apply IH in H. lia.
    + intros H; inversion H; subst. exact Hle.
Qed.

(** X9. At every exit of the loop [docids] is at most as long as
    [vectors]; when the loop ends normally on a file in which every valid
    record has a docid the transform accepts, the two have the same
    length. *)
Theorem docids_at_most_vectors (lines : list pystr) (b : batch)
    (r : result unit) :
  process_lines lines empty_batch = (b, r) ->
  (length (docids b) <= length (vectors b))%nat /\
  (r = Ok tt ->
   (forall line, In line lines -> valid_record line = true ->
      record_docid line <> None) ->
   length (vectors b) = length (docids b)).
Proof.
  intros H. split.
  - apply process_lines_lengths in H. cbn [vectors docids empty_batch length] in H.
    lia.
  - intros -> Hall. exact (process_lines_aligned lines b H Hall).
Qed.

Lemma docids_at_most_vectors_witness :
  (length (docids (process_lines missing_docid_lines empty_batch).1) <=
   length (vectors (process_lines missing_docid_lines empty_batch).1))%nat /\
  length (vectors (process_lines example_lines empty_batch).1) =
  length (docids (process_lines example_lines empty_batch).1).
Proof.
  split.
  - apply (proj1 (docids_at_most_vectors missing_docid_lines _ (Ok tt)
                    ltac:(vm_compute; reflexivity))).
  - apply (proj2 (docids_at_most_vectors example_lines
                    (process_lines example_lines empty_batch).1 (Ok tt)
                    ltac:(vm_compute; reflexivity)) eq_refl).
    intros line Hin Hv. unfold example_lines in Hin. cbn [In] in Hin.
    destruct Hin as [<-|[<-|[<-|[<-|[]]]]]; vm_compute; discriminate.
Defined.

(** ** The contents of the vector tensor *)

Lemma mapM_length {A B} (f : A -> result B) (l : list A) (l' : list B) :
  mapM f l = Ok l' -> length l' = length l.
Proof.
  revert l'. induction l as [|x l IH]; intros l'; cbn [mapM].
  - intros H; inversion H; reflexivity.
  - destruct (f x); cbn [rbind]; [|discriminate].
    destruct (mapM f l) as [ys|]; cbn [rbind]; [|discriminate].
    intros H; inversion H; subst. cbn [length]. f_equal. apply IH. reflexivity.
Qed.

Lemma mapM_lookup {A B} (f : A -> result B) (l : list A) (l' : list B)
    (i : nat) (x : A) :
  mapM f l = Ok l' -> l !! i = Some x ->
  exists y, f x = Ok y /\ l' !! i = Some y.
Proof.
  revert l' i. induction l as [|a l IH]; intros l' i; cbn [mapM]; [discriminate|].
  destruct (f a) as [b|] eqn:Ea; cbn [rbind]; [|discriminate].
  destruct (mapM f l) as [ys|]; cbn [rbind]; [|discriminate].
  intros H Hi; inversion H; subst. destruct i as [|i].
  - cbn in Hi. injection Hi as <-. exists b. split; [exact Ea | reflexivity].
  - cbn in Hi. apply (IH ys i eq_refl Hi).
Qed.

Lemma mapM_singletons_gen {A B} (g : A -> result B) (h : A -> result (list B))
    (r : list A) :
  (forall x, h x = (f <- g x ;; Ok [f])) ->
  (rows <- mapM h r ;; Ok (concat rows)) = mapM g r.
Proof.
  intros Hh. induction r as [|x r IH]; [reflexivity|].
  cbn [mapM]. rewrite Hh. destruct (g x) as [f|]; cbn [rbind]; [|reflexivity].
  rewrite <- IH. destruct (mapM h r) as [rows|]; reflexivity.
Qed.

Lemma mapM_singletons (r : list json) :
  (rows <- mapM (recursive_store []) r ;; Ok (concat rows)) =
  mapM store_scalar r.
Proof. apply mapM_singletons_gen. reflexivity. Qed.

Lemma recursive_store_cons (n : nat) (sizes : list nat) (obj : json) :
  recursive_store (n :: sizes) obj =
  match iterate obj with
  | Raise e => Raise e
  | Ok items =>
      if Nat.eqb (length items) n
      then rows <- mapM (recursive_store sizes) items ;; Ok (concat rows)
      else Raise ValueError
  end.
Proof. reflexivity. Qed.

(** One row is stored when the vector has the length the shape says and
    every element converts. *)
Lemma recursive_store_row (m : nat) (v : json) (fs : list spec_float) :
  recursive_store [m] v = Ok fs ->
  vector_row v = Ok fs /\ length fs = m /\
  exists items, iterate v = Ok items /\ length items = m.
Proof.
  rewrite recursive_store_cons. unfold vector_row.
  destruct (iterate v) as [items|]; [|discriminate]. cbn [rbind].
  destruct (Nat.eqb (length items) m) eqn:El; [|discriminate].
  apply Nat.eqb_eq in El. rewrite mapM_singletons. intros H.
  split; [exact H|]. split; [|eauto].
  rewrite (mapM_length _ _ _ H). exact El.
Qed.

Lemma concat_row {A} (width : nat) (rows : list (list A)) (i : nat) (x : list A) :
  (forall y, In y rows -> length y = width) ->
  rows !! i = Some x ->
  take width (drop (i * width) (concat rows)) = x.
Proof.
  revert i. induction rows as [|y rows IH]; intros i Hw Hi; [discriminate|].
  cbn [concat]. destruct i as [|i].
  - cbn in Hi. injection Hi as ->. rewrite Nat.mul_0_l, drop_0.
    rewrite take_app_length'; [reflexivity | symmetry; apply Hw; left; reflexivity].
  - cbn in Hi. rewrite Nat.mul_succ_l, Nat.add_comm, <- drop_drop.
    replace (drop width (y ++ concat rows)) with (concat rows)
      by (rewrite <- (Hw y (or_introl eq_refl)), drop_app_length; reflexivity).
    apply IH; [|exact Hi]. intros z Hz. apply Hw. right. exact Hz.
Qed.

Lemma mapM_Forall {A B} (f : A -> result B) (P : B -> Prop) (l : list A)
    (l' : list B) :
  mapM f l = Ok l' -> (forall x y, f x = Ok y -> P y) -> forall y, In y l' -> P y.
Proof.
  revert l'. induction l as [|a l IH]; intros l'; cbn [mapM].
  - intros H; inversion H. intros _ y [].
  - destruct (f a) as [b|] eqn:Ea; cbn [rbind]; [|discriminate].
    destruct (mapM f l) as [ys|]; cbn [rbind]; [|discriminate].
    intros H Hf y Hy; inversion H; subst. destruct Hy as [<- | Hy].
    + apply (Hf a b Ea).
    + apply (IH ys eq_refl Hf y Hy).
Qed.

(** The tensor of a list of vectors that starts with a float-headed
    array: two dimensions, one row per vector, each row the vector's
    elements converted. *)
Lemma torch_tensor_float64_content (f : spec_float) (items : list json)
    (rest : list json) (t : tensor spec_float) :
  torch_tensor_float64 (JArr (JFloat f :: items) :: rest) = Ok t ->
  shape t = [S (length rest); S (length items)] /\
  forall i v,
    (JArr (JFloat f :: items) :: rest) !! i = Some v ->
    vector_row v = Ok (row t i) /\
    exists elems, iterate v = Ok elems /\ length elems = S (length items).
Proof.
  set (values := JArr (JFloat f :: items) :: rest).
  unfold torch_tensor_float64.
  change (compute_sizes MAX_DIMS (JArr values))
    with (Ok [length values; S (length items)] : result (list nat)).
  cbn [rbind]. rewrite recursive_store_cons. cbn [iterate].
  rewrite Nat.eqb_refl.
  destruct (mapM (recursive_store [S (length items)]) values) as [rows|] eqn:Er;
    cbn [rbind]; [|discriminate].
  intros H; inversion H; subst; clear H. split; [reflexivity|].
  intros i v Hi.
  destruct (mapM_lookup _ _ _ i v Er Hi) as (fs & Hfs & Hrow).
  apply recursive_store_row in Hfs as (Hv & Hl & Hit).
  split; [|exact Hit]. rewrite Hv. f_equal. symmetry.
  unfold row. cbn [shape data].
  apply concat_row; [|exact Hrow].
  apply (mapM_Forall _ _ _ _ Er). intros x y Hxy.
  apply recursive_store_row in Hxy. tauto.
Qed.

Lemma valid_record_vector (line : pystr) :
  valid_record line = true <-> is_Some (record_vector line).
Proof.
  unfold valid_record, record_vector.
  destruct (loads line) as [[]|]; try (split; [discriminate | intros [? ?]; discriminate]).
  destruct (dict_lookup pairs (py "vector")) as [[| | | | |[|[]]|]|];
    try (split; [discriminate | intros [? ?]; discriminate]).
  split; [eauto | reflexivity].
Qed.

Lemma record_vector_shape (line : pystr) (v : json) :
  record_vector line = Some v -> exists f items, v = JArr (JFloat f :: items).
Proof.
  unfold record_vector. repeat case_match; try discriminate.
  intros Hv; inversion Hv; eauto.
Qed.

Lemma omap_filter_lookup {A B} (P : A -> bool) (f : A -> option B)
    (l : list A) (i : nat) (x : A) :
  (forall a, In a l -> (P a = true <-> is_Some (f a))) ->
  List.filter P l !! i = Some x ->
  exists y, f x = Some y /\ omap f l !! i = Some y.
Proof.
  revert i. induction l as [|a l IH]; intros i Hall; [discriminate|].
  cbn [List.filter omap list_omap].
  assert (Hl : forall a', In a' l -> (P a' = true <-> is_Some (f a')))
    by (intros a' Ha'; apply Hall; right; exact Ha').
  pose proof (Hall a (or_introl eq_refl)) as Ha.
  destruct (P a) eqn:Ep.
  - destruct (proj1 Ha eq_refl) as [y Hy]. rewrite Hy.
    destruct i as [|i].
    + cbn. intros H; injection H as <-. eauto.
    + cbn. apply IH, Hl.
  - destruct (f a) as [y|] eqn:Ef.
    + discriminate (proj2 Ha (mk_is_Some _ _ eq_refl)).
    + apply IH, Hl.
Qed.

Lemma built_vector_rows (ls : list pystr) (b : batch)
    (vt : tensor spec_float) (dt : tensor Z) :
  process_lines ls empty_batch = (b, Ok tt) ->
  build_tensors b = Ok (vt, dt) ->
  exists m,
    shape vt = [count_valid ls; m] /\ (1 <= m)%nat /\
    forall i v,
      omap record_vector ls !! i = Some v ->
      vector_length v = Some m /\ vector_row v = Ok (row vt i).
Proof.
  intros Hloop Hb.
  destruct (built_tensors_have_rows ls b vt dt Hloop Hb) as [Hd Hv].
  pose proof (process_lines_vectors_content ls empty_batch b Hloop) as Hc.
  pose proof (process_lines_ok ls empty_batch b Hloop) as [Hl _].
  cbn [vectors empty_batch app length] in Hc, Hl.
  apply build_tensors_inv in Hb as [Ht _]. rewrite Hc in Ht, Hl.
  destruct (omap record_vector ls) as [|v0 rest] eqn:Eo.
  { exfalso. inversion Ht; subst. cbn in Hv. lia. }
  assert (Hin : elem_of v0 (omap record_vector ls)) by (rewrite Eo; left).
  apply list_elem_of_omap in Hin as (l0 & _ & Hv0).
  apply record_vector_shape in Hv0 as (f & items & ->).
  apply torch_tensor_float64_content in Ht as [Hshape Hrows].
  exists (S (length items)). cbn [length] in Hl.
  split; [rewrite Hshape; f_equal; simpl in Hl; lia|]. split; [lia|].
  intros i v Hi. destruct (Hrows i v Hi) as (Hrow & elems & Hit & Hlen).
  split; [|exact Hrow].
  assert (Hin : elem_of v (omap record_vector ls))
    by (rewrite Eo; apply list_elem_of_lookup; eauto).
  apply list_elem_of_omap in Hin as (l1 & _ & Hv1).
  apply record_vector_shape in Hv1 as (f1 & items1 & ->).
  cbn [iterate] in Hit. inversion Hit; subst.
  cbn [vector_length]. rewrite Hlen. reflexivity.
Qed.

Lemma built_docid_rows (ls : list pystr) (b : batch)
    (vt : tensor spec_float) (dt : tensor Z) :
  process_lines ls empty_batch = (b, Ok tt) ->
  build_tensors b = Ok (vt, dt) ->
  forall i codes,
    docid_rows ls !! i = Some codes ->
    row dt i = codes ++ repeat 0 (longest (docid_rows ls) - length codes).
Proof.
  intros Hloop Hb i codes Hi.
  apply build_tensors_inv in Hb as (_ & ts & Hts & Hpad).
  apply mapM_torch_tensor_int64 in Hts.
  apply process_lines_ok in Hloop as [_ Hd]. cbn [docids empty_batch app] in Hd.
  rewrite <- Hd, <- Hts in *.
  apply pad_sequence_rows in Hpad as [_ Hrows].
  rewrite list_lookup_fmap in Hi.
  destruct (ts !! i) as [x|] eqn:Hx; [|discriminate].
  cbn in Hi. injection Hi as <-. apply (Hrows i x Hx).
Qed.

(** X10. In the vector tensor that a run writes, row [i] holds the
    elements of the [i]-th valid record's vector, converted to [float64]
    (integers and booleans included); all these vectors have the same
    length, which is the number of columns. *)
Theorem vector_tensor_rows (p out : pystr) (overwrite : bool) (w w' : world) :
  process_file p out overwrite w = (w', Ok tt) ->
  exists t m,
    files w' !! vectors_path out p = Some (SafeTensors (py "vectors") (F64 t)) /\
    shape t = [count_valid (input_lines w p); m] /\ (1 <= m)%nat /\
    forall i line,
      valid_lines (input_lines w p) !! i = Some line ->
      exists v,
        record_vector line = Some v /\
        vector_length v = Some m /\
        vector_row v = Ok (row t i).
Proof.
  intros Hp. apply process_file_ok_inv in Hp
    as (o & ls & b & vt & dt & _ & Ho & Hread & Hloop & Hb & Hf & _).
  rewrite (input_lines_read w p o ls Ho Hread).
  destruct (built_vector_rows ls b vt dt Hloop Hb) as (m & Hshape & Hm & Hrows).
  exists vt, m. rewrite Hf.
  split; [apply saved_files_vectors|]. split; [exact Hshape|]. split; [exact Hm|].
  intros i line Hi.
  destruct (omap_filter_lookup valid_record record_vector ls i line) as (v & Hv & Ho');
    [intros a _; apply valid_record_vector | exact Hi |].
  exists v. split; [exact Hv|]. apply (Hrows i v Ho').
Qed.

Lemma vector_tensor_rows_witness :
  exists t,
    files (process_file example_input example_output false
             (world_of aligned_lines)).1
      !! vectors_path example_output example_input =
      Some (SafeTensors (py "vectors") (F64 t)) /\
    shape t = [2%nat; 2%nat] /\
    row t 1 = [S754_finite false 6755399441055744 (-52);
               S754_finite false 4503599627370496 (-52)].
Proof.
  assert (H : process_file example_input example_output false
                (world_of aligned_lines) =
              ((process_file example_input example_output false
                  (world_of aligned_lines)).1, Ok tt))
    by (vm_compute; reflexivity).
  destruct (vector_tensor_rows _ _ _ _ _ H) as (t & m & Hf & Hs & _ & Hrows).
  destruct (Hrows 1%nat (dq "{'vector': [1.5, true], 'docid': 'c'}") eq_refl)
    as (v & Hv & Hlen & Hrow).
  vm_compute in Hv. injection Hv as <-. vm_compute in Hlen. injection Hlen as <-.
  vm_compute in Hrow. injection Hrow as Hrow.
  exists t. split; [exact Hf|]. split; [exact Hs|]. symmetry. exact Hrow.
Defined.

(** X11. A file with two valid records whose vectors differ in length is
    refused: the run raises and writes nothing. *)
Theorem ragged_vectors_rejected (p out : pystr) (overwrite : bool) (w : world)
    (l1 l2 : pystr) (v1 v2 : json) :
  In l1 (input_lines w p) -> In l2 (input_lines w p) ->
  record_vector l1 = Some v1 -> record_vector l2 = Some v2 ->
  vector_length v1 <> vector_length v2 ->
  exists w' e,
    process_file p out overwrite w = (w', Raise e) /\
    files w' = files w /\
    List.filter is_save (io w') = List.filter is_save (io w).
Proof.
  intros H1 H2 Hv1 Hv2 Hne.
  destruct (process_file_stages p out overwrite w)
    as [H | (o & ls & b & vt & dt & w2 & H)]; [exact H|].
  exfalso. destruct H as (_ & _ & Ho & Hread & Hloop & Hb & _).
  rewrite (input_lines_read w p o ls Ho Hread) in H1, H2.
  destruct (built_vector_rows ls b vt dt Hloop Hb) as (m & _ & _ & Hrows).
  assert (Hm : forall l v, In l ls -> record_vector l = Some v ->
                 vector_length v = Some m).
  { intros l v Hl Hv.
    assert (Hin : elem_of v (omap record_vector ls))
      by (apply list_elem_of_omap; exists l; split;
          [apply list_elem_of_In; exact Hl | exact Hv]).
    apply list_elem_of_lookup in Hin as [i Hi]. apply (Hrows i v Hi). }
  apply Hne. rewrite (Hm l1 v1 H1 Hv1), (Hm l2 v2 H2 Hv2). reflexivity.
Qed.

Lemma ragged_vectors_rejected_witness :
  exists w' e,
    process_file example_input example_output true (world_of ragged_lines) =
      (w', Raise e) /\
    files w' = files (world_of ragged_lines).
Proof.
  destruct (ragged_vectors_rejected example_input example_output true
              (world_of ragged_lines)
              (dq "{'vector': [0.1, 0.2], 'docid': 'a'}")
              (dq "{'vector': [0.5], 'docid': 'b'}")
              (JArr [JFloat (S754_finite false 7205759403792794 (-56));
                     JFloat (S754_finite false 7205759403792794 (-55))])
              (JArr [JFloat (S754_finite false 4503599627370496 (-53))]))
    as (w' & e & Hp & Hf & _).
  - left. reflexivity.
  - right. left. reflexivity.
  - vm_compute. reflexivity.
  - vm_compute. reflexivity.
  - vm_compute. discriminate.
  - exists w', e. split; [exact Hp | exact Hf].
Defined.

Lemma record_docid_valid (line : pystr) :
  is_Some (record_docid line) -> valid_record line = true.
Proof.
  unfold record_docid. destruct (valid_record line); [reflexivity|].
  intros [? ?]; discriminate.
Qed.

(** X12. For a file in which every valid record has a docid that the
    transform accepts, row [i] of the vector tensor and row [i] of the
    identifier tensor that a run writes both come from the [i]-th valid
    line: its vector converted, and its docid codes followed by zeros. *)
Theorem rows_aligned (p out : pystr) (overwrite : bool) (w w' : world) :
  process_file p out overwrite w = (w', Ok tt) ->
  (forall line, In line (input_lines w p) -> valid_record line = true ->
     record_docid line <> None) ->
  exists vt dt,
    files w' !! vectors_path out p = Some (SafeTensors (py "vectors") (F64 vt)) /\
    files w' !! docids_path out p = Some (SafeTensors (py "docids") (I64 dt)) /\
    nrows vt = nrows dt /\
    forall i line,
      valid_lines (input_lines w p) !! i = Some line ->
      exists v codes,
        record_vector line = Some v /\
        record_docid line = Some codes /\
        vector_row v = Ok (row vt i) /\
        row dt i =
          codes ++ repeat 0 (longest (docid_rows (input_lines w p)) - length codes).
Proof.
  intros Hp Hall. apply process_file_ok_inv in Hp
    as (o & ls & b & vt & dt & _ & Ho & Hread & Hloop & Hb & Hf & _).
  rewrite (input_lines_read w p o ls Ho Hread) in *.
  destruct (built_vector_rows ls b vt dt Hloop Hb) as (m & Hshape & Hm & Hrows).
  exists vt, dt. rewrite Hf.
  split; [apply saved_files_vectors|]. split; [apply saved_files_docids|].
  split.
  - pose proof (process_lines_aligned ls b Hloop Hall) as Hlen.
    pose proof Hb as Hb'.
    apply build_tensors_inv in Hb' as (Hv & ts & Hts & Hpad).
    rewrite (torch_tensor_float64_rows _ _ Hv), Hlen.
    apply mapM_torch_tensor_int64 in Hts.
    apply pad_sequence_rows in Hpad as [Hs _].
    unfold nrows. rewrite Hs. cbn [hd]. rewrite <- Hts, length_map. reflexivity.
  - intros i line Hi.
    destruct (omap_filter_lookup valid_record record_vector ls i line)
      as (v & Hv & Hov); [intros a _; apply valid_record_vector | exact Hi |].
    destruct (omap_filter_lookup valid_record record_docid ls i line)
      as (codes & Hc & Hoc); [|exact Hi|].
    { intros a Ha. split; [|apply record_docid_valid].
      intros Hva. specialize (Hall a Ha Hva).
      destruct (record_docid a); [eauto | congruence]. }
    exists v, codes. split; [exact Hv|]. split; [exact Hc|].
    split; [apply (Hrows i v Hov)|].
    apply (built_docid_rows ls b vt dt Hloop Hb i codes Hoc).
Qed.

Lemma rows_aligned_witness :
  exists vt dt,
    files (process_file example_input example_output false
             (world_of aligned_lines)).1
      !! vectors_path example_output example_input =
      Some (SafeTensors (py "vectors") (F64 vt)) /\
    files (process_file example_input example_output false
             (world_of aligned_lines)).1
      !! docids_path example_output example_input =
      Some (SafeTensors (py "docids") (I64 dt)) /\
    row vt 1 = [S754_finite false 6755399441055744 (-52);
                S754_finite false 4503599627370496 (-52)] /\
    row dt 1 = [99; 0].
Proof.
  assert (H : process_file example_input example_output false
                (world_of aligned_lines) =
              ((process_file example_input example_output false
                  (world_of aligned_lines)).1, Ok tt))
    by (vm_compute; reflexivity).
  destruct (rows_aligned _ _ _ _ _ H) as (vt & dt & Hfv & Hfd & _ & Hrows).
  { intros line Hin Hv.
    change (input_lines (world_of aligned_lines) example_input)
      with aligned_lines in Hin. unfold aligned_lines in Hin. cbn [In] in Hin.
    destruct Hin as [<-|[<-|[<-|[]]]];
      first [vm_compute; discriminate | vm_compute in Hv; discriminate]. }
  destruct (Hrows 1%nat (dq "{'vector': [1.5, true], 'docid': 'c'}") eq_refl)
    as (v & codes & Hv & Hc & Hrow & Hdrow).
  vm_compute in Hv. injection Hv as <-. vm_compute in Hc. injection Hc as <-.
  vm_compute in Hrow. injection Hrow as Hrow.
  exists vt, dt. split; [exact Hfv|]. split; [exact Hfd|].
  split; [symmetry; exact Hrow|]. rewrite Hdrow. vm_compute. reflexivity.
Defined.

(** ** The effects of a run *)

Lemma save_file_outcome (key : pystr) (t : tensor_data) (path : pystr) (w : world) :
  (~ unwritable w path /\
   save_file key t path w =
     (World (<[path := SafeTensors key t]> (files w)) (writable w) (log w)
        (io w ++ [IoSave path]), Ok tt)) \/
  (unwritable w path /\
   save_file key t path w = (trace [IoSave path] w, Raise SafetensorError)).
Proof.
  unfold unwritable.
  destruct (save_file_cases key t path w) as [(Hd & Hw & ->) | [Hc ->]].
  - left. split; [|reflexivity]. intros [H | H]; congruence.
  - right. split; [exact Hc | reflexivity].
Qed.

(** Lines 94-117 in full: the two saves and the two loads, or the first
    save that fails. *)
Lemma save_and_verify_outcome (vt : tensor spec_float) (dt : tensor Z)
    (vpath dpath ipath : pystr) (w : world) :
  vpath <> dpath ->
  (~ unwritable w vpath /\ ~ unwritable w dpath /\
   save_and_verify vt dt vpath dpath ipath w =
     (World (saved_files vt dt vpath dpath (files w)) (writable w)
        (log w ++ confirmations vpath dpath vt dt)
        (io w ++ [IoSave vpath; IoSave dpath; IoLoad vpath; IoLoad dpath]),
      Ok tt)) \/
  (unwritable w vpath /\
   save_and_verify vt dt vpath dpath ipath w =
     (trace [IoSave vpath] w, Raise SafetensorError)) \/
  (~ unwritable w vpath /\ unwritable w dpath /\
   save_and_verify vt dt vpath dpath ipath w =
     (World (<[vpath := SafeTensors (py "vectors") (F64 vt)]> (files w))
        (writable w) (log w) (io w ++ [IoSave vpath; IoSave dpath]),
      Raise SafetensorError)).
Proof.
  intros Hne. unfold save_and_verify, save_tensors.
  destruct (save_file_outcome (py "vectors") (F64 vt) vpath w)
    as [(Hv & ->) | (Hv & ->)].
  2:{ right. left. split; [exact Hv | reflexivity]. }
  set (w1 := World _ _ _ _).
  assert (Hd1 : unwritable w1 dpath <-> unwritable w dpath).
  { unfold unwritable, w1. cbn [files writable].
    rewrite lookup_insert_ne by exact Hne. reflexivity. }
  destruct (save_file_outcome (py "docids") (I64 dt) dpath w1)
    as [(Hd & ->) | (Hd & ->)].
  2:{ right. right. split; [exact Hv|]. split; [apply Hd1, Hd|].
      cbn [is_IOError]. unfold trace, w1. cbn [files writable log io].
      rewrite <- app_assoc. reflexivity. }
  left. split; [exact Hv|]. split; [rewrite <- Hd1; exact Hd|].
  subst w1. unfold verify_tensors, load_file, logging, logging_all, saved_files,
    confirmations.
  cbn [files writable log io trace].
  rewrite lookup_insert_ne by congruence. rewrite lookup_insert_eq.
  rewrite str_eqb_refl. cbn [files writable log io trace].
  rewrite lookup_insert_eq. rewrite str_eqb_refl.
  cbn [files writable log io trace]. rewrite <- !app_assoc. reflexivity.
Qed.

(** Once the checks have passed, the lines were read and the tensors
    built, [process_file] is the saving and loading of lines 94-117 in the
    world the reading has left. *)
Lemma process_file_run_exact (p out : pystr) (overwrite : bool) (w : world)
    (o : opener) (ls : list pystr) (b : batch)
    (vt : tensor spec_float) (dt : tensor Z) :
  os_path_exists w p = true ->
  (overwrite = true \/
   os_path_exists w (vectors_path out p) = false /\
   os_path_exists w (docids_path out p) = false) ->
  file_opener p = Some o ->
  open_and_read w o p = Ok ls ->
  process_lines ls empty_batch = (b, Ok tt) ->
  build_tensors b = Ok (vt, dt) ->
  process_file p out overwrite w =
    save_and_verify vt dt (vectors_path out p) (docids_path out p) p
      (after_reading o p ls b w).
Proof.
  intros Hex Hov Ho Hread Hloop Hb.
  unfold process_file. rewrite Hex. cbn [negb].
  replace (negb overwrite && _) with false
    by (destruct Hov as [-> | [-> ->]]; [reflexivity|];
        destruct overwrite; reflexivity).
  rewrite Ho. unfold count_lines. rewrite Hread.
  unfold read_batch.
  rewrite (open_and_read_files w (trace _ w)) by reflexivity.
  rewrite Hread, Hloop, Hb. reflexivity.
Qed.

Lemma process_lines_pbar_all (ls : list pystr) (b : batch) :
  process_lines ls empty_batch = (b, Ok tt) -> take (pbar b) ls = ls.
Proof.
  intros H. apply process_lines_pbar in H as (_ & H & _).
  rewrite (H eq_refl). cbn [pbar empty_batch Nat.add]. apply firstn_all.
Qed.

Lemma mapM_raises {A B} (f : A -> result B) (P : exn -> Prop) (l : list A)
    (e : exn) :
  (forall x e', f x = Raise e' -> P e') -> mapM f l = Raise e -> P e.
Proof.
  intros Hf. induction l as [|x l IH]; cbn [mapM]; [discriminate|].
  destruct (f x) as [y|e'] eqn:Ex; cbn [rbind].
  - destruct (mapM f l); cbn [rbind]; [discriminate|].
    intros H; inversion H; subst. apply IH. reflexivity.
  - intros H; inversion H; subst. apply (Hf x e Ex).
Qed.

Lemma compute_sizes_raises (fuel : nat) (seq : json) (e : exn) :
  compute_sizes fuel seq = Raise e -> e = ValueError.
Proof.
  revert seq. induction fuel as [|fuel IH]; intros seq; cbn [compute_sizes];
    destruct (sequence_items seq) as [[|x items]|]; try discriminate;
    try (intros H; inversion H; reflexivity).
  destruct (compute_sizes fuel x) eqn:E; cbn [rbind]; [discriminate|].
  intros H; inversion H; subst. apply (IH x E).
Qed.

Lemma store_scalar_raises (obj : json) (e : exn) :
  store_scalar obj = Raise e -> e = TypeError \/ e = OverflowError.
Proof.
  unfold store_scalar, float_of_int.
  repeat case_match; intros Hx; inversion Hx; auto.
Qed.

Lemma recursive_store_raises (sizes : list nat) (obj : json) (e : exn) :
  recursive_store sizes obj = Raise e ->
  e = TypeError \/ e = ValueError \/ e = OverflowError.
Proof.
  revert obj e. induction sizes as [|n sizes IH]; intros obj e.
  - cbn [recursive_store].
    destruct (store_scalar obj) eqn:E; cbn [rbind]; [discriminate|].
    intros H; inversion H; subst. apply store_scalar_raises in E. tauto.
  - rewrite recursive_store_cons.
    destruct (iterate obj) as [items|e'] eqn:Ei.
    + destruct (Nat.eqb (length items) n); [|intros H; inversion H; auto].
      destruct (mapM (recursive_store sizes) items) eqn:Em; cbn [rbind];
        [discriminate|].
      intros H; inversion H; subst.
      apply (mapM_raises _ _ _ _ (fun x e' => IH x e') Em).
    + intros H; inversion H; subst.
      destruct obj; try discriminate; inversion Ei; auto.
Qed.

Lemma build_tensors_raises (b : batch) (e : exn) :
  build_tensors b = Raise e ->
  e = TypeError \/ e = ValueError \/ e = OverflowError \/ e = RuntimeError.
Proof.
  unfold build_tensors, torch_tensor_float64.
  destruct (compute_sizes MAX_DIMS (JArr (vectors b))) as [sizes|e1] eqn:E1;
    cbn [rbind].
  2:{ intros H; inversion H; subst. apply compute_sizes_raises in E1. auto. }
  destruct (recursive_store sizes (JArr (vectors b))) as [d|e2] eqn:E2;
    cbn [rbind].
  2:{ intros H; inversion H; subst. apply recursive_store_raises in E2. tauto. }
  destruct (mapM torch_tensor_int64 (docids b)) as [ts|e3] eqn:E3; cbn [rbind].
  2:{ intros H; inversion H; subst. right. right. right.
      apply (mapM_raises _ (fun e => e = RuntimeError) _ _) in E3; [exact E3|].
      intros x e'. unfold torch_tensor_int64.
      destruct (forallb int64_ok x); intros H'; inversion H'; reflexivity. }
  destruct ts; cbn [pad_sequence rbind]; [|discriminate].
  intros H; inversion H; auto.
Qed.

(** The two ways a run goes: it fails before it saves anything, or the
    tensors are built and the rest is the saving and loading. *)
Lemma process_file_cases (p out : pystr) (overwrite : bool) (w : world) :
  (exists w' e,
     process_file p out overwrite w = (w', Raise e) /\
     files w' = files w /\
     List.filter is_save (io w') = List.filter is_save (io w)) \/
  (exists o ls b vt dt,
     os_path_exists w p = true /\
     file_opener p = Some o /\
     open_and_read w o p = Ok ls /\
     process_lines ls empty_batch = (b, Ok tt) /\
     build_tensors b = Ok (vt, dt) /\
     process_file p out overwrite w =
       save_and_verify vt dt (vectors_path out p) (docids_path out p) p
         (after_reading o p ls b w)).
Proof.
  destruct (process_file_stages p out overwrite w)
    as [H | (o & ls & b & vt & dt & w2 & H)]; [left; exact H|].
  destruct H as (Hex & Hov & Ho & Hread & Hloop & Hb & _).
  right. exists o, ls, b, vt, dt. split_and!; try assumption.
  apply process_file_run_exact; assumption.
Qed.

(** ** The checks on the paths *)

(** X13. An input path that does not exist is refused first: the run
    raises [FileNotFoundError] whatever the extension, the overwrite flag
    and the state of the output paths, logs one error and reads and writes
    nothing. *)
Theorem missing_input_first (p out : pystr) (overwrite : bool) (w : world) :
  os_path_exists w p = false ->
  process_file p out overwrite w =
    (logging ERROR (InputNotFound p) w, Raise FileNotFoundError) /\
  files (process_file p out overwrite w).1 = files w /\
  io (process_file p out overwrite w).1 = io w.
Proof.
  intros H. unfold process_file. rewrite H. split_and!; reflexivity.
Qed.

Lemma missing_input_first_witness :
  process_file (py "in/gone.txt") example_output false world_with_output =
    (logging ERROR (InputNotFound (py "in/gone.txt")) world_with_output,
     Raise FileNotFoundError).
Proof.
  apply (missing_input_first (py "in/gone.txt") example_output false
           world_with_output).
  vm_compute. reflexivity.
Defined.

(** ** What a run changes and what it leaves *)

Lemma saved_files_frame (vt : tensor spec_float) (dt : tensor Z)
    (vpath dpath k : pystr) (fs : gmap pystr file) :
  k <> vpath -> k <> dpath -> saved_files vt dt vpath dpath fs !! k = fs !! k.
Proof.
  intros H1 H2. unfold saved_files.
  rewrite !lookup_insert_ne by congruence. reflexivity.
Qed.

Lemma process_file_frame (p out : pystr) (overwrite : bool) (w w' : world)
    (r : result unit) :
  process_file p out overwrite w = (w', r) ->
  (forall k, k <> vectors_path out p -> k <> docids_path out p ->
     files w' !! k = files w !! k) /\
  files w' !! p = files w !! p.
Proof.
  intros Hp.
  destruct (process_file_cases p out overwrite w)
    as [(w1 & e & Hp1 & Hf & _) | (o & ls & b & vt & dt & H)].
  { rewrite Hp in Hp1. injection Hp1 as -> ->. rewrite Hf.
    split; [intros; reflexivity | reflexivity]. }
  destruct H as (_ & Ho & _ & _ & _ & Hrun).
  assert (Hframe : forall k, k <> vectors_path out p -> k <> docids_path out p ->
            files w' !! k = files w !! k).
  { intros k Hk1 Hk2. rewrite Hp in Hrun.
    destruct (save_and_verify_outcome vt dt (vectors_path out p)
                (docids_path out p) p (after_reading o p ls b w)
                (vectors_docids_path_ne out p))
      as [(_ & _ & Hs) | [(_ & Hs) | (_ & _ & Hs)]];
      rewrite Hs in Hrun; injection Hrun as -> _; cbn [files trace].
    - apply saved_files_frame; assumption.
    - reflexivity.
    - rewrite lookup_insert_ne by congruence. reflexivity. }
  split; [exact Hframe|]. apply Hframe.
  - apply (input_not_vectors_path out p o Ho).
  - apply (input_not_docids_path out p o Ho).
Qed.

Lemma unwritable_after_reading (o : opener) (p : pystr) (ls : list pystr)
    (b : batch) (w : world) (k : pystr) :
  unwritable (after_reading o p ls b w) k <-> unwritable w k.
Proof. reflexivity. Qed.

(** X15. A run that raises has written nothing, or only the vector file:
    the latter when the identifier file could not be written, and then the
    vector file stays behind without its identifiers. *)
Theorem failed_run_files (p out : pystr) (overwrite : bool) (w w' : world)
    (e : exn) :
  process_file p out overwrite w = (w', Raise e) ->
  files w' = files w \/
  exists vt,
    files w' =
      <[vectors_path out p := SafeTensors (py "vectors") (F64 vt)]> (files w) /\
    e = SafetensorError /\
    unwritable w (docids_path out p) /\
    files w' !! docids_path out p = files w !! docids_path out p.
Proof.
  intros Hp.
  destruct (process_file_cases p out overwrite w)
    as [(w1 & e1 & Hp1 & Hf & _) | (o & ls & b & vt & dt & H)].
  { rewrite Hp in Hp1. injection Hp1 as -> ->. left. exact Hf. }
  destruct H as (_ & _ & _ & _ & _ & Hrun). rewrite Hp in Hrun.
  destruct (save_and_verify_outcome vt dt (vectors_path out p)
              (docids_path out p) p (after_reading o p ls b w)
              (vectors_docids_path_ne out p))
    as [(_ & _ & Hs) | [(_ & Hs) | (_ & Hd & Hs)]];
    rewrite Hs in Hrun; [discriminate | |].
  - injection Hrun as -> _. left. reflexivity.
  - injection Hrun as -> ->. right. exists vt. cbn [files].
    split; [reflexivity|]. split; [reflexivity|].
    split; [apply (unwritable_after_reading o p ls b w), Hd|].
    apply lookup_insert_ne, vectors_docids_path_ne.
Qed.

Lemma failed_run_files_witness :
  (process_file example_input example_output false
     unwritable_docids_world).2 = Raise SafetensorError /\
  exists vt,
    files (process_file example_input example_output false
             unwritable_docids_world).1 =
      <[vectors_path example_output example_input :=
          SafeTensors (py "vectors") (F64 vt)]>
        (files unwritable_docids_world).
Proof.
  assert (H : process_file example_input example_output false
                unwritable_docids_world =
              ((process_file example_input example_output false
                  unwritable_docids_world).1, Raise SafetensorError))
    by (vm_compute; reflexivity).
  split; [vm_compute; reflexivity|].
  destruct (failed_run_files _ _ _ _ _ _ H) as [Hf | (vt & Hf & _)].
  - exfalso. apply (f_equal (fun m => m !! vectors_path example_output
                                         example_input)) in Hf.
    vm_compute in Hf. discriminate.
  - exists vt. exact Hf.
Defined.

(** X16. After a run that returned, a run on the same input without the
    overwrite flag raises [FileExistsError] and reads and writes nothing. *)
Theorem rerun_without_overwrite_fails (p out : pystr) (overwrite : bool)
    (w w1 : world) :
  process_file p out overwrite w = (w1, Ok tt) ->
  exists w2,
    process_file p out false w1 = (w2, Raise FileExistsError) /\
    files w2 = files w1 /\ io w2 = io w1.
Proof.
  intros Hp.
  pose proof (process_file_frame p out overwrite w w1 (Ok tt) Hp) as [_ Hin].
  apply process_file_ok_inv in Hp
    as (o & ls & b & vt & dt & Hex & _ & _ & _ & _ & Hf & _).
  unfold process_file.
  replace (os_path_exists w1 p) with true
    by (unfold os_path_exists in *; rewrite Hin; symmetry; exact Hex).
  replace (os_path_exists w1 (vectors_path out p)) with true
    by (unfold os_path_exists; rewrite Hf, saved_files_vectors; reflexivity).
  cbn [negb andb orb]. eexists. split_and!; reflexivity.
Qed.

Lemma rerun_without_overwrite_fails_witness :
  exists w2,
    process_file example_input example_output false
      (process_file example_input example_output false
         (world_of example_lines)).1 = (w2, Raise FileExistsError) /\
    files w2 =
    files (process_file example_input example_output false
             (world_of example_lines)).1.
Proof.
  destruct (rerun_without_overwrite_fails example_input example_output false
              (world_of example_lines)
              (process_file example_input example_output false
                 (world_of example_lines)).1) as (w2 & H1 & H2 & _).
  - vm_compute. reflexivity.
  - exists w2. split; [exact H1 | exact H2].
Defined.

(** X17. Input files whose names differ only in their suffix ([a.json],
    [a.jsonl], [a.json.gz], ...) have the same two output paths: after a run
    on one of them has returned, a run on another without the overwrite
    flag raises [FileExistsError], and with the flag it replaces the first
    one's tensors. *)
Theorem suffix_collision (p1 p2 out stem s1 s2 : pystr) :
  basename p1 = stem ++ s1 ->
  basename p2 = stem ++ s2 ->
  contains stem (py ".jsonl") = false ->
  contains stem (py ".gz") = false ->
  contains stem (py ".json") = false ->
  In s1 input_suffixes -> In s2 input_suffixes ->
  vectors_path out p1 = vectors_path out p2 /\
  docids_path out p1 = docids_path out p2 /\
  forall overwrite w w1,
    process_file p1 out overwrite w = (w1, Ok tt) ->
    os_path_exists w1 p2 = true ->
    exists w2,
      process_file p2 out false w1 = (w2, Raise FileExistsError) /\
      files w2 = files w1.
Proof.
  intros Hb1 Hb2 Hc1 Hc2 Hc3 Hs1 Hs2.
  assert (E1 : base_name p1 = stem)
    by (apply (base_name_of_suffixed p1 stem s1); assumption).
  assert (E2 : base_name p2 = stem)
    by (apply (base_name_of_suffixed p2 stem s2); assumption).
  assert (Hv : vectors_path out p1 = vectors_path out p2)
    by (unfold vectors_path; rewrite E1, E2; reflexivity).
  assert (Hd : docids_path out p1 = docids_path out p2)
    by (unfold docids_path; rewrite E1, E2; reflexivity).
  split; [exact Hv|]. split; [exact Hd|].
  intros overwrite w w1 Hp Hex2.
  apply process_file_ok_inv in Hp
    as (o & ls & b & vt & dt & _ & _ & _ & _ & _ & Hf & _).
  unfold process_file. rewrite Hex2.
  replace (os_path_exists w1 (vectors_path out p2)) with true
    by (unfold os_path_exists; rewrite <- Hv, Hf, saved_files_vectors;
        reflexivity).
  cbn [negb andb orb]. eexists. split; reflexivity.
Qed.

Lemma suffix_collision_witness :
  vectors_path example_output (py "in/a.jsonl") =
  vectors_path example_output (py "in/a.json") /\
  exists w2,
    process_file (py "in/a.json") example_output false
      (process_file (py "in/a.jsonl") example_output false two_suffix_world).1 =
      (w2, Raise FileExistsError).
Proof.
  destruct (suffix_collision (py "in/a.jsonl") (py "in/a.json") example_output
              (py "a") (py ".jsonl") (py ".json"))
    as (Hv & _ & Hrun); try reflexivity;
    try (unfold input_suffixes; cbn [In]; tauto).
  split; [exact Hv|].
  destruct (Hrun false two_suffix_world
              (process_file (py "in/a.jsonl") example_output false
                 two_suffix_world).1) as (w2 & H & _);
    [vm_compute; reflexivity | vm_compute; reflexivity |].
  exists w2. exact H.
Defined.

(** ** The exceptions of a run *)

Lemma open_and_read_raises (w : world) (o : opener) (p : pystr) (e : exn) :
  open_and_read w o p = Raise e ->
  is_IOError e = true \/ e = UnicodeDecodeError.
Proof.
  unfold open_and_read, read_lines.
  repeat case_match; intros Hx; inversion Hx; auto.
Qed.

(** X18. A run never ends with [JSONDecodeError] or [KeyError], which the
    loop swallows, nor with [BadGzipFile] or [IsADirectoryError], which
    the handler around the loop turns into [IOError]. *)
Theorem surfaced_exceptions (p out : pystr) (overwrite : bool) (w w' : world)
    (e : exn) :
  process_file p out overwrite w = (w', Raise e) -> surfaced e = true.
Proof.
  unfold process_file.
  destruct (negb (os_path_exists w p)); [intros H; inversion H; reflexivity|].
  destruct (negb overwrite && _); [intros H; inversion H; reflexivity|].
  destruct (file_opener p) as [o|]; [|intros H; inversion H; reflexivity].
  destruct (count_lines w o p) as [w1 total_lines].
  unfold read_batch.
  destruct (open_and_read w1 o p) as [ls|e0] eqn:Eread.
  - destruct (process_lines ls empty_batch) as [b [[]|e0]] eqn:Eloop.
    + destruct (build_tensors b) as [[vt dt]|e0] eqn:Eb.
      * match goal with
        | |- context [save_tensors vt dt ?v ?d ?i ?w0] =>
            pose proof (save_and_verify_outcome vt dt v d i w0
                          (vectors_docids_path_ne out p)) as Hs
        end.
        unfold save_and_verify in Hs.
        destruct Hs as [(_ & _ & Hs) | [(_ & Hs) | (_ & _ & Hs)]];
          rewrite Hs; intros H; inversion H; reflexivity.
      * intros H; inversion H; subst.
        apply build_tensors_raises in Eb.
        destruct Eb as [-> | [-> | [-> | ->]]]; reflexivity.
    + apply process_lines_raises in Eloop.
      destruct Eloop as [-> | [-> | ->]]; intros H; inversion H; reflexivity.
  - apply open_and_read_raises in Eread.
    destruct (is_IOError e0) eqn:Eio; intros H; inversion H; subst;
      [reflexivity|]. destruct Eread as [? | ->]; [congruence | reflexivity].
Qed.

Lemma surfaced_exceptions_witness :
  surfaced IOError = true /\
  (process_file (py "in/a.json.gz") example_output false
     (world_at (py "in/a.json.gz") (TextFile example_lines))).2 = Raise IOError.
Proof.
  split; [|vm_compute; reflexivity].
  apply (surfaced_exceptions (py "in/a.json.gz") example_output false
           (world_at (py "in/a.json.gz") (TextFile example_lines))
           (process_file (py "in/a.json.gz") example_output false
              (world_at (py "in/a.json.gz") (TextFile example_lines))).1).
  vm_compute. reflexivity.
Defined.

(** X19. When the input cannot be read through the reader its name selects
    (plain text under a [.gz] name, a directory), the run logs the failure
    and raises [IOError]; a decoding error is raised as it is.  Either way
    nothing is written. *)
Theorem unreadable_input (p out : pystr) (overwrite : bool) (w : world)
    (o : opener) (e : exn) :
  os_path_exists w p = true ->
  (overwrite = true \/
   os_path_exists w (vectors_path out p) = false /\
   os_path_exists w (docids_path out p) = false) ->
  file_opener p = Some o ->
  open_and_read w o p = Raise e ->
  exists w',
    process_file p out overwrite w =
      (w', Raise (if is_IOError e then IOError else e)) /\
    files w' = files w /\
    log w' = log w ++ (if is_IOError e then [(ERROR, ReadFailed p e)] else []) /\
    io w' = io w ++ [IoOpen o p; IoOpen o p].
Proof.
  intros Hex Hov Ho Hread.
  unfold process_file. rewrite Hex. cbn [negb].
  replace (negb overwrite && _) with false
    by (destruct Hov as [-> | [-> ->]]; [reflexivity|];
        destruct overwrite; reflexivity).
  rewrite Ho. unfold count_lines. rewrite Hread. unfold read_batch.
  rewrite (open_and_read_files w (trace _ w)) by reflexivity.
  rewrite Hread.
  destruct (is_IOError e); eexists; split_and!; try reflexivity;
    cbn [log io logging trace app]; rewrite <- ?app_assoc, ?app_nil_r;
    reflexivity.
Qed.

Lemma unreadable_input_witness :
  exists w',
    process_file (py "in/a.json.gz") example_output false
      (world_at (py "in/a.json.gz") (TextFile example_lines)) =
      (w', Raise IOError) /\
    log w' = [(ERROR, ReadFailed (py "in/a.json.gz") BadGzipFile)].
Proof.
  destruct (unreadable_input (py "in/a.json.gz") example_output false
              (world_at (py "in/a.json.gz") (TextFile example_lines))
              gzip_open BadGzipFile) as (w' & H1 & _ & H2 & _);
    try (vm_compute; reflexivity).
  - right. split; vm_compute; reflexivity.
  - exists w'. split; [exact H1 | exact H2].
Defined.

(** ** The log and the trace of a run that returns *)

Lemma process_line_warnings (line : pystr) (b : batch) :
  forallb is_warning (warnings b) = true ->
  forallb is_warning (warnings (process_line line b).1) = true.
Proof.
  intros Hb.
  unfold process_line, line_body, dict_get, getitem0, getitem, isinstance_float.
  destruct (loads line) as [entry|e]; cbn [rbind].
  - repeat (case_match; simplify_eq/=); rewrite ?forallb_app, ?Hb; reflexivity.
  - destruct (skipped e); simpl; rewrite ?forallb_app, ?Hb; reflexivity.
Qed.

Lemma process_lines_warnings (lines : list pystr) (b b' : batch)
    (r : result unit) :
  process_lines lines b = (b', r) ->
  forallb is_warning (warnings b) = true ->
  forallb is_warning (warnings b') = true.
Proof.
  revert b. induction lines as [|line rest IH]; intros b; cbn [process_lines].
  - intros H; inversion H; subst. tauto.
  - pose proof (process_line_warnings line b) as Hw.
    destruct (process_line line b) as [b1 [[]|e]]; cbn [fst] in Hw.
    + intros H Hb. apply (IH b1 H (Hw Hb)).
    + intros H Hb; inversion H; subst. apply (Hw Hb).
Qed.

(** The world a run that returns leaves, in full. *)
Lemma process_file_ok_exact (p out : pystr) (overwrite : bool) (w w' : world) :
  process_file p out overwrite w = (w', Ok tt) ->
  exists o b vt dt,
    file_opener p = Some o /\
    process_lines (input_lines w p) empty_batch = (b, Ok tt) /\
    build_tensors b = Ok (vt, dt) /\
    w' =
      World
        (saved_files vt dt (vectors_path out p) (docids_path out p) (files w))
        (writable w)
        (log w ++ warnings b ++
           confirmations (vectors_path out p) (docids_path out p) vt dt)
        (io w ++
           (IoOpen o p :: map (IoReadLine p) (input_lines w p)) ++
           (IoOpen o p :: map (IoReadLine p) (input_lines w p)) ++
           [IoSave (vectors_path out p); IoSave (docids_path out p);
            IoLoad (vectors_path out p); IoLoad (docids_path out p)]).
Proof.
  intros Hp.
  destruct (process_file_cases p out overwrite w)
    as [(w1 & e & Hp1 & _) | (o & ls & b & vt & dt & H)]; [congruence|].
  destruct H as (_ & Ho & Hread & Hloop & Hb & Hrun).
  exists o, b, vt, dt. rewrite (input_lines_read w p o ls Ho Hread).
  split; [exact Ho|]. split; [exact Hloop|]. split; [exact Hb|].
  rewrite Hp in Hrun.
  destruct (save_and_verify_outcome vt dt (vectors_path out p)
              (docids_path out p) p (after_reading o p ls b w)
              (vectors_docids_path_ne out p))
    as [(_ & _ & Hs) | [(_ & Hs) | (_ & _ & Hs)]];
    rewrite Hs in Hrun; [|discriminate|discriminate].
  injection Hrun as ->. unfold after_reading.
  rewrite (process_lines_pbar_all ls b Hloop).
  cbn [files writable log io logging_all trace].
  rewrite <- !app_assoc. reflexivity.
Qed.

(** X20. A run that returns has opened the input twice and read every
    line twice (once to count, once to process), then saved the vector
    file, saved the identifier file, and loaded both back, in this order. *)
Theorem trace_of_run (p out : pystr) (overwrite : bool) (w w' : world) :
  process_file p out overwrite w = (w', Ok tt) ->
  exists o,
    file_opener p = Some o /\
    io w' =
      io w ++
      (IoOpen o p :: map (IoReadLine p) (input_lines w p)) ++
      (IoOpen o p :: map (IoReadLine p) (input_lines w p)) ++
      [IoSave (vectors_path out p); IoSave (docids_path out p);
       IoLoad (vectors_path out p); IoLoad (docids_path out p)].
Proof.
  intros Hp. apply process_file_ok_exact in Hp
    as (o & b & vt & dt & Ho & _ & _ & ->).
  exists o. split; [exact Ho | reflexivity].
Qed.

Lemma trace_of_run_witness :
  io (process_file example_input example_output false
        (world_of missing_docid_lines)).1 =
  [IoOpen builtin_open example_input;
   IoReadLine example_input (dq "{'vector': [0.5]}");
   IoReadLine example_input (dq "{'vector': [1.5], 'docid': 'b'}");
   IoOpen builtin_open example_input;
   IoReadLine example_input (dq "{'vector': [0.5]}");
   IoReadLine example_input (dq "{'vector': [1.5], 'docid': 'b'}");
   IoSave (vectors_path example_output example_input);
   IoSave (docids_path example_output example_input);
   IoLoad (vectors_path example_output example_input);
   IoLoad (docids_path example_output example_input)].
Proof.
  destruct (trace_of_run example_input example_output false
              (world_of missing_docid_lines)
              (process_file example_input example_output false
                 (world_of missing_docid_lines)).1) as (o & Ho & H).
  - vm_compute. reflexivity.
  - rewrite H. vm_compute in Ho. injection Ho as <-. reflexivity.
Defined.

(** X21. A run that returns makes one warning call for every line that
    gave no identifier row, and then the six logging calls of lines
    97-113, whose two debug calls carry the tensors that are in the
    files. *)
Theorem log_of_run (p out : pystr) (overwrite : bool) (w w' : world) :
  process_file p out overwrite w = (w', Ok tt) ->
  exists ws vt dt,
    log w' =
      log w ++ ws ++
      confirmations (vectors_path out p) (docids_path out p) vt dt /\
    forallb is_warning ws = true /\
    (length ws + length (docid_rows (input_lines w p)) =
     length (input_lines w p))%nat /\
    files w' !! vectors_path out p = Some (SafeTensors (py "vectors") (F64 vt)) /\
    files w' !! docids_path out p = Some (SafeTensors (py "docids") (I64 dt)).
Proof.
  intros Hp. apply process_file_ok_exact in Hp
    as (o & b & vt & dt & Ho & Hloop & Hb & ->).
  exists (warnings b), vt, dt. cbn [log files].
  split; [reflexivity|].
  split; [apply (process_lines_warnings _ _ _ _ Hloop); reflexivity|].
  split.
  - pose proof (process_lines_accounted _ _ _ Hloop) as Ha.
    pose proof (process_lines_ok _ _ _ Hloop) as [_ Hd].
    cbn [warnings docids empty_batch length app] in Ha, Hd.
    rewrite <- Hd. lia.
  - split; [apply saved_files_vectors | apply saved_files_docids].
Qed.

Lemma log_of_run_witness :
  exists vt dt,
    log (process_file example_input example_output false
           (world_of example_lines)).1 =
    [(WARNING, SkippedJSON JSONDecodeError);
     (WARNING, SkippedVector (JStr (py "u")))] ++
    confirmations (vectors_path example_output example_input)
      (docids_path example_output example_input) vt dt.
Proof.
  destruct (log_of_run example_input example_output false
              (world_of example_lines)
              (process_file example_input example_output false
                 (world_of example_lines)).1)
    as (ws & vt & dt & Hlog & _ & _ & Hv & Hd).
  - vm_compute. reflexivity.
  - vm_compute in Hv. injection Hv as <-. vm_compute in Hd. injection Hd as <-.
    eexists _, _. vm_compute. reflexivity.
Defined.

(** ** The size of the pool *)

(** X22. The pool never has more workers than there are input files or
    processors; with no input file at all its creation raises
    [ValueError], so that the program fails on an empty input directory. *)
Theorem pool_size (cpu_count : nat) (input_file_paths : list pystr) :
  (1 <= cpu_count)%nat ->
  (input_file_paths = [] ->
   Pool (num_processes cpu_count input_file_paths) = Raise ValueError) /\
  (input_file_paths <> [] ->
   exists n,
     Pool (num_processes cpu_count input_file_paths) = Ok n /\
     (1 <= n)%nat /\ (n <= cpu_count)%nat /\
     (n <= length input_file_paths)%nat).
Proof.
  intros Hc. unfold Pool, num_processes. split.
  - intros ->. cbn [length]. rewrite Nat.min_0_r. reflexivity.
  - intros Hne. destruct input_file_paths as [|x l]; [congruence|].
    cbn [length].
    destruct (Nat.ltb_spec (Nat.min cpu_count (S (length l))) 1) as [Hlt | Hge];
      [lia|].
    eexists. split; [reflexivity|]. lia.
Qed.

Lemma pool_size_witness :
  Pool (num_processes 8 []) = Raise ValueError /\
  exists n, Pool (num_processes 8 [example_input]) = Ok n /\ (n <= 1)%nat.
Proof.
  destruct (pool_size 8 []) as [H0 _]; [lia|].
  destruct (pool_size 8 [example_input]) as [_ H1]; [lia|].
  destruct (H1 ltac:(discriminate)) as (n & Hn & _ & _ & Hl).
  split; [exact (H0 eq_refl)|]. exists n. split; [exact Hn | exact Hl].
Defined.

(** ** Files that are converted *)

Lemma mapM_ok {A B} (f : A -> result B) (l : list A) :
  (forall x, In x l -> exists y, f x = Ok y) -> exists l', mapM f l = Ok l'.
Proof.
  induction l as [|x l IH]; intros Hf; [exists []; reflexivity|].
  destruct (Hf x (or_introl eq_refl)) as [y Hy].
  destruct IH as [l' Hl']; [intros z Hz; apply Hf; right; exact Hz|].
  exists (y :: l'). cbn [mapM]. rewrite Hy. cbn [rbind]. rewrite Hl'. reflexivity.
Qed.

Lemma clean_vector_stored (m : nat) (v : json) :
  clean_vector m v = true -> exists fs, recursive_store [m] v = Ok fs.
Proof.
  unfold clean_vector. destruct v as [| | | | |[|[] items]|]; try discriminate.
  intros H. apply andb_true_iff in H as [Hm Hall]. apply Nat.eqb_eq in Hm.
  rewrite recursive_store_cons. cbn [iterate length]. rewrite Hm, Nat.eqb_refl.
  rewrite mapM_singletons. apply mapM_ok. intros x [<- | Hx].
  - eexists; reflexivity.
  - rewrite forallb_forall in Hall. specialize (Hall x Hx).
    unfold element_ok in Hall. destruct (store_scalar x); [eauto | discriminate].
Qed.

Lemma clean_vectors_tensor (m : nat) (values : list json) :
  values <> [] ->
  (forall v, In v values -> clean_vector m v = true) ->
  exists t, torch_tensor_float64 values = Ok t.
Proof.
  intros Hne Hall. destruct values as [|v0 rest]; [congruence|].
  pose proof (Hall v0 (or_introl eq_refl)) as H0.
  assert (Hm : exists f items, v0 = JArr (JFloat f :: items) /\ S (length items) = m).
  { unfold clean_vector in H0. destruct v0 as [| | | | |[|[] items]|];
      try discriminate. apply andb_true_iff in H0 as [Hm _].
    apply Nat.eqb_eq in Hm. eauto. }
  destruct Hm as (f & items & -> & Hm).
  unfold torch_tensor_float64.
  change (compute_sizes MAX_DIMS (JArr (JArr (JFloat f :: items) :: rest)))
    with (Ok [S (length rest); S (length items)] : result (list nat)).
  cbn [rbind]. rewrite recursive_store_cons. cbn [iterate length].
  rewrite Nat.eqb_refl. rewrite Hm.
  destruct (mapM_ok (recursive_store [m]) (JArr (JFloat f :: items) :: rest))
    as [rows ->]; [|cbn [rbind]; eauto].
  intros x Hx. apply clean_vector_stored, Hall, Hx.
Qed.

Lemma clean_docid_codes (s : pystr) :
  forallb (fun c => (c <? 1114112)%N) s = true ->
  forallb int64_ok (map ord s) = true.
Proof.
  induction s as [|c s IH]; [reflexivity|]. cbn [forallb map].
  intros H. apply andb_true_iff in H as [Hc Hs]. rewrite (IH Hs), andb_true_r.
  apply N.ltb_lt in Hc. unfold int64_ok, ord.
  apply andb_true_iff. split; [apply Z.leb_le | apply Z.leb_le]; lia.
Qed.

(** What the loop does with a clean record. *)
Lemma clean_entry_line (m : nat) (line : pystr) (d : list (pystr * json))
    (b : batch) :
  loads line = Ok (JObj d) ->
  clean_entry m d = true ->
  exists v codes,
    clean_vector m v = true /\ forallb int64_ok codes = true /\
    process_line line b =
      (pbar_update (append_docid (append_vector b v) codes), Ok tt).
Proof.
  unfold clean_entry. intros El.
  destruct (dict_lookup d (py "vector")) as [v|] eqn:Ev; [|discriminate].
  destruct (dict_lookup d (py "docid")) as [[| | | |s| |]|] eqn:Ed;
    try discriminate.
  intros H. apply andb_true_iff in H as [Hv Hs].
  exists v, (map ord s). split; [exact Hv|].
  split; [apply clean_docid_codes, Hs|].
  unfold clean_vector in Hv. destruct v as [| | | | |[|[] items]|];
    try discriminate.
  unfold process_line, line_body. rewrite El. cbn [rbind dict_get]. rewrite Ev.
  cbn [rbind getitem0 isinstance_float getitem]. rewrite Ev, Ed. cbn [rbind].
  unfold docid_ascii. cbn [iterate rbind]. rewrite mapM_py_ord_chars.
  reflexivity.
Qed.

Lemma rejected_entry_line (line : pystr) (d : list (pystr * json)) (b : batch) :
  loads line = Ok (JObj d) ->
  vector_rejected d = true ->
  process_line line b =
    (pbar_update (warn b (SkippedVector (docid_or_na d))), Ok tt).
Proof.
  intros El. unfold vector_rejected, docid_or_na, process_line, line_body.
  rewrite El. cbn [rbind dict_get].
  destruct (dict_lookup d (py "vector")) as [[]|]; try discriminate;
    repeat (case_match; simplify_eq/=); intros; try discriminate;
    reflexivity.
Qed.

Lemma benign_lines_loop (m : nat) (ls : list pystr) (b : batch) :
  Forall (fun l =>
            loads l = Raise JSONDecodeError \/
            exists d, loads l = Ok (JObj d) /\
                      (vector_rejected d = true \/ clean_entry m d = true)) ls ->
  (forall v, In v (vectors b) -> clean_vector m v = true) ->
  (forall d, In d (docids b) -> forallb int64_ok d = true) ->
  exists b',
    process_lines ls b = (b', Ok tt) /\
    (forall v, In v (vectors b') -> clean_vector m v = true) /\
    (forall d, In d (docids b') -> forallb int64_ok d = true) /\
    (Exists (fun l => exists d, loads l = Ok (JObj d) /\ clean_entry m d = true)
       ls \/ docids b <> [] -> docids b' <> []) /\
    (Exists (fun l => exists d, loads l = Ok (JObj d) /\ clean_entry m d = true)
       ls \/ vectors b <> [] -> vectors b' <> []).
Proof.
  intros Hall. revert b.
  induction Hall as [|line rest Hline _ IH]; intros b Hv Hd.
  { exists b. cbn [process_lines].
    split_and!; try assumption; try reflexivity;
      (intros [H | H]; [inversion H | exact H]). }
  cbn [process_lines].
  assert (Hcase :
    (exists d v codes,
       loads line = Ok (JObj d) /\ clean_entry m d = true /\
       clean_vector m v = true /\ forallb int64_ok codes = true /\
       process_line line b =
         (pbar_update (append_docid (append_vector b v) codes), Ok tt)) \/
    ((forall d, loads line = Ok (JObj d) -> clean_entry m d = false) /\
     exists msg, process_line line b = (pbar_update (warn b msg), Ok tt))).
  { destruct Hline as [El | (d & El & [Hr | Hc])].
    - right. split; [intros d E; rewrite El in E; discriminate|].
      eexists. unfold process_line, line_body. rewrite El. reflexivity.
    - destruct (clean_entry m d) eqn:Ec.
      + left. destruct (clean_entry_line m line d b El Ec) as (v & codes & H).
        exists d, v, codes. tauto.
      + right. split; [intros d' E; rewrite El in E; inversion E; subst; exact Ec|].
        eexists. apply (rejected_entry_line line d b El Hr).
    - left. destruct (clean_entry_line m line d b El Hc) as (v & codes & H).
      exists d, v, codes. tauto. }
  destruct Hcase as [(d & v & codes & El & Hc & Hcv & Hcc & ->) | [Hnc [msg ->]]].
  - destruct (IH (pbar_update (append_docid (append_vector b v) codes)))
      as (b' & Hloop & Hv' & Hd' & Hnd & Hnv).
    + cbn [vectors pbar_update append_docid append_vector].
      intros x Hx. apply in_app_or in Hx as [Hx | [<- | []]]; auto.
    + cbn [docids pbar_update append_docid append_vector].
      intros x Hx. apply in_app_or in Hx as [Hx | [<- | []]]; auto.
    + exists b'. split; [exact Hloop|]. split; [exact Hv'|]. split; [exact Hd'|].
      split; intros _; [apply Hnd | apply Hnv]; right;
        cbn [docids vectors pbar_update append_docid append_vector];
        intros E; apply app_eq_nil in E as [_ E]; discriminate.
  - destruct (IH (pbar_update (warn b msg)) Hv Hd)
      as (b' & Hloop & Hv' & Hd' & Hnd & Hnv).
    exists b'. split; [exact Hloop|]. split; [exact Hv'|]. split; [exact Hd'|].
    split; (intros [H | H]; [|auto]).
    + apply Hnd. inversion H as [? ? (d & El & Hc) | ? ? Hr]; subst.
      * rewrite (Hnc d El) in Hc. discriminate.
      * left. exact Hr.
    + apply Hnv. inversion H as [? ? (d & El & Hc) | ? ? Hr]; subst.
      * rewrite (Hnc d El) in Hc. discriminate.
      * left. exact Hr.
Qed.

(** X23. A sufficient condition for a conversion: if on every line
    [json.loads] either raised [JSONDecodeError], or returned an object
    whose vector is refused with a warning, or returned a record with a
    docid string and a float-headed vector of [m] numbers, if one line at
    least gave such a record, and if the two output paths can be written
    (and are absent, or the overwrite flag is set), the run returns. *)
Theorem clean_file_converts (p out : pystr) (overwrite : bool) (w : world)
    (o : opener) (ls : list pystr) (m : nat) :
  os_path_exists w p = true ->
  (overwrite = true \/
   os_path_exists w (vectors_path out p) = false /\
   os_path_exists w (docids_path out p) = false) ->
  file_opener p = Some o ->
  open_and_read w o p = Ok ls ->
  Forall (fun l =>
            loads l = Raise JSONDecodeError \/
            exists d, loads l = Ok (JObj d) /\
                      (vector_rejected d = true \/ clean_entry m d = true)) ls ->
  Exists (fun l => exists d, loads l = Ok (JObj d) /\ clean_entry m d = true) ls ->
  ~ unwritable w (vectors_path out p) ->
  ~ unwritable w (docids_path out p) ->
  exists w', process_file p out overwrite w = (w', Ok tt).
Proof.
  intros Hex Hov Ho Hread Hall Hone Hwv Hwd.
  destruct (benign_lines_loop m ls empty_batch Hall)
    as (b & Hloop & Hv & Hd & Hnd & Hnv);
    [intros v [] | intros d [] |].
  destruct (clean_vectors_tensor m (vectors b)) as [vt Hvt];
    [apply Hnv; left; exact Hone | exact Hv |].
  destruct (mapM_ok torch_tensor_int64 (docids b)) as [ts Hts].
  { intros d Hin. unfold torch_tensor_int64. rewrite (Hd d Hin). eauto. }
  assert (Hpad : exists dt, pad_sequence ts = Ok dt).
  { destruct ts as [|t0 ts']; [|eexists; reflexivity].
    exfalso. apply (Hnd (or_introl Hone)).
    apply mapM_torch_tensor_int64 in Hts. rewrite <- Hts. reflexivity. }
  destruct Hpad as [dt Hdt].
  assert (Hb : build_tensors b = Ok (vt, dt)).
  { unfold build_tensors. rewrite Hvt. cbn [rbind]. rewrite Hts. cbn [rbind].
    rewrite Hdt. reflexivity. }
  rewrite (process_file_run_exact p out overwrite w o ls b vt dt
             Hex Hov Ho Hread Hloop Hb).
  destruct (save_and_verify_outcome vt dt (vectors_path out p)
              (docids_path out p) p (after_reading o p ls b w)
              (vectors_docids_path_ne out p))
    as [(_ & _ & ->) | [(Hu & _) | (_ & Hu & _)]].
  - eexists. reflexivity.
  - destruct (Hwv Hu).
  - destruct (Hwd Hu).
Qed.

Lemma clean_file_converts_witness :
  exists w',
    process_file example_input example_output false (world_of mixed_lines) =
      (w', Ok tt).
Proof.
  apply (clean_file_converts example_input example_output false
           (world_of mixed_lines) builtin_open mixed_lines 2).
  - reflexivity.
  - right. split; vm_compute; reflexivity.
  - reflexivity.
  - reflexivity.
  - unfold mixed_lines.
    repeat (apply List.Forall_cons;
            [first [ left; vm_compute; reflexivity
                   | right; eexists; split; [vm_compute; reflexivity|];
                     first [ left; vm_compute; reflexivity
                           | right; vm_compute; reflexivity ] ]|]).
    apply List.Forall_nil.
  - apply List.Exists_cons_hd. eexists.
    split; [vm_compute; reflexivity | vm_compute; reflexivity].
  - intros [H | H]; vm_compute in H; discriminate.
  - intros [H | H]; vm_compute in H; discriminate.
Defined.

(** ** The vector field, and where the outputs go *)

(** X24. A [vector] field that is [null], a number or a boolean ends the
    loop with [TypeError], since [obj[0]] is not caught; one that is a
    JSON object is skipped with the warning of the [KeyError] handler. *)
Theorem scalar_vector_aborts (line : pystr) (d : list (pystr * json))
    (v : json) (rest : list pystr) (b : batch) :
  loads line = Ok (JObj d) ->
  dict_lookup d (py "vector") = Some v ->
  (is_scalar v = true ->
   process_lines (line :: rest) b = (pbar_update b, Raise TypeError)) /\
  (is_object v = true ->
   process_line line b =
     (pbar_update (warn b (SkippedJSON KeyError)), Ok tt)).
Proof.
  intros Hl Hd. split; intros Hv.
  - cbn [process_lines]. unfold process_line, line_body. rewrite Hl.
    cbn [rbind dict_get]. rewrite Hd.
    destruct v; try discriminate; reflexivity.
  - unfold process_line, line_body. rewrite Hl.
    cbn [rbind dict_get]. rewrite Hd.
    destruct v; try discriminate; reflexivity.
Qed.

Lemma scalar_vector_aborts_witness :
  process_lines [dq "{'vector': null, 'docid': 'a'}";
                 dq "{'vector': [1.5], 'docid': 'b'}"] empty_batch =
    (pbar_update empty_batch, Raise TypeError) /\
  process_line (dq "{'vector': {'0': 1.5}, 'docid': 'a'}") empty_batch =
    (pbar_update (warn empty_batch (SkippedJSON KeyError)), Ok tt).
Proof.
  split.
  - apply (proj1 (scalar_vector_aborts (dq "{'vector': null, 'docid': 'a'}")
                    [(py "vector", JNull); (py "docid", JStr (py "a"))] JNull
                    [dq "{'vector': [1.5], 'docid': 'b'}"] empty_batch
                    ltac:(vm_compute; reflexivity) ltac:(vm_compute; reflexivity)));
      reflexivity.
  - apply (proj2 (scalar_vector_aborts (dq "{'vector': {'0': 1.5}, 'docid': 'a'}")
                    [(py "vector",
                      JObj [(py "0", JFloat (S754_finite false 6755399441055744 (-52)))]);
                     (py "docid", JStr (py "a"))]
                    (JObj [(py "0", JFloat (S754_finite false 6755399441055744 (-52)))])
                    [] empty_batch
                    ltac:(vm_compute; reflexivity) ltac:(vm_compute; reflexivity)));
      reflexivity.
Defined.

Lemma basename_no_sep (p : pystr) :
  existsb (char_eqb sep) (basename p) = false.
Proof.
  induction p as [|c p IH]; [reflexivity|].
  cbn [basename]. destruct (existsb (char_eqb sep) (c :: p)) eqn:E; assumption.
Qed.

Lemma replace_go_no_sep (old : pystr) (s : pystr) (skip : nat) :
  existsb (char_eqb sep) s = false ->
  existsb (char_eqb sep) (replace_go old [] skip s) = false.
Proof.
  revert skip. induction s as [|c s IH]; intros skip H; [reflexivity|].
  cbn [existsb] in H. apply orb_false_iff in H as [Hc Hs].
  cbn [replace_go]. destruct skip as [|k].
  - destruct (startswith (c :: s) old).
    + cbn [app]. apply IH, Hs.
    + cbn [existsb]. rewrite Hc. cbn [orb]. apply IH, Hs.
  - apply IH, Hs.
Qed.

Lemma replace_no_sep (s old : pystr) :
  existsb (char_eqb sep) s = false ->
  existsb (char_eqb sep) (replace s old []) = false.
Proof.
  intros H. unfold replace. destruct old as [|o old].
  - cbn [app]. induction s as [|c s IH]; [reflexivity|].
    cbn [existsb] in H. apply orb_false_iff in H as [Hc Hs].
    cbn [flat_map app existsb]. rewrite Hc. cbn [orb]. apply IH, Hs.
  - apply replace_go_no_sep, H.
Qed.

Lemma base_name_no_sep (p : pystr) :
  existsb (char_eqb sep) (base_name p) = false.
Proof.
  unfold base_name. do 3 apply replace_no_sep. apply basename_no_sep.
Qed.

Lemma path_join_relative (a name suffix : pystr) (c : char) :
  existsb (char_eqb sep) name = false ->
  char_eqb sep c = false ->
  path_join a (name ++ c :: suffix) = directory_prefix a ++ name ++ c :: suffix.
Proof.
  intros Hn Hc. unfold path_join, directory_prefix.
  assert (Hs : startswith (name ++ c :: suffix) [sep] = false).
  { destruct name as [|x name]; cbn [app startswith].
    - rewrite Hc. reflexivity.
    - cbn [existsb] in Hn. apply orb_false_iff in Hn as [Hx _].
      rewrite Hx. reflexivity. }
  rewrite Hs. destruct (str_eqb a [] || endswith a [sep]); [reflexivity|].
  rewrite <- app_assoc. reflexivity.
Qed.

(** X25. Both output files are direct children of the output directory:
    their paths are the directory, a [/] where it does not end with one,
    and a name without any [/], whatever the input path is. *)
Theorem outputs_in_directory (out p : pystr) :
  vectors_path out p =
    directory_prefix out ++ base_name p ++ py "_vectors.safetensors" /\
  docids_path out p =
    directory_prefix out ++ base_name p ++ py "_docids.safetensors" /\
  existsb (char_eqb sep) (base_name p ++ py "_vectors.safetensors") = false /\
  existsb (char_eqb sep) (base_name p ++ py "_docids.safetensors") = false.
Proof.
  pose proof (base_name_no_sep p) as Hb.
  split_and!.
  - apply path_join_relative; [exact Hb|reflexivity].
  - apply path_join_relative; [exact Hb|reflexivity].
  - rewrite existsb_app, Hb. reflexivity.
  - rewrite existsb_app, Hb. reflexivity.
Qed.

(** ** The file operations of a run *)

Lemma process_file_early (p out : pystr) (overwrite : bool) (w : world) :
  os_path_exists w p = false \/
  (overwrite = false /\
   (os_path_exists w (vectors_path out p) = true \/
    os_path_exists w (docids_path out p) = true)) \/
  file_opener p = None ->
  io (process_file p out overwrite w).1 = io w.
Proof.
  unfold process_file. intros [H | [[-> H] | H]].
  - rewrite H. reflexivity.
  - destruct (os_path_exists w p); [|reflexivity]. cbn [negb andb].
    replace (_ || _) with true
      by (destruct H as [-> | ->]; rewrite ?orb_true_r; reflexivity).
    reflexivity.
  - rewrite H. destruct (negb _); [reflexivity|].
    destruct (_ && _); reflexivity.
Qed.

Lemma process_file_unread (p out : pystr) (overwrite : bool) (w : world)
    (o : opener) (e : exn) :
  os_path_exists w p = true ->
  (overwrite = true \/
   os_path_exists w (vectors_path out p) = false /\
   os_path_exists w (docids_path out p) = false) ->
  file_opener p = Some o ->
  open_and_read w o p = Raise e ->
  (process_file p out overwrite w).2 =
    Raise (if is_IOError e then IOError else e) /\
  io (process_file p out overwrite w).1 = io w ++ [IoOpen o p; IoOpen o p].
Proof.
  intros Hex Hov Ho Hread.
  unfold process_file. rewrite Hex. cbn [negb].
  replace (negb overwrite && _) with false
    by (destruct Hov as [-> | [-> ->]]; [reflexivity|];
        destruct overwrite; reflexivity).
  rewrite Ho. unfold count_lines. rewrite Hread. unfold read_batch.
  rewrite (open_and_read_files w (trace _ w)) by reflexivity.
  rewrite Hread.
  destruct (is_IOError e); split; try reflexivity;
    cbn [fst log io logging trace app]; rewrite <- ?app_assoc; reflexivity.
Qed.

Lemma process_file_read (p out : pystr) (overwrite : bool) (w : world)
    (o : opener) (ls : list pystr) :
  os_path_exists w p = true ->
  (overwrite = true \/
   os_path_exists w (vectors_path out p) = false /\
   os_path_exists w (docids_path out p) = false) ->
  file_opener p = Some o ->
  open_and_read w o p = Ok ls ->
  exists b r tail,
    process_lines ls empty_batch = (b, r) /\
    In tail (output_events (vectors_path out p) (docids_path out p)) /\
    io (process_file p out overwrite w).1 =
      io w ++ (IoOpen o p :: map (IoReadLine p) ls) ++
      (IoOpen o p :: map (IoReadLine p) (take (pbar b) ls)) ++ tail /\
    ((process_file p out overwrite w).2 = Ok tt -> r = Ok tt).
Proof.
  intros Hex Hov Ho Hread.
  destruct (process_lines ls empty_batch) as [b r] eqn:Hloop.
  exists b, r.
  assert (Hraise : forall e,
    r = Raise e \/ (r = Ok tt /\ build_tensors b = Raise e) ->
    exists e',
      (process_file p out overwrite w).2 = Raise e' /\
      io (process_file p out overwrite w).1 =
        io w ++ (IoOpen o p :: map (IoReadLine p) ls) ++
        (IoOpen o p :: map (IoReadLine p) (take (pbar b) ls)) ++ []).
  { intros e He.
    unfold process_file. rewrite Hex. cbn [negb].
    replace (negb overwrite && _) with false
      by (destruct Hov as [-> | [-> ->]]; [reflexivity|];
          destruct overwrite; reflexivity).
    rewrite Ho. unfold count_lines. rewrite Hread. unfold read_batch.
    rewrite (open_and_read_files w (trace _ w)) by reflexivity.
    rewrite Hread, Hloop.
    destruct He as [-> | [-> Hb]].
    - destruct (is_IOError e); eexists; (split; [reflexivity|]);
        cbn [fst log io logging logging_all trace app];
        rewrite <- ?app_assoc, ?app_nil_r; reflexivity.
    - rewrite Hb. eexists. split; [reflexivity|].
      cbn [fst log io logging logging_all trace app].
      rewrite <- ?app_assoc, ?app_nil_r. reflexivity. }
  destruct r as [[]|e].
  2:{ destruct (Hraise e (or_introl eq_refl)) as (e' & Hr & Hio).
      exists []. split; [reflexivity|]. split; [left; reflexivity|].
      split; [exact Hio|]. rewrite Hr. discriminate. }
  destruct (build_tensors b) as [[vt dt]|e] eqn:Hb.
  2:{ destruct (Hraise e (or_intror (conj eq_refl eq_refl))) as (e' & Hr & Hio).
      exists []. split; [reflexivity|]. split; [left; reflexivity|].
      split; [exact Hio|]. intros _. reflexivity. }
  rewrite (process_file_run_exact p out overwrite w o ls b vt dt
             Hex Hov Ho Hread Hloop Hb).
  destruct (save_and_verify_outcome vt dt (vectors_path out p)
              (docids_path out p) p (after_reading o p ls b w)
              (vectors_docids_path_ne out p))
    as [(_ & _ & ->) | [(_ & ->) | (_ & _ & ->)]];
    eexists; (split; [reflexivity|]);
    (split; [|split; [|intros _; reflexivity]]);
    try (cbn [fst io after_reading logging_all trace];
         rewrite <- ?app_assoc; cbn [app]; reflexivity);
    unfold output_events; cbn [In]; tauto.
Qed.

Lemma opens_app (a b : list io_event) : opens (a ++ b) = opens a ++ opens b.
Proof. apply flat_map_app. Qed.

Lemma lines_read_app (a b : list io_event) :
  lines_read (a ++ b) = lines_read a ++ lines_read b.
Proof. apply flat_map_app. Qed.

Lemma opens_read_lines (p : pystr) (ls : list pystr) :
  opens (map (IoReadLine p) ls) = [].
Proof. induction ls as [|l ls IH]; [reflexivity | exact IH]. Qed.

Lemma lines_read_read_lines (p : pystr) (ls : list pystr) :
  lines_read (map (IoReadLine p) ls) = ls.
Proof.
  induction ls as [|l ls IH]; [reflexivity|].
  cbn [map lines_read flat_map app]. f_equal. exact IH.
Qed.

Lemma output_events_quiet (vpath dpath : pystr) (tail : list io_event) :
  In tail (output_events vpath dpath) ->
  opens tail = [] /\ lines_read tail = [] /\
  Forall (fun ev => ev = IoSave vpath \/ ev = IoSave dpath \/
                    ev = IoLoad vpath \/ ev = IoLoad dpath) tail.
Proof.
  unfold output_events. cbn [In].
  intros [<- | [<- | [<- | [<- | []]]]]; split_and!; try reflexivity;
    repeat (apply List.Forall_cons; [tauto|]); apply List.Forall_nil.
Qed.

(** What a run that reaches the reader opens and reads. *)
Lemma process_file_reader (p out : pystr) (overwrite : bool) (w : world)
    (o : opener) :
  os_path_exists w p = true ->
  (overwrite = true \/
   os_path_exists w (vectors_path out p) = false /\
   os_path_exists w (docids_path out p) = false) ->
  file_opener p = Some o ->
  exists evs,
    io (process_file p out overwrite w).1 = io w ++ evs /\
    opens evs = [(o, p); (o, p)] /\
    (forall e, open_and_read w o p = Raise e ->
       lines_read evs = [] /\
       (process_file p out overwrite w).2 =
         Raise (if is_IOError e then IOError else e)) /\
    (forall ls, open_and_read w o p = Ok ls ->
       exists n,
         lines_read evs = ls ++ take n ls /\
         ((process_file p out overwrite w).2 = Ok tt -> take n ls = ls)).
Proof.
  intros Hex Hov Ho.
  destruct (open_and_read w o p) as [ls|e] eqn:Hread.
  - destruct (process_file_read p out overwrite w o ls Hex Hov Ho Hread)
      as (b & r & tail & Hloop & Htail & Hio & Hr).
    apply output_events_quiet in Htail as (Ho1 & Ho2 & _).
    eexists. split; [exact Hio|]. split; [|split; [discriminate|]].
    + cbn [opens flat_map app]. fold (opens (map (IoReadLine p) ls ++
        IoOpen o p :: map (IoReadLine p) (take (pbar b) ls) ++ tail)).
      rewrite opens_app, opens_read_lines. cbn [opens flat_map app].
      fold (opens (map (IoReadLine p) (take (pbar b) ls) ++ tail)).
      rewrite opens_app, opens_read_lines, Ho1. reflexivity.
    + intros ls' E. inversion E; subst ls'. exists (pbar b). split.
      * cbn [lines_read flat_map app]. fold (lines_read (map (IoReadLine p) ls ++
          IoOpen o p :: map (IoReadLine p) (take (pbar b) ls) ++ tail)).
        rewrite lines_read_app, lines_read_read_lines.
        cbn [lines_read flat_map app].
        fold (lines_read (map (IoReadLine p) (take (pbar b) ls) ++ tail)).
        rewrite lines_read_app, lines_read_read_lines, Ho2, app_nil_r.
        reflexivity.
      * intros Hok. rewrite (Hr Hok) in Hloop.
        apply process_lines_pbar_all, Hloop.
  - destruct (process_file_unread p out overwrite w o e Hex Hov Ho Hread)
      as [Hr Hio].
    eexists. split; [exact Hio|]. split; [reflexivity|].
    split; [|discriminate].
    intros e' E. inversion E; subst e'. split; [reflexivity | exact Hr].
Qed.

(** X14. Apart from what logging does, the file operations of a run are
    opens and reads of the input path and saves and loads of the two output
    paths, whatever its outcome; the input path is never saved to. *)
Theorem run_touches_own_paths (p out : pystr) (overwrite : bool) (w : world) :
  exists evs,
    io (process_file p out overwrite w).1 = io w ++ evs /\
    Forall (on_own_paths p (vectors_path out p) (docids_path out p)) evs /\
    ~ In (IoSave p) evs.
Proof.
  destruct (os_path_exists w p) eqn:Hex.
  2:{ exists []. rewrite app_nil_r. split; [|split; [constructor | intros []]].
      apply process_file_early. left. exact Hex. }
  destruct (file_opener p) as [o|] eqn:Ho.
  2:{ exists []. rewrite app_nil_r. split; [|split; [constructor | intros []]].
      apply process_file_early. right. right. exact Ho. }
  assert (Hov : (overwrite = true \/
                 os_path_exists w (vectors_path out p) = false /\
                 os_path_exists w (docids_path out p) = false) \/
                (overwrite = false /\
                 (os_path_exists w (vectors_path out p) = true \/
                  os_path_exists w (docids_path out p) = true))).
  { destruct overwrite; [left; left; reflexivity|].
    destruct (os_path_exists w (vectors_path out p));
      destruct (os_path_exists w (docids_path out p)); tauto. }
  destruct Hov as [Hov | Hov].
  2:{ exists []. rewrite app_nil_r. split; [|split; [constructor | intros []]].
      apply process_file_early. right. left. exact Hov. }
  pose proof (input_not_vectors_path out p o Ho) as Hnv.
  pose proof (input_not_docids_path out p o Ho) as Hnd.
  destruct (open_and_read w o p) as [ls|e] eqn:Hread.
  - destruct (process_file_read p out overwrite w o ls Hex Hov Ho Hread)
      as (b & r & tail & _ & Htail & Hio & _).
    apply output_events_quiet in Htail as (_ & _ & Htail).
    eexists. split; [exact Hio|].
    assert (Hreads : forall l, Forall
              (on_own_paths p (vectors_path out p) (docids_path out p))
              (map (IoReadLine p) l)).
    { intros l. apply List.Forall_forall. intros ev Hev.
      apply in_map_iff in Hev as (x & <- & _). reflexivity. }
    assert (Hnoreads : forall l, ~ In (IoSave p) (map (IoReadLine p) l)).
    { intros l Hev. apply in_map_iff in Hev as (x & Hx & _). discriminate. }
    split.
    + apply List.Forall_app. split; [apply List.Forall_cons; [reflexivity | apply Hreads]|].
      apply List.Forall_cons; [reflexivity|].
      apply List.Forall_app. split; [apply Hreads|].
      eapply List.Forall_impl; [|exact Htail].
      intros ev [-> | [-> | [-> | ->]]]; cbn; tauto.
    + intros Hin. apply in_app_or in Hin as [[Hin | Hin] | [Hin | Hin]];
        try discriminate; try (apply Hnoreads in Hin; exact Hin).
      apply in_app_or in Hin as [Hin | Hin]; [apply Hnoreads in Hin; exact Hin|].
      rewrite List.Forall_forall in Htail.
      destruct (Htail _ Hin) as [H | [H | [H | H]]]; congruence.
  - destruct (process_file_unread p out overwrite w o e Hex Hov Ho Hread)
      as [_ Hio].
    eexists. split; [exact Hio|]. split.
    + repeat (apply List.Forall_cons; [reflexivity|]). apply List.Forall_nil.
    + cbn [In]. intros [H | [H | []]]; discriminate.
Qed.

(** ** The reader of the input *)

Lemma file_opener_gz (p : pystr) :
  endswith p (py ".gz") = true -> file_opener p = Some gzip_open.
Proof. intros H. unfold file_opener. rewrite H. reflexivity. Qed.

Lemma file_opener_text (p : pystr) :
  endswith p (py ".jsonl") = true \/ endswith p (py ".json") = true ->
  file_opener p = Some builtin_open.
Proof.
  intros H. unfold file_opener.
  destruct (endswith p (py ".gz")) eqn:Hgz.
  - apply endswith_gz_not_json in Hgz as [H1 H2].
    rewrite H1, H2 in H. destruct H; discriminate.
  - destruct H as [-> | ->]; [reflexivity|].
    rewrite orb_true_r. reflexivity.
Qed.

(** C8. The reader is chosen from the path's extension alone.  A run on a
    path that ends with [.gz] opens it through gzip, in both passes, and
    the lines it reads are those of the decompressed text; plain text
    under such a name is refused by gzip and the run raises [IOError].  A
    run on a path that ends with [.jsonl] or [.json] opens it as plain
    text, in both passes, and reads its lines as they are.  For any other
    extension the file's processing fails before a line is read, with
    [ValueError] once the checks on the paths have passed. *)
Theorem reader_by_extension (p : pystr) :
  (endswith p (py ".gz") = true ->
   file_opener p = Some gzip_open /\
   (forall w ls, files w !! p = Some (GzFile ls) -> input_lines w p = ls) /\
   forall out overwrite w,
     os_path_exists w p = true ->
     (overwrite = true \/
      os_path_exists w (vectors_path out p) = false /\
      os_path_exists w (docids_path out p) = false) ->
     exists evs,
       io (process_file p out overwrite w).1 = io w ++ evs /\
       opens evs = [(gzip_open, p); (gzip_open, p)] /\
       (forall ls, files w !! p = Some (GzFile ls) ->
          exists n,
            lines_read evs = ls ++ take n ls /\
            ((process_file p out overwrite w).2 = Ok tt -> take n ls = ls)) /\
       (forall l ls, files w !! p = Some (TextFile (l :: ls)) ->
          lines_read evs = [] /\
          (process_file p out overwrite w).2 = Raise IOError)) /\
  (endswith p (py ".jsonl") = true \/ endswith p (py ".json") = true ->
   file_opener p = Some builtin_open /\
   (forall w ls, files w !! p = Some (TextFile ls) -> input_lines w p = ls) /\
   forall out overwrite w,
     os_path_exists w p = true ->
     (overwrite = true \/
      os_path_exists w (vectors_path out p) = false /\
      os_path_exists w (docids_path out p) = false) ->
     exists evs,
       io (process_file p out overwrite w).1 = io w ++ evs /\
       opens evs = [(builtin_open, p); (builtin_open, p)] /\
       (forall ls, files w !! p = Some (TextFile ls) ->
          exists n,
            lines_read evs = ls ++ take n ls /\
            ((process_file p out overwrite w).2 = Ok tt -> take n ls = ls))) /\
  (endswith p (py ".gz") = false ->
   endswith p (py ".jsonl") = false ->
   endswith p (py ".json") = false ->
   forall out overwrite w,
   exists w' e,
     process_file p out overwrite w = (w', Raise e) /\
     io w' = io w /\ files w' = files w /\
     (e = FileNotFoundError \/ e = FileExistsError \/ e = ValueError) /\
     (os_path_exists w p = true -> overwrite = true -> e = ValueError)).
Proof.
  split; [|split].
  - intros H. pose proof (file_opener_gz p H) as Ho.
    split; [exact Ho|]. split.
    { intros w ls Hf. unfold input_lines, open_and_read. rewrite Ho, Hf.
      reflexivity. }
    intros out overwrite w Hex Hov.
    destruct (process_file_reader p out overwrite w gzip_open Hex Hov Ho)
      as (evs & Hio & Hopens & Hfail & Hread).
    exists evs. split; [exact Hio|]. split; [exact Hopens|]. split.
    + intros ls Hf. apply Hread. unfold open_and_read. rewrite Hf. reflexivity.
    + intros l ls Hf.
      apply (Hfail BadGzipFile). unfold open_and_read. rewrite Hf. reflexivity.
  - intros H. pose proof (file_opener_text p H) as Ho.
    split; [exact Ho|]. split.
    { intros w ls Hf. unfold input_lines, open_and_read. rewrite Ho, Hf.
      destruct ls; reflexivity. }
    intros out overwrite w Hex Hov.
    destruct (process_file_reader p out overwrite w builtin_open Hex Hov Ho)
      as (evs & Hio & Hopens & _ & Hread).
    exists evs. split; [exact Hio|]. split; [exact Hopens|].
    intros ls Hf. apply Hread. unfold open_and_read. rewrite Hf. reflexivity.
  - intros H1 H2 H3 out overwrite w.
    destruct (process_file_no_opener p out overwrite w) as (m & e & He & Hk & Hv).
    { unfold file_opener. rewrite H1, H2, H3. reflexivity. }
    eexists _, e. split; [exact He|]. split_and!; try reflexivity; assumption.
Qed.

Lemma reader_by_extension_witness :
  (exists evs,
     io (process_file (py "in/a.json.gz") example_output false gz_world).1 = evs /\
     opens evs =
       [(gzip_open, py "in/a.json.gz"); (gzip_open, py "in/a.json.gz")] /\
     lines_read evs = example_lines ++ example_lines) /\
  (exists evs,
     io (process_file (py "in/a.json.gz") example_output false
           text_as_gz_world).1 = evs /\
     lines_read evs = [] /\
     (process_file (py "in/a.json.gz") example_output false
        text_as_gz_world).2 = Raise IOError) /\
  (exists evs,
     io (process_file example_input example_output false
           (world_of example_lines)).1 = evs /\
     opens evs = [(builtin_open, example_input); (builtin_open, example_input)] /\
     lines_read evs = example_lines ++ example_lines) /\
  exists w',
    process_file (py "in/a.txt") example_output true
      (world_at (py "in/a.txt") (TextFile example_lines)) =
      (w', Raise ValueError) /\ io w' = [].
Proof.
  split_and!.
  - destruct (reader_by_extension (py "in/a.json.gz")) as (H & _ & _).
    destruct (H eq_refl) as (_ & _ & Hrun).
    destruct (Hrun example_output false gz_world)
      as (evs & Hio & Hopens & Hread & _);
      [reflexivity | right; split; reflexivity |].
    destruct (Hread example_lines eq_refl) as (n & Hlines & Hn).
    exists evs. split; [exact Hio|]. split; [exact Hopens|].
    rewrite Hlines, Hn; [reflexivity|]. vm_compute. reflexivity.
  - destruct (reader_by_extension (py "in/a.json.gz")) as (H & _ & _).
    destruct (H eq_refl) as (_ & _ & Hrun).
    destruct (Hrun example_output false text_as_gz_world)
      as (evs & Hio & _ & _ & Hbad);
      [reflexivity | right; split; reflexivity |].
    exists evs. split; [exact Hio|].
    apply (Hbad (hd [] example_lines) (tl example_lines)). reflexivity.
  - destruct (reader_by_extension example_input) as (_ & H & _).
    destruct (H ltac:(vm_compute; tauto)) as (_ & _ & Hrun).
    destruct (Hrun example_output false (world_of example_lines))
      as (evs & Hio & Hopens & Hread);
      [reflexivity | right; split; reflexivity |].
    destruct (Hread example_lines ltac:(vm_compute; reflexivity))
      as (n & Hlines & Hn).
    exists evs. split; [exact Hio|]. split; [exact Hopens|].
    rewrite Hlines, Hn; [reflexivity|]. vm_compute. reflexivity.
  - destruct (reader_by_extension (py "in/a.txt")) as (_ & _ & H).
    destruct (H eq_refl eq_refl eq_refl example_output true
                (world_at (py "in/a.txt") (TextFile example_lines)))
      as (w' & e & Hp & Hio & _ & _ & He).
    rewrite (He eq_refl eq_refl) in Hp.
    exists w'. split; [exact Hp | exact Hio].
Defined.
